(** * The ledger store of the expense tracker

    A shallow embedding of [Database.js] and of the parts of
    [ExpenseTracker.js] that drive it: the sheet of movements, identity
    assignment, insertion, the two split operations, settlement matching,
    the currency repair pass and the ingestion pipelines.

    Conventions of the embedding.
    - The sheet is the list of its data rows (row 2 and below); the header
      row is left out, so [getLastRow() <= 1] reads [length s = 0] and the
      sheet row index of the row at list position [i] is [i + 2].
    - A row is the record [movement]; its fields carry the names of the
      [COLUMNS] table.  Text cells are strings, the empty string standing
      for an empty cell (what [setValue(null)] leaves behind).
    - A numeric cell is given by the value of its number, a rational.
      The numbers themselves are IEEE 754 doubles: the percentage the
      settlement matcher tests is computed on the doubles of the two
      amounts ([js_div], [js_mul], [js_ge]), and so is the remainder of
      a split in [Double.remainingAmount].  In the rows the two splits
      write, the remainder is carried out exactly; it is the remainder
      of the code where [Double.exact_difference] holds.
    - Collaborators outside the store (classifier, matcher, source clients,
      currency conversion) are parameters of the sections that use them. *)

From Stdlib Require Import Floats ZArith QArith Ascii String List Lia Sorted
  Permutation.
From stdpp Require Import base list strings pretty gmap.

Set Warnings "-inexact-float".


(** ** Configuration constants *)

Definition MOVEMENT_TYPES_EXPENSE : string := "Expense".
Definition MOVEMENT_TYPES_CASH : string := "Cash".
Definition MOVEMENT_TYPES_DEBIT : string := "Debit".
Definition MOVEMENT_TYPES_CREDIT : string := "Credit".
Definition MOVEMENT_TYPES_DEBIT_REPAYMENT : string := "Debit Repayment".

Definition DIRECTIONS_OUTFLOW : string := "Outflow".
Definition DIRECTIONS_INFLOW : string := "Inflow".
Definition DIRECTIONS_NEUTRAL : string := "Neutral".

Definition STATUS_SETTLED : string := "Settled".
Definition STATUS_PENDING_DIRECT_SETTLEMENT : string := "Pending Settlement".
Definition STATUS_PENDING_SPLITWISE_SETTLEMENT : string :=
  "Awaiting Splitwise Upload".
Definition STATUS_IN_SPLITWISE : string := "In Splitwise".

Definition SOURCES_GMAIL : string := "gmail".
Definition SOURCES_MONZO : string := "monzo".
Definition SOURCES_SPLITWISE : string := "splitwise".

(** ** Rows *)

(** A currency-value cell: a number, or anything that is not one (the
    [#NUM!] error of a failed conversion, a non-finite result). *)
Inductive cvalue : Type :=
| CNum (q : Q)
| CFailed.

Record currencyValues : Type := mkCurrencyValues {
  clpValue : cvalue;
  usdValue : cvalue;
  gbpValue : cvalue
}.

(** One data row of the sheet, fields in the order of [COLUMNS]. *)
Record movement : Type := mkMovement {
  TIMESTAMP : option Z;
  DIRECTION : string;
  TYPE : string;
  AMOUNT : Q;
  CURRENCY : string;
  SOURCE_DESCRIPTION : string;
  USER_DESCRIPTION : string;
  COMMENT : string;
  AI_COMMENT : string;
  CATEGORY : string;
  STATUS : string;
  SETTLED_MOVEMENT_ID : option Z;
  CLP_VALUE : cvalue;
  USD_VALUE : cvalue;
  GBP_VALUE : cvalue;
  ORIGINAL_AMOUNT : option Q;
  ID : Z;
  SOURCE : string;
  SOURCE_ID : string;
  ACCOUNTING_SYSTEM_ID : string
}.

(** Writing one cell of a row. *)
Definition set_DIRECTION (v : string) (m : movement) : movement :=
  mkMovement (TIMESTAMP m) v (TYPE m) (AMOUNT m) (CURRENCY m)
    (SOURCE_DESCRIPTION m) (USER_DESCRIPTION m) (COMMENT m) (AI_COMMENT m)
    (CATEGORY m) (STATUS m) (SETTLED_MOVEMENT_ID m) (CLP_VALUE m)
    (USD_VALUE m) (GBP_VALUE m) (ORIGINAL_AMOUNT m) (ID m) (SOURCE m)
    (SOURCE_ID m) (ACCOUNTING_SYSTEM_ID m).

Definition set_TYPE (v : string) (m : movement) : movement :=
  mkMovement (TIMESTAMP m) (DIRECTION m) v (AMOUNT m) (CURRENCY m)
    (SOURCE_DESCRIPTION m) (USER_DESCRIPTION m) (COMMENT m) (AI_COMMENT m)
    (CATEGORY m) (STATUS m) (SETTLED_MOVEMENT_ID m) (CLP_VALUE m)
    (USD_VALUE m) (GBP_VALUE m) (ORIGINAL_AMOUNT m) (ID m) (SOURCE m)
    (SOURCE_ID m) (ACCOUNTING_SYSTEM_ID m).

Definition set_AMOUNT (v : Q) (m : movement) : movement :=
  mkMovement (TIMESTAMP m) (DIRECTION m) (TYPE m) v (CURRENCY m)
    (SOURCE_DESCRIPTION m) (USER_DESCRIPTION m) (COMMENT m) (AI_COMMENT m)
    (CATEGORY m) (STATUS m) (SETTLED_MOVEMENT_ID m) (CLP_VALUE m)
    (USD_VALUE m) (GBP_VALUE m) (ORIGINAL_AMOUNT m) (ID m) (SOURCE m)
    (SOURCE_ID m) (ACCOUNTING_SYSTEM_ID m).

Definition set_USER_DESCRIPTION (v : string) (m : movement) : movement :=
  mkMovement (TIMESTAMP m) (DIRECTION m) (TYPE m) (AMOUNT m) (CURRENCY m)
    (SOURCE_DESCRIPTION m) v (COMMENT m) (AI_COMMENT m) (CATEGORY m)
    (STATUS m) (SETTLED_MOVEMENT_ID m) (CLP_VALUE m) (USD_VALUE m)
    (GBP_VALUE m) (ORIGINAL_AMOUNT m) (ID m) (SOURCE m) (SOURCE_ID m)
    (ACCOUNTING_SYSTEM_ID m).

Definition set_COMMENT (v : string) (m : movement) : movement :=
  mkMovement (TIMESTAMP m) (DIRECTION m) (TYPE m) (AMOUNT m) (CURRENCY m)
    (SOURCE_DESCRIPTION m) (USER_DESCRIPTION m) v (AI_COMMENT m)
    (CATEGORY m) (STATUS m) (SETTLED_MOVEMENT_ID m) (CLP_VALUE m)
    (USD_VALUE m) (GBP_VALUE m) (ORIGINAL_AMOUNT m) (ID m) (SOURCE m)
    (SOURCE_ID m) (ACCOUNTING_SYSTEM_ID m).

Definition set_AI_COMMENT (v : string) (m : movement) : movement :=
  mkMovement (TIMESTAMP m) (DIRECTION m) (TYPE m) (AMOUNT m) (CURRENCY m)
    (SOURCE_DESCRIPTION m) (USER_DESCRIPTION m) (COMMENT m) v (CATEGORY m)
    (STATUS m) (SETTLED_MOVEMENT_ID m) (CLP_VALUE m) (USD_VALUE m)
    (GBP_VALUE m) (ORIGINAL_AMOUNT m) (ID m) (SOURCE m) (SOURCE_ID m)
    (ACCOUNTING_SYSTEM_ID m).

Definition set_CATEGORY (v : string) (m : movement) : movement :=
  mkMovement (TIMESTAMP m) (DIRECTION m) (TYPE m) (AMOUNT m) (CURRENCY m)
    (SOURCE_DESCRIPTION m) (USER_DESCRIPTION m) (COMMENT m) (AI_COMMENT m) v
    (STATUS m) (SETTLED_MOVEMENT_ID m) (CLP_VALUE m) (USD_VALUE m)
    (GBP_VALUE m) (ORIGINAL_AMOUNT m) (ID m) (SOURCE m) (SOURCE_ID m)
    (ACCOUNTING_SYSTEM_ID m).

Definition set_STATUS (v : string) (m : movement) : movement :=
  mkMovement (TIMESTAMP m) (DIRECTION m) (TYPE m) (AMOUNT m) (CURRENCY m)
    (SOURCE_DESCRIPTION m) (USER_DESCRIPTION m) (COMMENT m) (AI_COMMENT m)
    (CATEGORY m) v (SETTLED_MOVEMENT_ID m) (CLP_VALUE m) (USD_VALUE m)
    (GBP_VALUE m) (ORIGINAL_AMOUNT m) (ID m) (SOURCE m) (SOURCE_ID m)
    (ACCOUNTING_SYSTEM_ID m).

Definition set_SETTLED_MOVEMENT_ID (v : option Z) (m : movement) : movement :=
  mkMovement (TIMESTAMP m) (DIRECTION m) (TYPE m) (AMOUNT m) (CURRENCY m)
    (SOURCE_DESCRIPTION m) (USER_DESCRIPTION m) (COMMENT m) (AI_COMMENT m)
    (CATEGORY m) (STATUS m) v (CLP_VALUE m) (USD_VALUE m) (GBP_VALUE m)
    (ORIGINAL_AMOUNT m) (ID m) (SOURCE m) (SOURCE_ID m)
    (ACCOUNTING_SYSTEM_ID m).

Definition set_CLP_VALUE (v : cvalue) (m : movement) : movement :=
  mkMovement (TIMESTAMP m) (DIRECTION m) (TYPE m) (AMOUNT m) (CURRENCY m)
    (SOURCE_DESCRIPTION m) (USER_DESCRIPTION m) (COMMENT m) (AI_COMMENT m)
    (CATEGORY m) (STATUS m) (SETTLED_MOVEMENT_ID m) v (USD_VALUE m)
    (GBP_VALUE m) (ORIGINAL_AMOUNT m) (ID m) (SOURCE m) (SOURCE_ID m)
    (ACCOUNTING_SYSTEM_ID m).

Definition set_USD_VALUE (v : cvalue) (m : movement) : movement :=
  mkMovement (TIMESTAMP m) (DIRECTION m) (TYPE m) (AMOUNT m) (CURRENCY m)
    (SOURCE_DESCRIPTION m) (USER_DESCRIPTION m) (COMMENT m) (AI_COMMENT m)
    (CATEGORY m) (STATUS m) (SETTLED_MOVEMENT_ID m) (CLP_VALUE m) v
    (GBP_VALUE m) (ORIGINAL_AMOUNT m) (ID m) (SOURCE m) (SOURCE_ID m)
    (ACCOUNTING_SYSTEM_ID m).

Definition set_GBP_VALUE (v : cvalue) (m : movement) : movement :=
  mkMovement (TIMESTAMP m) (DIRECTION m) (TYPE m) (AMOUNT m) (CURRENCY m)
    (SOURCE_DESCRIPTION m) (USER_DESCRIPTION m) (COMMENT m) (AI_COMMENT m)
    (CATEGORY m) (STATUS m) (SETTLED_MOVEMENT_ID m) (CLP_VALUE m)
    (USD_VALUE m) v (ORIGINAL_AMOUNT m) (ID m) (SOURCE m) (SOURCE_ID m)
    (ACCOUNTING_SYSTEM_ID m).

Definition set_ORIGINAL_AMOUNT (v : option Q) (m : movement) : movement :=
  mkMovement (TIMESTAMP m) (DIRECTION m) (TYPE m) (AMOUNT m) (CURRENCY m)
    (SOURCE_DESCRIPTION m) (USER_DESCRIPTION m) (COMMENT m) (AI_COMMENT m)
    (CATEGORY m) (STATUS m) (SETTLED_MOVEMENT_ID m) (CLP_VALUE m)
    (USD_VALUE m) (GBP_VALUE m) v (ID m) (SOURCE m) (SOURCE_ID m)
    (ACCOUNTING_SYSTEM_ID m).

Definition set_ID (v : Z) (m : movement) : movement :=
  mkMovement (TIMESTAMP m) (DIRECTION m) (TYPE m) (AMOUNT m) (CURRENCY m)
    (SOURCE_DESCRIPTION m) (USER_DESCRIPTION m) (COMMENT m) (AI_COMMENT m)
    (CATEGORY m) (STATUS m) (SETTLED_MOVEMENT_ID m) (CLP_VALUE m)
    (USD_VALUE m) (GBP_VALUE m) (ORIGINAL_AMOUNT m) v (SOURCE m)
    (SOURCE_ID m) (ACCOUNTING_SYSTEM_ID m).

Definition set_ACCOUNTING_SYSTEM_ID (v : string) (m : movement) : movement :=
  mkMovement (TIMESTAMP m) (DIRECTION m) (TYPE m) (AMOUNT m) (CURRENCY m)
    (SOURCE_DESCRIPTION m) (USER_DESCRIPTION m) (COMMENT m) (AI_COMMENT m)
    (CATEGORY m) (STATUS m) (SETTLED_MOVEMENT_ID m) (CLP_VALUE m)
    (USD_VALUE m) (GBP_VALUE m) (ORIGINAL_AMOUNT m) (ID m) (SOURCE m)
    (SOURCE_ID m) v.

(** ** JavaScript values the code tests or divides *)

(** [!s] is false exactly for a non-empty string. *)
Definition truthy (s : string) : bool := negb (String.eqb s "").

(** [a || b] on strings. *)
Definition or_else (a b : string) : string := if truthy a then a else b.

Definition truthy_cvalue (v : cvalue) : bool :=
  match v with
  | CNum q => negb (Qeq_bool q 0)
  | CFailed => true
  end.

Definition is_space (a : ascii) : bool :=
  match a with
  | " "%char | "009"%char | "010"%char | "011"%char | "012"%char
  | "013"%char => true
  | _ => false
  end.

Fixpoint trimStart (s : string) : string :=
  match s with
  | String a s' => if is_space a then trimStart s' else s
  | EmptyString => EmptyString
  end.

Definition trim (s : string) : string :=
  String.rev (trimStart (String.rev (trimStart s))).

(** ** Doubles *)

(** The double nearest to [q], ties to even: the double a cell holds
    when [q] is entered in it, of value [q] when [q] is the value of a
    double.  The quotient is cut after at least 64 bits, with a last bit
    that tells whether anything was cut, so that rounding it to 53 bits
    rounds [q]. *)
Definition cell_double (q : Q) : float :=
  let n := Qnum q in
  let d := Z.pos (Qden q) in
  let k := Z.max 0 (Z.log2 d - Z.log2 (Z.abs n) + 64) in
  let m := (Z.abs n * 2 ^ k)%Z in
  let r := (2 * (m / d) + (if (m mod d =? 0)%Z then 0 else 1))%Z in
  SF2Prim (binary_normalize prec emax (Z.sgn n * r) (- k - 1) false).

(** The value of a double that is finite. *)
Definition double_value (x : float) : option Q :=
  match Prim2SF x with
  | S754_zero _ => Some 0%Q
  | S754_finite sign m e =>
      Some ((if sign then -1 else 1) * inject_Z (Z.pos m) * 2 ^ e)%Q
  | S754_infinity _ | S754_nan => None
  end.

(** [x] is the finite double of value [q]. *)
Definition has_value (x : float) (q : Q) : Prop :=
  match double_value x with
  | Some v => (v == q)%Q
  | None => False
  end.

(** [a / b] on the doubles of two amounts, [x * k] and [x >= k]: the
    division by zero gives an infinity or [NaN], and no comparison with
    [NaN] holds. *)
Definition js_div (a b : Q) : float :=
  PrimFloat.div (cell_double a) (cell_double b).

Definition js_mul (x k : float) : float := PrimFloat.mul x k.

Definition js_ge (x k : float) : bool := PrimFloat.leb k x.

Module Double.
(** [originalAmount - splitAmount] as the two splits compute it, on the
    doubles of the two amounts. *)
Definition remainingAmount (originalAmount splitAmount : Q) : float :=
  PrimFloat.sub (cell_double originalAmount) (cell_double splitAmount).

End Double.

(** ** The sheet, and computations on it *)

Abbreviation store := (list movement).

Inductive error : Type :=
| DuplicateIdError (movementId : Z)
| ReferenceError (name : string)
| RangeError (message : string).

(** A method either returns a value or throws; in both cases the sheet is
    left in the state reached so far (nothing is rolled back). *)
Inductive outcome (A : Type) : Type :=
| Return (a : A) (s : store)
| Throw (e : error) (s : store).
Arguments Return {A} a s.
Arguments Throw {A} e s.

Definition M (A : Type) : Type := store → outcome A.

#[global] Instance M_ret : MRet M := λ A a s, Return a s.
#[global] Instance M_bind : MBind M := λ A B k c s,
  match c s with
  | Return a s' => k a s'
  | Throw e s' => Throw e s'
  end.

Definition throw {A : Type} (e : error) : M A := λ s, Throw e s.
Definition gets {A : Type} (f : store → A) : M A := λ s, Return (f s) s.

(** [l.forEach(f)]. *)
Fixpoint forEach {A : Type} (l : list A) (f : A → M unit) : M unit :=
  match l with
  | [] => mret tt
  | x :: l' => f x ;; forEach l' f
  end.

(** [try { c } catch (error) { h }]. *)
Definition try_catch {A : Type} (c : M A) (h : error → M A) : M A := λ s,
  match c s with
  | Return a s' => Return a s'
  | Throw e s' => h e s'
  end.

(** The sheet reached, however the computation ended. *)
Definition final_store {A : Type} (o : outcome A) : store :=
  match o with
  | Return _ s => s
  | Throw _ s => s
  end.

(** [this.sheet.getRange(i + 2, COLUMNS.X + 1).setValue(v)]. *)
Definition setValue {A : Type} (i : nat) (set_X : A → movement → movement)
    (v : A) : M unit :=
  λ s, Return tt (alter (set_X v) i s).

(** [this.sheet.appendRow(row)]. *)
Definition appendRow (movementRow : movement) : M unit :=
  λ s, Return tt (s ++ [movementRow]).

(** ** Database: identity and insertion *)

Definition getAllMovements (s : store) : list movement := s.

Definition idExists (id : Z) (s : store) : bool :=
  if (length s =? 0)%nat then false
  else existsb (λ row, (ID row =? id)%Z) s.

Definition getNextId (s : store) : Z :=
  if (length s =? 0)%nat then 1%Z
  else
    let maxId :=
      fold_left (λ maxId row,
        let id := ID row in
        if negb (id =? 0)%Z && (id >? maxId)%Z then id else maxId) s 0%Z in
    (maxId + 1)%Z.

Definition addMovement (movementRow : movement) : M unit :=
  movementId ← mret (ID movementRow);
  exists_ ← gets (idExists movementId);
  if (exists_ : bool) then throw (DuplicateIdError movementId)
  else appendRow movementRow.

(** [allMovements.findIndex(movement => movement[COLUMNS.ID] === movementId)],
    together with the row found; [None] is the code's [-1]. *)
Definition findIndex (movementId : Z) (allMovements : list movement)
    : option (nat * movement) :=
  list_find (λ movement, ID movement = movementId) allMovements.

(** ** Database: batch insertion *)

(** The [ts] of a batch item as the comparator sees it: absent (a falsy
    value), or a text with the result of [Date.parse] on it, [None] being
    the [NaN] of a text that is not a date. *)
Inductive ts_value : Type :=
| TsAbsent
| TsText (parsed : option Z).

(** An item of the batch: [{ts, row, ...}]; the source id it also carries
    is only logged. *)
Record batchItem : Type := mkBatchItem {
  ts : ts_value;
  row : movement
}.

(** [a.ts ? Date.parse(a.ts) : 0]. *)
Definition sortKey (a : batchItem) : option Z :=
  match ts a with
  | TsAbsent => Some 0%Z
  | TsText parsed => parsed
  end.

(** The comparator [(a, b) => ta - tb]; [None] is [NaN]. *)
Definition compareFn (a b : batchItem) : option Z :=
  match sortKey a, sortKey b with
  | Some ta, Some tb => Some (ta - tb)%Z
  | _, _ => None
  end.

(** [Array.prototype.sort] with a comparator: a stable sort, in which a
    [NaN] result of the comparator counts as zero.  For a comparator that
    is a consistent order this is the result of every conforming engine;
    the language leaves the order open otherwise. *)
Section ArraySort.
Context {A : Type} (comparefn : A → A → option Z).

Definition sortCompare (x y : A) : Z :=
  match comparefn x y with
  | Some v => v
  | None => 0%Z
  end.

Fixpoint sort_insert (x : A) (l : list A) : list A :=
  match l with
  | [] => [x]
  | y :: l' =>
      if (sortCompare x y <=? 0)%Z then x :: y :: l'
      else y :: sort_insert x l'
  end.

Definition Array_sort (l : list A) : list A := foldr sort_insert [] l.
End ArraySort.

Definition addMovementsBatch (movements : list batchItem) : M unit :=
  let sortedMovements := Array_sort compareFn movements in
  forEach sortedMovements (λ item, addMovement (row item)).

(** ** Database: queries *)

Definition getMovementsNeedingCategoryAnalysis (s : store) : list movement :=
  let allMovements := getAllMovements s in
  filter (λ movement,
    let hasUserDescription :=
      truthy (USER_DESCRIPTION movement)
      && negb (String.eqb (trim (USER_DESCRIPTION movement)) "") in
    let hasNoCategory :=
      negb (truthy (CATEGORY movement))
      || String.eqb (trim (CATEGORY movement)) "" in
    hasUserDescription && hasNoCategory = true) allMovements.

Definition getMovementsPendingDirectSettlement (s : store) : list movement :=
  let allMovements := getAllMovements s in
  filter (λ movement,
    String.eqb (TYPE movement) MOVEMENT_TYPES_DEBIT
    && String.eqb (STATUS movement) STATUS_PENDING_DIRECT_SETTLEMENT = true)
    allMovements.

(** ** Database: cell updates by id *)

Definition updateMovementCategory (movementId : Z) (category : string)
    : M unit :=
  allMovements ← gets getAllMovements;
  match findIndex movementId allMovements with
  | None => mret tt
  | Some (movementRowIndex, _) =>
      setValue movementRowIndex set_CATEGORY category
  end.

Definition updateMovementSettledId (movementId settledMovementId : Z)
    : M unit :=
  allMovements ← gets getAllMovements;
  match findIndex movementId allMovements with
  | None => mret tt
  | Some (movementRowIndex, _) =>
      setValue movementRowIndex set_SETTLED_MOVEMENT_ID
        (Some settledMovementId)
  end.

Definition updateMovementStatus (movementId : Z) (status : string)
    : M unit :=
  allMovements ← gets getAllMovements;
  match findIndex movementId allMovements with
  | None => mret tt
  | Some (movementRowIndex, _) =>
      setValue movementRowIndex set_STATUS status
  end.

Definition updateMovementWithSplitwiseInfo (movementId : Z)
    (splitwiseId : string) : M unit :=
  allMovements ← gets getAllMovements;
  match findIndex movementId allMovements with
  | None => mret tt
  | Some (movementRowIndex, _) =>
      setValue movementRowIndex set_ACCOUNTING_SYSTEM_ID splitwiseId ;;
      setValue movementRowIndex set_STATUS STATUS_IN_SPLITWISE
  end.

(** The outcome of the classifier, as [parseCategoryAnalysisResponse]
    hands it on.  A [null] text is the empty string; a [null]
    [split_amount] is [0], which is what the arithmetic of the splits
    makes of it. *)
Record analysisResult : Type := mkAnalysisResult {
  category : string;
  needs_split : bool;
  split_type : string;
  split_amount : Q;
  split_description : string;
  split_category : string;
  clean_description : string
}.

Definition updateMovementWithAnalysis (movementId : Z)
    (analysisResult : analysisResult) : M unit :=
  allMovements ← gets getAllMovements;
  match findIndex movementId allMovements with
  | None => mret tt
  | Some (movementRowIndex, _) =>
      setValue movementRowIndex set_CATEGORY (category analysisResult) ;;
      if negb (needs_split analysisResult)
         && truthy (clean_description analysisResult)
      then
        setValue movementRowIndex set_USER_DESCRIPTION
          (clean_description analysisResult) ;;
        setValue movementRowIndex set_COMMENT ""
      else mret tt
  end.

(** ** The currency conversion service *)

(** The interface of [CurrencyConversionService], as [Database] and
    [ExpenseTracker] call it.  [fixCurrencyConversion] answers [None] for
    the [null] of a repair that could not be made. *)
Class CurrencyConversionService : Type := {
  splitCurrencyValues : Q → Q → currencyValues → currencyValues;
  isFailedConversion : cvalue → bool;
  fixCurrencyConversion : Q → string → option currencyValues;
  getAllCurrencyValues : Q → string → currencyValues
}.

(** Modelled from the spec: the file of [CurrencyConversionService] is not
    among the sources.  [splitProportionally]: "for each reporting
    currency, partValues[c] = originalValues[c] * (partAmount /
    originalAmount)".  A value that is not a number stays one, and so does
    the result of a division by a zero original amount. *)
Definition scaleValue (originalAmount partAmount : Q) (v : cvalue) : cvalue :=
  match v with
  | CNum q =>
      if Qeq_bool originalAmount 0 then CFailed
      else CNum (q * (partAmount / originalAmount))
  | CFailed => CFailed
  end.

(** Modelled from the spec: [splitProportionally] on the three reporting
    currencies (see [scaleValue]). *)
Definition spec_splitCurrencyValues (originalAmount partAmount : Q)
    (originalValues : currencyValues) : currencyValues :=
  {| clpValue := scaleValue originalAmount partAmount (clpValue originalValues);
     usdValue := scaleValue originalAmount partAmount (usdValue originalValues);
     gbpValue := scaleValue originalAmount partAmount (gbpValue originalValues) |}.

(** Modelled from the spec: [isFailedConversion] "recognizes a
    sentinel/error value as an invalid conversion result". *)
Definition spec_isFailedConversion (v : cvalue) : bool :=
  match v with
  | CNum _ => false
  | CFailed => true
  end.

(** Modelled from the spec: [convert] is "a deterministic function of
    amount and currency at the current point in time; one of the three
    outputs equals amount unchanged when currency matches that reporting
    currency".  The rates of the moment are the table [rate]; a rate that
    cannot be had gives a failed value. *)
Definition spec_convert (rate : string → string → option Q) (amount : Q)
    (currency : string) : currencyValues :=
  let to target :=
    if String.eqb currency target then CNum amount
    else match rate currency target with
         | Some r => CNum (amount * r)
         | None => CFailed
         end in
  {| clpValue := to "CLP"%string;
     usdValue := to "USD"%string;
     gbpValue := to "GBP"%string |}.

(** Modelled from the spec: [repair] "re-attempts conversion [...];
    returns null if amount/currency are themselves invalid". *)
Definition spec_repair (rate : string → string → option Q) (amount : Q)
    (currency : string) : option currencyValues :=
  if Qeq_bool amount 0 || negb (truthy currency) then None
  else Some (spec_convert rate amount currency).

(** Modelled from the spec: the service as a whole, for the rates
    [rate]. *)
Definition specService (rate : string → string → option Q)
    : CurrencyConversionService :=
  {| splitCurrencyValues := spec_splitCurrencyValues;
     isFailedConversion := spec_isFailedConversion;
     fixCurrencyConversion := spec_repair rate;
     getAllCurrencyValues := spec_convert rate |}.

(** ** Database: the two splits and the repair pass *)

Module SplitInfo.
(** The [splitInfo] object the two splits receive. *)
Record t : Type := mk {
  split_amount : Q;
  split_category : string;
  split_description : string;
  clean_description : string
}.
End SplitInfo.

Section Database.
Context {currencyConversionService : CurrencyConversionService}.

Definition splitMovement (originalMovementId : Z) (splitInfo : SplitInfo.t)
    : M (option Z) :=
  allMovements ← gets getAllMovements;
  match findIndex originalMovementId allMovements with
  | None => mret None
  | Some (originalMovementIndex, originalMovement) =>
      nextId ← gets getNextId;
      let remainingAmount :=
        (AMOUNT originalMovement - SplitInfo.split_amount splitInfo)%Q in
      let originalCurrencyValues :=
        {| clpValue := CLP_VALUE originalMovement;
           usdValue := USD_VALUE originalMovement;
           gbpValue := GBP_VALUE originalMovement |} in
      let personalCurrencyValues :=
        splitCurrencyValues (AMOUNT originalMovement)
          (SplitInfo.split_amount splitInfo) originalCurrencyValues in
      let sharedCurrencyValues :=
        splitCurrencyValues (AMOUNT originalMovement) remainingAmount
          originalCurrencyValues in
      let i := originalMovementIndex in
      setValue i set_AMOUNT (SplitInfo.split_amount splitInfo) ;;
      setValue i set_CATEGORY (SplitInfo.split_category splitInfo) ;;
      setValue i set_USER_DESCRIPTION
        (SplitInfo.clean_description splitInfo) ;;
      setValue i set_COMMENT "" ;;
      setValue i set_AI_COMMENT ("Split into #" +:+ pretty nextId) ;;
      setValue i set_ORIGINAL_AMOUNT (Some (AMOUNT originalMovement)) ;;
      setValue i set_CLP_VALUE (clpValue personalCurrencyValues) ;;
      setValue i set_USD_VALUE (usdValue personalCurrencyValues) ;;
      setValue i set_GBP_VALUE (gbpValue personalCurrencyValues) ;;
      let sharedMovement :=
        set_GBP_VALUE (gbpValue sharedCurrencyValues)
        (set_USD_VALUE (usdValue sharedCurrencyValues)
        (set_CLP_VALUE (clpValue sharedCurrencyValues)
        (set_ORIGINAL_AMOUNT (Some (AMOUNT originalMovement))
        (set_AI_COMMENT ("Split from #" +:+ pretty originalMovementId)
        (set_COMMENT ""
        (set_STATUS STATUS_PENDING_DIRECT_SETTLEMENT
        (set_TYPE MOVEMENT_TYPES_DEBIT
        (set_DIRECTION DIRECTIONS_NEUTRAL
        (set_USER_DESCRIPTION (SplitInfo.split_description splitInfo)
        (set_CATEGORY (SplitInfo.split_category splitInfo)
        (set_AMOUNT remainingAmount
        (set_ID nextId originalMovement)))))))))))) in
      addMovement sharedMovement ;;
      mret (Some nextId)
  end.

Definition splitExpenseForRecategorization (originalMovementId : Z)
    (splitInfo : SplitInfo.t) : M (option Z) :=
  allMovements ← gets getAllMovements;
  match findIndex originalMovementId allMovements with
  | None => mret None
  | Some (originalMovementIndex, originalMovement) =>
      nextId ← gets getNextId;
      let originalAmount := AMOUNT originalMovement in
      let splitAmount := SplitInfo.split_amount splitInfo in
      if Qle_bool originalAmount splitAmount || Qle_bool splitAmount 0
      then mret None
      else
        let remainingAmount := (originalAmount - splitAmount)%Q in
        let originalCurrencyValues :=
          {| clpValue := CLP_VALUE originalMovement;
             usdValue := USD_VALUE originalMovement;
             gbpValue := GBP_VALUE originalMovement |} in
        let remainingCurrencyValues :=
          splitCurrencyValues originalAmount remainingAmount
            originalCurrencyValues in
        let splitCurrencyValues_ :=
          splitCurrencyValues originalAmount splitAmount
            originalCurrencyValues in
        let i := originalMovementIndex in
        setValue i set_AMOUNT remainingAmount ;;
        setValue i set_USER_DESCRIPTION
          (or_else (SplitInfo.clean_description splitInfo)
             (USER_DESCRIPTION originalMovement)) ;;
        setValue i set_CATEGORY "" ;;
        setValue i set_COMMENT "" ;;
        setValue i set_AI_COMMENT ("Split into #" +:+ pretty nextId) ;;
        setValue i set_ORIGINAL_AMOUNT (Some originalAmount) ;;
        setValue i set_CLP_VALUE (clpValue remainingCurrencyValues) ;;
        setValue i set_USD_VALUE (usdValue remainingCurrencyValues) ;;
        setValue i set_GBP_VALUE (gbpValue remainingCurrencyValues) ;;
        let newMovement :=
          set_GBP_VALUE (gbpValue splitCurrencyValues_)
          (set_USD_VALUE (usdValue splitCurrencyValues_)
          (set_CLP_VALUE (clpValue splitCurrencyValues_)
          (set_ORIGINAL_AMOUNT (Some originalAmount)
          (set_AI_COMMENT ("Split from #" +:+ pretty originalMovementId)
          (set_COMMENT ""
          (set_CATEGORY ""
          (set_USER_DESCRIPTION (SplitInfo.split_description splitInfo)
          (set_AMOUNT splitAmount
          (set_ID nextId originalMovement))))))))) in
        addMovement newMovement ;;
        mret (Some nextId)
  end.

Definition getMovementsWithFailedCurrencyConversion (s : store)
    : list movement :=
  let allMovements := getAllMovements s in
  filter (λ movement,
    let clpValue := CLP_VALUE movement in
    let usdValue := USD_VALUE movement in
    let gbpValue := GBP_VALUE movement in
    isFailedConversion clpValue || isFailedConversion usdValue
    || isFailedConversion gbpValue = true) allMovements.

(** After the row is found, the method never computes the sheet row
    index: the name [sheetRowIndex] its three writes use is declared
    nowhere in it, and reading it throws.  An amount is a number here,
    so of [!amount || isNaN(amount)] the test for zero is what is left. *)
Definition fixMovementCurrencyConversion (movementId : Z) : M bool :=
  allMovements ← gets getAllMovements;
  match findIndex movementId allMovements with
  | None => mret false
  | Some (movementRowIndex, movement) =>
      let amount := AMOUNT movement in
      let currency := CURRENCY movement in
      if Qeq_bool amount 0 || negb (truthy currency) then mret false
      else
        match fixCurrencyConversion amount currency with
        | None => mret false
        | Some currencyValues =>
            if negb (truthy_cvalue (clpValue currencyValues))
               && negb (truthy_cvalue (usdValue currencyValues))
               && negb (truthy_cvalue (gbpValue currencyValues))
            then mret false
            else
              sheetRowIndex ← throw (A:=nat) (ReferenceError "sheetRowIndex");
              setValue sheetRowIndex set_CLP_VALUE
                (clpValue currencyValues) ;;
              setValue sheetRowIndex set_USD_VALUE
                (usdValue currencyValues) ;;
              setValue sheetRowIndex set_GBP_VALUE
                (gbpValue currencyValues) ;;
              mret true
        end
  end.

(** The counters of the repair pass: [{successCount, failureCount}]. *)
Record fixCounts : Type := mkFixCounts {
  successCount : nat;
  failureCount : nat
}.

Fixpoint fixEach (failedMovements : list movement) (counts : fixCounts)
    : M fixCounts :=
  match failedMovements with
  | [] => mret counts
  | movement :: rest =>
      let movementId := ID movement in
      fixed ← fixMovementCurrencyConversion movementId;
      if (fixed : bool)
      then fixEach rest
             (mkFixCounts (S (successCount counts)) (failureCount counts))
      else fixEach rest
             (mkFixCounts (successCount counts) (S (failureCount counts)))
  end.

Definition fixAllFailedCurrencyConversions : M fixCounts :=
  failedMovements ← gets getMovementsWithFailedCurrencyConversion;
  fixEach failedMovements (mkFixCounts 0 0).
End Database.

(** ** ExpenseTracker: classification, splits and settlement *)

(** What [processUncategorizedMovements] tells the classifier about a
    movement, next to its description. *)
Record movementData : Type := mkMovementData {
  md_amount : Q;
  md_currency : string;
  md_sourceDescription : string;
  md_type : string;
  md_direction : string
}.

(** What [processDebitRepaymentSettlement] tells the matcher about the
    repayment. *)
Record repaymentData : Type := mkRepaymentData {
  rd_amount : Q;
  rd_currency : string;
  rd_userDescription : string;
  rd_comment : string;
  rd_timestamp : option Z
}.

(** One call of the matcher: the repayment submitted, by id and row. *)
Record matcherCall : Type := mkMatcherCall {
  call_repaymentMovementId : Z;
  call_repaymentMovement : movement;
  call_pendingDebits : list movement
}.

(** [[userDescription, comment].filter(Boolean).join(' ')]. *)
Definition fullDescription (userDescription comment : string) : string :=
  match truthy userDescription, truthy comment with
  | true, true => userDescription +:+ " " +:+ comment
  | true, false => userDescription
  | false, true => comment
  | false, false => ""
  end.

Section ExpenseTracker.
Context {currencyConversionService : CurrencyConversionService}.

(** The two modes of [GoogleAIStudioService] the tracker calls.  Both
    answer [None] for [null]: a failed request, an answer that does not
    parse, or one that [parseCategoryAnalysisResponse] rejects. *)
Variable analyzeCategory : string → movementData → option analysisResult.
Variable matchDebitRepayment : repaymentData → list movement → option Z.

(** The methods of [ExpenseTracker] return nothing.  Here the two below
    return the calls they made to the matcher, in order, so that
    statements can speak of them. *)
Definition processDebitRepaymentSettlement (repaymentMovementId : Z)
    (repaymentMovement : movement) : M (list matcherCall) :=
  try_catch
    (pendingDebits ← gets getMovementsPendingDirectSettlement;
     if (length pendingDebits =? 0)%nat then mret []
     else
       let repaymentData :=
         {| rd_amount := AMOUNT repaymentMovement;
            rd_currency := CURRENCY repaymentMovement;
            rd_userDescription := USER_DESCRIPTION repaymentMovement;
            rd_comment := COMMENT repaymentMovement;
            rd_timestamp := TIMESTAMP repaymentMovement |} in
       let matchedDebitId := matchDebitRepayment repaymentData pendingDebits in
       match matchedDebitId with
       | Some matchedDebitId =>
           if (matchedDebitId =? 0)%Z then mret tt
           else
             match List.find (λ debit, (ID debit =? matchedDebitId)%Z)
                     pendingDebits with
             | Some matchedDebit =>
                 let debitAmount := AMOUNT matchedDebit in
                 let repaymentAmount := AMOUNT repaymentMovement in
                 let repaymentPercentage :=
                   js_mul (js_div repaymentAmount debitAmount) 100 in
                 updateMovementSettledId repaymentMovementId matchedDebitId ;;
                 if js_ge repaymentPercentage 95 then
                   updateMovementStatus matchedDebitId STATUS_SETTLED
                 else if js_ge repaymentPercentage 50 then mret tt
                 else mret tt
             | None => mret tt
             end
       | None => mret tt
       end ;;
       mret [mkMatcherCall repaymentMovementId repaymentMovement
               pendingDebits])
    (λ _, mret []).

(** The body of the loop of [processUncategorizedMovements] for one
    movement of the list read at the start of the run.  The three
    counters of the loop only feed the log and are left out. *)
Definition analyzeMovement (movement : movement) : M (list matcherCall) :=
  try_catch
    (let movementId := ID movement in
     let userDescription := USER_DESCRIPTION movement in
     let comment := COMMENT movement in
     let movementData :=
       {| md_amount := AMOUNT movement;
          md_currency := CURRENCY movement;
          md_sourceDescription := SOURCE_DESCRIPTION movement;
          md_type := TYPE movement;
          md_direction := DIRECTION movement |} in
     match analyzeCategory (fullDescription userDescription comment)
             movementData with
     | Some analysisResult =>
         (if needs_split analysisResult
             && String.eqb (split_type analysisResult) "EXPENSE"
          then
            let splitInfo :=
              SplitInfo.mk (split_amount analysisResult) ""
                (split_description analysisResult)
                (clean_description analysisResult) in
            splitExpenseForRecategorization movementId splitInfo ;;
            mret tt
          else
            updateMovementWithAnalysis movementId analysisResult ;;
            if needs_split analysisResult then
              let splitInfo :=
                SplitInfo.mk (split_amount analysisResult)
                  (split_category analysisResult)
                  (split_description analysisResult)
                  (clean_description analysisResult) in
              splitMovement movementId splitInfo ;;
              mret tt
            else mret tt) ;;
         if String.eqb (TYPE movement) MOVEMENT_TYPES_DEBIT_REPAYMENT
         then processDebitRepaymentSettlement movementId movement
         else mret []
     | None => mret []
     end)
    (λ _, mret []).

Fixpoint analyzeEach (uncategorizedMovements : list movement)
    : M (list matcherCall) :=
  match uncategorizedMovements with
  | [] => mret []
  | movement :: rest =>
      calls ← analyzeMovement movement;
      calls' ← analyzeEach rest;
      mret (calls ++ calls')
  end.

Definition processUncategorizedMovements : M (list matcherCall) :=
  uncategorizedMovements ← gets getMovementsNeedingCategoryAnalysis;
  if (length uncategorizedMovements =? 0)%nat then mret []
  else analyzeEach uncategorizedMovements.
End ExpenseTracker.

(** ** Idempotency keys *)

(** [getExistingSourceIds(source)]; [None] is the default [null]. *)
Definition getExistingSourceIds (source : option string) (s : store)
    : gset string :=
  if (length s =? 0)%nat then ∅
  else
    match source with
    | Some source' =>
        if truthy source' then
          let allMovements := getAllMovements s in
          list_to_set
            (SOURCE_ID <$>
               filter (λ movement,
                 String.eqb (SOURCE movement) source'
                 && truthy (SOURCE_ID movement) = true) allMovements)
        else list_to_set (filter (λ v, truthy v = true) (SOURCE_ID <$> s))
    | None => list_to_set (filter (λ v, truthy v = true) (SOURCE_ID <$> s))
    end.

(** [getExistingAccountingSystemIds()]; the cell holds the text of the
    id, so [toString] changes nothing. *)
Definition getExistingAccountingSystemIds (s : store) : gset string :=
  if (length s =? 0)%nat then ∅
  else
    list_to_set
      (filter (λ v, truthy v = true) (ACCOUNTING_SYSTEM_ID <$> s)).

(** ** ExpenseTracker: ingestion *)

(** A transaction as the Monzo client returns it.  The pipeline itself
    reads [id], [settled] and [created]; [details] stands for the rest,
    which only the client's converter reads. *)
Record monzoTransaction : Type := mkMonzoTransaction {
  id : string;
  settled : ts_value;
  created : ts_value;
  details : string
}.

(** A movement as the Splitwise client returns it.  [paidBy] and [owedBy]
    are [None] when the property is undefined. *)
Record splitwiseMovement : Type := mkSplitwiseMovement {
  splitwiseId : string;
  date : ts_value;
  amount : Q;
  currency : string;
  description : string;
  sw_category : string;
  paidBy : option string;
  owedBy : option string
}.

(** [a || b] on the two timestamps of a transaction. *)
Definition ts_or_else (a b : ts_value) : ts_value :=
  match a with
  | TsAbsent => b
  | TsText _ => a
  end.

Section Ingestion.
Context {currencyConversionService : CurrencyConversionService}.

(** [monzoService.convertTransactionToMovement(transaction, nextId)],
    whose file is not among the sources: [None] for [null] or a thrown
    error; otherwise the movement object, read here through the fields
    of a row ([timestamp] already as the [Date] made from it, [sourceId]
    in [SOURCE_ID], and so on).  Its currency values and source are not
    read. *)
Variable convertTransactionToMovement :
  monzoTransaction → Z → option movement.

Definition createMonzoMovementRow (transaction : monzoTransaction)
    (nextId : Z) : option movement :=
  match convertTransactionToMovement transaction nextId with
  | None => None
  | Some movement =>
      let currencyValues :=
        getAllCurrencyValues (AMOUNT movement) (CURRENCY movement) in
      Some (mkMovement (TIMESTAMP movement) (DIRECTION movement)
              (TYPE movement) (AMOUNT movement) (CURRENCY movement)
              (SOURCE_DESCRIPTION movement) (USER_DESCRIPTION movement)
              (COMMENT movement) (AI_COMMENT movement) (CATEGORY movement)
              (STATUS movement) (SETTLED_MOVEMENT_ID movement)
              (clpValue currencyValues) (usdValue currencyValues)
              (gbpValue currencyValues) (ORIGINAL_AMOUNT movement)
              (ID movement) SOURCES_MONZO (SOURCE_ID movement)
              (ACCOUNTING_SYSTEM_ID movement))
  end.

(** The loop that fills [batchMovements], [nextId] counting up with
    every row made. *)
Fixpoint monzoBatch (newTransactions : list monzoTransaction) (nextId : Z)
    : list batchItem :=
  match newTransactions with
  | [] => []
  | transaction :: rest =>
      match createMonzoMovementRow transaction nextId with
      | Some movementRow =>
          mkBatchItem (ts_or_else (settled transaction) (created transaction))
            movementRow
          :: monzoBatch rest (nextId + 1)%Z
      | None => monzoBatch rest nextId
      end
  end.

(** [connectionTest] is the answer of [monzoService.testConnection()],
    [transactions] that of [monzoService.getRecentTransactions()]. *)
Definition processMonzoTransactions (connectionTest : bool)
    (transactions : list monzoTransaction) : M unit :=
  try_catch
    (if negb connectionTest then mret tt
     else
       existingMonzoIds ← gets (getExistingSourceIds (Some SOURCES_MONZO));
       if (length transactions =? 0)%nat then mret tt
       else
         let newTransactions :=
           filter (λ transaction, id transaction ∉ existingMonzoIds)
             transactions in
         if (length newTransactions =? 0)%nat then mret tt
         else
           nextId ← gets getNextId;
           let batchMovements := monzoBatch newTransactions nextId in
           if (0 <? length batchMovements)%nat
           then addMovementsBatch batchMovements
           else mret tt)
    (λ error, throw error).

(** [new Date(d).toISOString()] throws on an invalid date; the row then
    stores [new Date] of that text. *)
Definition createSplitwiseMovementRow (splitwiseMovement : splitwiseMovement)
    (nextId : Z) : M movement :=
  match date splitwiseMovement with
  | TsText (Some timestamp) =>
      let isCreditMovement := bool_decide (paidBy splitwiseMovement ≠ None) in
      let isDebitMovement := bool_decide (owedBy splitwiseMovement ≠ None) in
      let '(direction, type) :=
        if isCreditMovement then (DIRECTIONS_OUTFLOW, MOVEMENT_TYPES_CREDIT)
        else if isDebitMovement
             then (DIRECTIONS_NEUTRAL, MOVEMENT_TYPES_DEBIT_REPAYMENT)
             else (DIRECTIONS_OUTFLOW, MOVEMENT_TYPES_EXPENSE) in
      let currencyValues :=
        getAllCurrencyValues (amount splitwiseMovement)
          (currency splitwiseMovement) in
      mret (mkMovement (Some timestamp) direction type
              (amount splitwiseMovement) (currency splitwiseMovement)
              (description splitwiseMovement) "" "" ""
              (sw_category splitwiseMovement) "" None
              (clpValue currencyValues) (usdValue currencyValues)
              (gbpValue currencyValues) None nextId SOURCES_SPLITWISE ""
              (splitwiseId splitwiseMovement))
  | _ => throw (RangeError "Invalid time value")
  end.

Fixpoint splitwiseBatch (newMovements : list splitwiseMovement) (nextId : Z)
    : M (list batchItem) :=
  match newMovements with
  | [] => mret []
  | movement :: rest =>
      movementRow ← createSplitwiseMovementRow movement nextId;
      batch ← splitwiseBatch rest (nextId + 1)%Z;
      mret (mkBatchItem (date movement) movementRow :: batch)
  end.

(** [connectionTest] is the answer of [splitwiseService.testConnection()],
    the two lists those of [getCreditMovements()] and
    [getDebitMovements()]. *)
Definition processSplitwiseMovements (connectionTest : bool)
    (creditMovements debitMovements : list splitwiseMovement) : M unit :=
  try_catch
    (if negb connectionTest then mret tt
     else
       existingAccountingSystemIds ← gets getExistingAccountingSystemIds;
       let allMovements := creditMovements ++ debitMovements in
       if (length allMovements =? 0)%nat then mret tt
       else
         let newMovements :=
           filter (λ movement,
             splitwiseId movement ∉ existingAccountingSystemIds)
             allMovements in
         if (length newMovements =? 0)%nat then mret tt
         else
           nextId ← gets getNextId;
           batchMovements ← splitwiseBatch newMovements nextId;
           if (0 <? length batchMovements)%nat
           then addMovementsBatch batchMovements
           else mret tt)
    (λ error, throw error).
End Ingestion.

(** * Properties of ledgers *)

(** The largest id of the sheet, counting from zero. *)
Definition max_id (s : store) : Z := foldr Z.max 0%Z (ID <$> s).

(** No two rows carry the same id. *)
Definition unique_ids (s : store) : Prop := NoDup (ID <$> s).

(** One operation that assigns an id, with the id assigned and the sheet
    it leaves: the insert of a row that carries the id [getNextId] gave,
    or one of the two splits. *)
Inductive assigns `{CurrencyConversionService} : store → Z → store → Prop :=
| assigns_insert (s : store) (movementRow : movement) :
    ID movementRow = getNextId s →
    assigns s (getNextId s) (final_store (addMovement movementRow s))
| assigns_splitMovement (s s' : store) (originalMovementId nextId : Z)
    (splitInfo : SplitInfo.t) :
    splitMovement originalMovementId splitInfo s = Return (Some nextId) s' →
    assigns s nextId s'
| assigns_splitExpense (s s' : store) (originalMovementId nextId : Z)
    (splitInfo : SplitInfo.t) :
    splitExpenseForRecategorization originalMovementId splitInfo s
      = Return (Some nextId) s' →
    assigns s nextId s'.

(** A run of the store: operations that assign ids, in order, between
    updates of cells that leave the id column as it is. *)
Inductive assigned `{CurrencyConversionService}
    : store → list Z → store → Prop :=
| assigned_nil (s : store) : assigned s [] s
| assigned_update (s s' s'' : store) (ids : list Z) :
    ID <$> s' = ID <$> s →
    assigned s' ids s'' →
    assigned s ids s''
| assigned_cons (s s' s'' : store) (nextId : Z) (ids : list Z) :
    assigns s nextId s' →
    assigned s' ids s'' →
    assigned s (nextId :: ids) s''.

(** ** Sample data *)

(** A card payment of [amount] US dollars, read from an email, with the
    description the user gave it. *)
Definition sampleMovement (id : Z) (amount : Q) : movement :=
  {| TIMESTAMP := Some 1700000000000%Z;
     DIRECTION := DIRECTIONS_OUTFLOW;
     TYPE := MOVEMENT_TYPES_EXPENSE;
     AMOUNT := amount;
     CURRENCY := "USD";
     SOURCE_DESCRIPTION := "CARD PAYMENT";
     USER_DESCRIPTION := "Dinner with friends";
     COMMENT := "";
     AI_COMMENT := "";
     CATEGORY := "";
     STATUS := "";
     SETTLED_MOVEMENT_ID := None;
     CLP_VALUE := CNum (amount * 900);
     USD_VALUE := CNum amount;
     GBP_VALUE := CNum (amount * (4 # 5));
     ORIGINAL_AMOUNT := None;
     ID := id;
     SOURCE := SOURCES_GMAIL;
     SOURCE_ID := "msg-" +:+ pretty id;
     ACCOUNTING_SYSTEM_ID := "" |}.

(** A movement whose conversion to Chilean pesos failed. *)
Definition failedMovement (id : Z) (amount : Q) : movement :=
  set_CLP_VALUE CFailed (sampleMovement id amount).

(** Rates of a day on which every conversion succeeds. *)
Definition sampleRate (from to : string) : option Q := Some (3 # 2).

Definition sampleService : CurrencyConversionService :=
  specService sampleRate.

(** ** Splits *)


(** The classifier's answer for a dinner of 50 of which 60 would be the
    user's own part. *)
Definition oversizedSplit : SplitInfo.t :=
  SplitInfo.mk 60 "restaurants" "Dinner with friends (shared part)"
    "Dinner with friends (my part)".

(** The classifier's answer for a dinner of 100 of which 30 are the
    user's own part. *)
Definition dinnerSplit : SplitInfo.t :=
  SplitInfo.mk 30 "restaurants" "Dinner with friends (shared part)"
    "Dinner with friends (my part)".

(** ** Well-formed amounts and currencies *)

(** The amount of the row is not negative and its currency is set. *)
Definition valid_movement (m : movement) : Prop :=
  (0 <= AMOUNT m)%Q ∧ truthy (CURRENCY m) = true.

(** ** Settlement *)

(** The row is one of the debits awaiting direct settlement. *)
Definition pending_debit (m : movement) : Prop :=
  TYPE m = MOVEMENT_TYPES_DEBIT ∧ STATUS m = STATUS_PENDING_DIRECT_SETTLEMENT.

(** What the tracker tells the matcher about a repayment row. *)
Definition repaymentDataOf (repaymentMovement : movement) : repaymentData :=
  {| rd_amount := AMOUNT repaymentMovement;
     rd_currency := CURRENCY repaymentMovement;
     rd_userDescription := USER_DESCRIPTION repaymentMovement;
     rd_comment := COMMENT repaymentMovement;
     rd_timestamp := TIMESTAMP repaymentMovement |}.

(** A debit of 100 US dollars awaiting direct settlement, and a repayment
    of [amount]. *)
Definition sampleDebit (id : Z) : movement :=
  set_STATUS STATUS_PENDING_DIRECT_SETTLEMENT
    (set_TYPE MOVEMENT_TYPES_DEBIT (sampleMovement id 100)).

Definition sampleRepayment (id : Z) (amount : Q) : movement :=
  set_TYPE MOVEMENT_TYPES_DEBIT_REPAYMENT (sampleMovement id amount).

(** A matcher that answers the debit 1 whatever it is asked. *)
Definition sampleMatcher (repayment : repaymentData)
    (pendingDebits : list movement) : option Z := Some 1%Z.

(** The double of 1.9, by its value. *)
Definition double_1_9 : Q := 8556839292003942 # 4503599627370496.

(** ** Batches *)

(** The key the comparator gives an item whose timestamp is absent or
    parses; an item whose timestamp does not parse has none. *)
Definition keyOf (a : batchItem) : Z := default 0%Z (sortKey a).

(** Every timestamp of the batch is absent or parses. *)
Definition parsable (movements : list batchItem) : Prop :=
  Forall (λ a, is_Some (sortKey a)) movements.

(** A movement of the batch with its timestamp. *)
Definition sampleItem (t : ts_value) (id : Z) : batchItem :=
  mkBatchItem t (sampleMovement id 50).

(** ** Classification *)

(** The movement has a description by the user and no category: the
    condition of [getMovementsNeedingCategoryAnalysis]. *)
Definition needs_category_analysis (m : movement) : Prop :=
  (truthy (USER_DESCRIPTION m) = true ∧ trim (USER_DESCRIPTION m) ≠ "")
  ∧ (truthy (CATEGORY m) = false ∨ trim (CATEGORY m) = "").

(** What the tracker tells the classifier about a row. *)
Definition movementDataOf (movement : movement) : movementData :=
  {| md_amount := AMOUNT movement;
     md_currency := CURRENCY movement;
     md_sourceDescription := SOURCE_DESCRIPTION movement;
     md_type := TYPE movement;
     md_direction := DIRECTION movement |}.

(** ** Ingestion *)

(** The rows of the sheet that came from [source] under the key
    [sourceId]. *)
Definition movementsWithSourceId (source sourceId : string) (s : store)
    : list movement :=
  filter (λ m, SOURCE m = source ∧ SOURCE_ID m = sourceId) s.

(** The rows of the sheet under the accounting system id [key]. *)
Definition movementsWithAccountingSystemId (key : string) (s : store)
    : list movement :=
  filter (λ m, ACCOUNTING_SYSTEM_ID m = key) s.

(** The date of the Splitwise movement is a valid one. *)
Definition has_date (movement : splitwiseMovement) : Prop :=
  ∃ timestamp, date movement = TsText (Some timestamp).

(** The ids of the rows of a batch, in order. *)
Definition batchIds (batchMovements : list batchItem) : list Z :=
  (λ item, ID (row item)) <$> batchMovements.

(** The client can convert the transaction. *)
Definition converts
    (convertTransactionToMovement : monzoTransaction → Z → option movement)
    (transaction : monzoTransaction) : Prop :=
  is_Some (convertTransactionToMovement transaction 0%Z).

#[global] Instance converts_dec
    (convertTransactionToMovement : monzoTransaction → Z → option movement)
    (transaction : monzoTransaction) :
  Decision (converts convertTransactionToMovement transaction).
Proof. unfold converts. apply _. Defined.

(** A Monzo client that converts a transaction into a card payment of 50
    pounds under the id it is offered, keyed by the id of the
    transaction, and that cannot convert a transaction without
    details. *)
Definition sampleConvert (transaction : monzoTransaction) (nextId : Z)
    : option movement :=
  if truthy (details transaction)
  then Some (mkMovement (Some 1700000000000%Z) DIRECTIONS_OUTFLOW
               MOVEMENT_TYPES_EXPENSE 50 "GBP" (details transaction) "" ""
               "" "" "" None CFailed CFailed CFailed None nextId ""
               (id transaction) "")
  else None.

Definition sampleTransaction (key : string) : monzoTransaction :=
  {| id := key;
     settled := TsAbsent;
     created := TsText (Some 1700000000000%Z);
     details := "COFFEE SHOP" |}.

Definition sampleSplitwiseMovement (key : string) : splitwiseMovement :=
  {| splitwiseId := key;
     date := TsText (Some 1700000000000%Z);
     amount := 12;
     currency := "USD";
     description := "Groceries";
     sw_category := "";
     paidBy := Some "Ana";
     owedBy := None |}.

(** * More of the store and of the tracker *)

(** ** Database: the remaining queries *)

(** [getExistingGmailIds()]. *)
Definition getExistingGmailIds (s : store) : gset string :=
  getExistingSourceIds (Some SOURCES_GMAIL) s.

Definition getMovementsPendingSplitwiseSettlement (s : store)
    : list movement :=
  let allMovements := getAllMovements s in
  filter (λ movement,
    String.eqb (STATUS movement) STATUS_PENDING_SPLITWISE_SETTLEMENT = true)
    allMovements.

(** ** What an operation leaves alone *)

(** The operation always returns and changes neither the number of rows
    nor the id, the amount, the currency or the type of any row. *)
Definition keeps_columns {A : Type} (c : M A) : Prop :=
  ∀ s, ∃ a s',
    c s = Return a s'
    ∧ ID <$> s' = ID <$> s
    ∧ AMOUNT <$> s' = AMOUNT <$> s
    ∧ CURRENCY <$> s' = CURRENCY <$> s
    ∧ TYPE <$> s' = TYPE <$> s.

(** ** ExpenseTracker: bank emails *)

(** A message as [GmailService] hands it over. *)
Record gmailMessage : Type := mkGmailMessage {
  getId : string;
  getPlainBody : string
}.

(** The transaction [parseEmailWithGoogleAIStudio] returns.  Its
    [timestamp] is a text; its amount is given by its value. *)
Module Transaction.
Record t : Type := mk {
  gmailId : string;
  timestamp : ts_value;
  amount : Q;
  currency : string;
  sourceDescription : string;
  transactionType : string
}.
End Transaction.

(** [new Date(ts)] for the timestamp of a transaction: the date the text
    parses to, [None] being the invalid date. *)
Definition newDate (ts : ts_value) : option Z :=
  match ts with
  | TsAbsent => None
  | TsText parsed => parsed
  end.

Definition getDirectionForTransactionType (transactionType : string)
    : string :=
  if String.eqb transactionType MOVEMENT_TYPES_EXPENSE
     || String.eqb transactionType MOVEMENT_TYPES_CASH
     || String.eqb transactionType MOVEMENT_TYPES_DEBIT
  then DIRECTIONS_OUTFLOW
  else if String.eqb transactionType MOVEMENT_TYPES_CREDIT
  then DIRECTIONS_INFLOW
  else if String.eqb transactionType MOVEMENT_TYPES_DEBIT_REPAYMENT
  then DIRECTIONS_NEUTRAL
  else DIRECTIONS_OUTFLOW.

Definition getStatusForTransactionType (transactionType : string)
    : string :=
  if String.eqb transactionType MOVEMENT_TYPES_DEBIT
     || String.eqb transactionType MOVEMENT_TYPES_CREDIT
  then STATUS_PENDING_DIRECT_SETTLEMENT
  else if String.eqb transactionType MOVEMENT_TYPES_DEBIT_REPAYMENT
  then ""
  else "".

Section BankEmails.
Context {currencyConversionService : CurrencyConversionService}.

(** [gmailService.getUnprocessedMessages(existingGmailIds)], whose file
    is not among the sources, and
    [googleAIStudioService.parseEmailWithGoogleAIStudio(emailBody,
    gmailId)], which answers [None] for [null]. *)
Variable getUnprocessedMessages : gset string → list gmailMessage.
Variable parseEmailWithGoogleAIStudio :
  string → string → option Transaction.t.

Definition createMovementRow (transaction : Transaction.t) (nextId : Z)
    : movement :=
  let direction :=
    getDirectionForTransactionType (Transaction.transactionType transaction) in
  let status :=
    getStatusForTransactionType (Transaction.transactionType transaction) in
  let currencyValues :=
    getAllCurrencyValues (Transaction.amount transaction)
      (Transaction.currency transaction) in
  mkMovement (newDate (Transaction.timestamp transaction)) direction
    (Transaction.transactionType transaction)
    (Transaction.amount transaction) (Transaction.currency transaction)
    (Transaction.sourceDescription transaction) "" "" "" "" status None
    (clpValue currencyValues) (usdValue currencyValues)
    (gbpValue currencyValues) None nextId SOURCES_GMAIL
    (Transaction.gmailId transaction) "".

(** The loop that fills [batchMovements], [nextId] counting up with
    every row made. *)
Fixpoint emailBatch (unprocessedMessages : list gmailMessage) (nextId : Z)
    : list batchItem :=
  match unprocessedMessages with
  | [] => []
  | message :: rest =>
      let gmailId := getId message in
      let emailBody := getPlainBody message in
      match parseEmailWithGoogleAIStudio emailBody gmailId with
      | Some transaction =>
          let movementRow := createMovementRow transaction nextId in
          mkBatchItem (Transaction.timestamp transaction) movementRow
          :: emailBatch rest (nextId + 1)%Z
      | None => emailBatch rest nextId
      end
  end.

Definition processBankEmails : M unit :=
  try_catch
    (existingGmailIds ← gets getExistingGmailIds;
     let unprocessedMessages := getUnprocessedMessages existingGmailIds in
     if (length unprocessedMessages =? 0)%nat then mret tt
     else
       nextId ← gets getNextId;
       let batchMovements := emailBatch unprocessedMessages nextId in
       if (0 <? length batchMovements)%nat
       then addMovementsBatch batchMovements
       else mret tt)
    (λ error, throw error).
End BankEmails.

(** The parser reads a transaction from the message. *)
Abbreviation parses parseEmailWithGoogleAIStudio message :=
  (is_Some (parseEmailWithGoogleAIStudio (getPlainBody message)
              (getId message))).

(** A mailbox of two bank emails, of which the second is no notice of a
    payment; a client that returns the messages of the mailbox whose
    ids it is not handed; and a parser that reads a card payment of
    12.50 US dollars from a notice. *)
Definition sampleMailbox : list gmailMessage :=
  [mkGmailMessage "msg-a" "You paid 12.50 USD at CAFE";
   mkGmailMessage "msg-b" ""].

Definition sampleGetUnprocessedMessages (existingGmailIds : gset string)
    : list gmailMessage :=
  filter (λ message, getId message ∉ existingGmailIds) sampleMailbox.

Definition sampleParseEmail (emailBody gmailId : string)
    : option Transaction.t :=
  if truthy emailBody
  then Some (Transaction.mk gmailId (TsText (Some 1700000000000%Z))
               (25 # 2) "USD" emailBody MOVEMENT_TYPES_EXPENSE)
  else None.

(** ** ExpenseTracker: upload to Splitwise *)

(** The expense [pushToSplitwise] asks Splitwise to create; its group is
    always [null] and its other users always none. *)
Record expenseData : Type := mkExpenseData {
  expense_amount : Q;
  expense_personalAmount : Q;
  expense_currency : string;
  expense_description : string;
  expense_date : string
}.

(** [text.split('T')[0]]: the text before the first [T]. *)
Fixpoint beforeT (text : string) : string :=
  match text with
  | EmptyString => EmptyString
  | String a rest =>
      if Ascii.eqb a "T" then EmptyString else String a (beforeT rest)
  end.

(** [a === b] on the timestamp cells of two rows that come from two
    reads of the sheet.  The date of a cell is read as an object, and an
    object is identical to itself only; each read makes its own.  Two
    empty cells are the same empty text. *)
Definition sameTimestamp (a b : option Z) : bool :=
  match a, b with
  | None, None => true
  | _, _ => false
  end.

Section PushToSplitwise.

(** [Date.prototype.toISOString] on a valid date, and
    [splitwiseService.createExpense(expenseData)], whose file is not
    among the sources: the answer to the request of that number in the
    run, [None] for [null] or a thrown error. *)
Variable toISOString : Z → string.
Variable createExpense : nat → expenseData → option string.

(** The body of the loop for one movement.  [sent] are the expenses the
    run has asked for so far; the method itself returns nothing, and the
    two counters of the loop only feed the log. *)
Definition pushMovement (movement : movement) (sent : list expenseData)
    : M (list expenseData) :=
  try_catch
    (let movementId := ID movement in
     let amount := AMOUNT movement in
     let currency := CURRENCY movement in
     let description :=
       or_else (USER_DESCRIPTION movement) (SOURCE_DESCRIPTION movement) in
     let timestamp := TIMESTAMP movement in
     date ← match timestamp with
            | Some t => mret (beforeT (toISOString t))
            | None => throw (RangeError "Invalid time value")
            end;
     allMovements ← gets getAllMovements;
     let personalMovement :=
       List.find (λ m,
         sameTimestamp (TIMESTAMP m) (TIMESTAMP movement)
         && String.eqb (USER_DESCRIPTION m) (USER_DESCRIPTION movement)
         && String.eqb (TYPE m) MOVEMENT_TYPES_EXPENSE
         && negb (ID m =? ID movement)%Z) allMovements in
     let '(totalAmount, personalAmount) :=
       match personalMovement with
       | Some personalMovement =>
           ((AMOUNT personalMovement + amount)%Q, AMOUNT personalMovement)
       | None => (amount, 0%Q)
       end in
     let expenseData :=
       {| expense_amount := totalAmount;
          expense_personalAmount := personalAmount;
          expense_currency := currency;
          expense_description := description;
          expense_date := date |} in
     match createExpense (length sent) expenseData with
     | Some splitwiseId =>
         if truthy splitwiseId then
           updateMovementWithSplitwiseInfo movementId splitwiseId ;;
           mret (sent ++ [expenseData])
         else mret (sent ++ [expenseData])
     | None => mret (sent ++ [expenseData])
     end)
    (λ _, mret sent).

Fixpoint pushEach (pendingMovements : list movement)
    (sent : list expenseData) : M (list expenseData) :=
  match pendingMovements with
  | [] => mret sent
  | movement :: rest =>
      sent' ← pushMovement movement sent;
      pushEach rest sent'
  end.

(** [connectionTest] is the answer of [splitwiseService.testConnection()].
    The run returns the expenses it asked Splitwise to create. *)
Definition pushToSplitwise (connectionTest : bool) : M (list expenseData) :=
  try_catch
    (if negb connectionTest then mret []
     else
       pendingMovements ← gets getMovementsPendingSplitwiseSettlement;
       if (length pendingMovements =? 0)%nat then mret []
       else pushEach pendingMovements [])
    (λ error, throw error).
End PushToSplitwise.

(** ** Properties of uploads *)

(** The expense asked for a movement that has a date: the amount of the
    movement, with a personal share of zero. *)
Definition expenseFor (toISOString : Z → string) (movement : movement)
    : option expenseData :=
  match TIMESTAMP movement with
  | Some t =>
      Some {| expense_amount := AMOUNT movement;
              expense_personalAmount := 0;
              expense_currency := CURRENCY movement;
              expense_description :=
                or_else (USER_DESCRIPTION movement)
                  (SOURCE_DESCRIPTION movement);
              expense_date := beforeT (toISOString t) |}
  | None => None
  end.

(** The row [m'] is the row [m] marked as uploaded: in Splitwise, under
    an id that is not empty, and otherwise as it was. *)
Definition uploaded (m m' : movement) : Prop :=
  ∃ splitwiseId,
    truthy splitwiseId = true
    ∧ m' = set_STATUS STATUS_IN_SPLITWISE
             (set_ACCOUNTING_SYSTEM_ID splitwiseId m).

(** A Splitwise client that files every expense under the same id. *)
Definition sampleCreateExpense (n : nat) (expenseData : expenseData)
    : option string := Some "9001".

(** An ISO text for every date; only its part before the [T] is read. *)
Definition sampleToISOString (t : Z) : string := "2023-11-14T22:13:20.000Z".

(** A shared payment awaiting upload. *)
Definition sampleAwaiting (id : Z) : movement :=
  set_STATUS STATUS_PENDING_SPLITWISE_SETTLEMENT
    (set_TYPE MOVEMENT_TYPES_DEBIT (sampleMovement id 40)).

(** ** GoogleAIStudioService: reading the answers *)

(** A value of the JSON the classifier answers with, as the validation
    reads it: [JUndefined] for a property that is missing, [JOther] for
    an object or an array.  Numbers are read exactly. *)
Inductive jsvalue : Type :=
| JUndefined
| JNull
| JBool (b : bool)
| JNumber (q : Q)
| JString (text : string)
| JOther.

(** The value counts as true in a condition. *)
Definition js_truthy (v : jsvalue) : bool :=
  match v with
  | JUndefined | JNull => false
  | JBool b => b
  | JNumber q => negb (Qeq_bool q 0)
  | JString text => truthy text
  | JOther => true
  end.

(** [v || w]. *)
Definition js_or (v w : jsvalue) : jsvalue := if js_truthy v then v else w.

(** [names.includes(v)] for a list of texts. *)
Definition includes (names : list string) (v : jsvalue) : bool :=
  match v with
  | JString text => bool_decide (text ∈ names)
  | _ => false
  end.

(** [v === 'text']. *)
Definition is_text (v : jsvalue) (text : string) : bool :=
  match v with
  | JString text' => String.eqb text' text
  | _ => false
  end.

(** The properties of the parsed answer that the validation reads. *)
Module ParsedData.
Record t : Type := mk {
  category : jsvalue;
  needs_split : jsvalue;
  split_type : jsvalue;
  split_amount : jsvalue;
  split_description : jsvalue;
  split_category : jsvalue;
  clean_description : jsvalue
}.
End ParsedData.

(** The object [parseCategoryAnalysisResponse] returns. *)
Module Analysis.
Record t : Type := mk {
  category : jsvalue;
  needs_split : bool;
  split_type : jsvalue;
  split_amount : jsvalue;
  split_description : jsvalue;
  split_category : jsvalue;
  clean_description : jsvalue
}.
End Analysis.

(** The response of the API as the parsers read it: its candidates, each
    with the texts of the parts of its content; a part without a text is
    [None].  A response without candidates, a candidate without content
    and a content without parts are empty lists: reading further into
    them throws, and the parsers catch that and answer [null]. *)
Abbreviation apiResponse := (list (list (option string))).

(** [candidates[0].content.parts[0].text.trim()], [None] when reading it
    throws. *)
Definition textContentOf (response : apiResponse) : option string :=
  match response with
  | (Some text :: _) :: _ => Some (trim text)
  | _ => None
  end.

(** The value of a decimal digit. *)
Definition digitValue (a : ascii) : option Z :=
  let n := Z.of_N (N_of_ascii a) in
  if (48 <=? n)%Z && (n <=? 57)%Z then Some (n - 48)%Z else None.

(** The digits a text starts with. *)
Fixpoint digitRun (text : string) : string :=
  match text with
  | EmptyString => EmptyString
  | String a rest =>
      match digitValue a with
      | Some _ => String a (digitRun rest)
      | None => EmptyString
      end
  end.

(** [text.match(/(\d+)/)]: the first run of digits of the text, if it
    has a digit. *)
Fixpoint matchDigits (text : string) : option string :=
  match text with
  | EmptyString => None
  | String a rest =>
      match digitValue a with
      | Some _ => Some (digitRun text)
      | None => matchDigits rest
      end
  end.

(** [parseInt(digits, 10)] on a text that starts with a digit: the
    number its leading digits spell, read exactly. *)
Fixpoint parseIntFrom (n : Z) (digits : string) : Z :=
  match digits with
  | EmptyString => n
  | String a rest =>
      match digitValue a with
      | Some d => parseIntFrom (10 * n + d)%Z rest
      | None => n
      end
  end.

Definition parseInt (digits : string) : Z := parseIntFrom 0%Z digits.

(** [text.match(/\{[\s\S]*\}/)]: from the first opening brace to the
    last closing brace after it. *)
Fixpoint fromFirstBrace (text : string) : option string :=
  match text with
  | EmptyString => None
  | String a rest =>
      if Ascii.eqb a "{" then Some text else fromFirstBrace rest
  end.

Fixpoint upToLastBrace (text : string) : option string :=
  match text with
  | EmptyString => None
  | String a rest =>
      match upToLastBrace rest with
      | Some r => Some (String a r)
      | None => if Ascii.eqb a "}" then Some (String a EmptyString) else None
      end
  end.

Definition matchJson (text : string) : option string :=
  match fromFirstBrace text with
  | Some fromBrace => upToLastBrace fromBrace
  | None => None
  end.

Module GoogleAIStudioService.
Section GoogleAIStudioService.

(** [JSON.parse], [None] when it throws;
    [categoryService.getCategoryNames()]; the two prompts, which are
    texts made from their arguments; and [callGoogleAIStudioAPI], [None]
    when it throws or answers nothing. *)
Variable JSON_parse : string → option ParsedData.t.
Variable validCategories : list string.
Variable createCategoryAnalysisPrompt : string → movementData → string.
Variable createDebitMatchingPrompt : repaymentData → list movement → string.
Variable callGoogleAIStudioAPI : string → option apiResponse.

Definition parseCategoryAnalysisResponse (apiResponse : apiResponse)
    : option Analysis.t :=
  if (length apiResponse =? 0)%nat then None
  else
    match textContentOf apiResponse with
    | None => None
    | Some textContent =>
        match matchJson textContent with
        | None => None
        | Some jsonMatch =>
            match JSON_parse jsonMatch with
            | None => None
            | Some parsedData =>
                let isExpenseSplit :=
                  js_truthy (ParsedData.needs_split parsedData)
                  && is_text (ParsedData.split_type parsedData) "EXPENSE" in
                if negb isExpenseSplit
                   && negb (js_truthy (ParsedData.category parsedData))
                then None
                else if js_truthy (ParsedData.category parsedData)
                        && negb (includes validCategories
                                   (ParsedData.category parsedData))
                then None
                else
                  let needsSplit :=
                    match ParsedData.needs_split parsedData with
                    | JBool true => true
                    | _ => false
                    end in
                  let isNumber :=
                    match ParsedData.split_amount parsedData with
                    | JNumber _ => true
                    | _ => false
                    end in
                  if needsSplit
                     && (negb isNumber
                         || negb (js_truthy
                                    (ParsedData.split_type parsedData)))
                  then None
                  else if needsSplit
                          && is_text (ParsedData.split_type parsedData)
                               "DEBIT"
                          && (negb (js_truthy
                                      (ParsedData.split_category parsedData))
                              || negb (includes validCategories
                                         (ParsedData.split_category
                                            parsedData)))
                  then None
                  else
                    Some {|
                      Analysis.category :=
                        js_or (ParsedData.category parsedData) JNull;
                      Analysis.needs_split := needsSplit;
                      Analysis.split_type :=
                        js_or (ParsedData.split_type parsedData) JNull;
                      Analysis.split_amount :=
                        js_or (ParsedData.split_amount parsedData) JNull;
                      Analysis.split_description :=
                        js_or (ParsedData.split_description parsedData)
                          JNull;
                      Analysis.split_category :=
                        js_or (ParsedData.split_category parsedData) JNull;
                      Analysis.clean_description :=
                        js_or (ParsedData.clean_description parsedData)
                          (ParsedData.category parsedData) |}
            end
        end
    end.

Definition analyzeCategory (userDescription : string)
    (movementData : movementData) : option Analysis.t :=
  let prompt := createCategoryAnalysisPrompt userDescription movementData in
  match callGoogleAIStudioAPI prompt with
  | Some response =>
      if (0 <? length response)%nat
      then parseCategoryAnalysisResponse response
      else None
  | None => None
  end.

(** Whether the text says [null] or something else only chooses the line
    of the log: both answers are [null]. *)
Definition parseDebitMatchingResponse (apiResponse : apiResponse)
    : option Z :=
  if (length apiResponse =? 0)%nat then None
  else
    match textContentOf apiResponse with
    | None => None
    | Some textContent =>
        match matchDigits textContent with
        | Some idMatch =>
            let matchedId := parseInt idMatch in
            Some matchedId
        | None => None
        end
    end.

Definition matchDebitRepayment (repaymentMovement : repaymentData)
    (pendingDebits : list movement) : option Z :=
  if (length pendingDebits =? 0)%nat then None
  else
    let prompt := createDebitMatchingPrompt repaymentMovement pendingDebits in
    match callGoogleAIStudioAPI prompt with
    | Some response =>
        if (0 <? length response)%nat
        then parseDebitMatchingResponse response
        else None
    | None => None
    end.
End GoogleAIStudioService.
End GoogleAIStudioService.

(** The text has no digit. *)
Definition no_digit (text : string) : Prop := matchDigits text = None.

(** The text does not start with a digit. *)
Definition no_leading_digit (text : string) : Prop :=
  match text with
  | EmptyString => True
  | String a _ => digitValue a = None
  end.

(** The text consists of white space. *)
Fixpoint all_space (text : string) : Prop :=
  match text with
  | EmptyString => True
  | String a rest => is_space a = true ∧ all_space rest
  end.

(** The number the first run of digits of a text spells, if the text
    has a digit. *)
Definition firstNumber (text : string) : option Z :=
  parseInt <$> matchDigits text.

(** A prompt that says nothing, and an API that always names the
    movement 1 in a sentence. *)
Definition samplePrompt (repayment : repaymentData)
    (pendingDebits : list movement) : string := "".

Definition sampleAPI (prompt : string) : option apiResponse :=
  Some [[Some "The best match is ID 1."]].

(** What the validation of [parseCategoryAnalysisResponse] guarantees of
    a result: its category is a name of the vocabulary, or it is [null]
    and the split type is [EXPENSE]; and when it asks for a split, the
    split amount is a number that is not zero, or [null], the split type
    is set, and a split of type [DEBIT] has a category of the
    vocabulary. *)
Definition validated (validCategories : list string) (result : Analysis.t)
    : Prop :=
  ((Analysis.category result = JNull
    ∧ Analysis.split_type result = JString "EXPENSE")
   ∨ ∃ name, Analysis.category result = JString name
       ∧ name ∈ validCategories ∧ name ≠ "")
  ∧ (Analysis.needs_split result = true →
     (Analysis.split_amount result = JNull
      ∨ ∃ q, Analysis.split_amount result = JNumber q ∧ ¬ (q == 0)%Q)
     ∧ js_truthy (Analysis.split_type result) = true
     ∧ (Analysis.split_type result = JString "DEBIT" →
        ∃ name, Analysis.split_category result = JString name
          ∧ name ∈ validCategories)).

(** A parser that reads every text as the same answer: the category
    restaurants, and no split. *)
Definition sampleJSON_parse (text : string) : option ParsedData.t :=
  Some (ParsedData.mk (JString "restaurants") (JBool false) JNull JNull
          JNull JNull (JString "Dinner")).

(** ** Properties of a classification run *)

(** [s'] is [s] with at most [n] rows appended: the ids of the rows of
    [s] are kept, and the appended rows carry the next ids of [s] in
    order. *)
Definition extends (n : nat) (s s' : store) : Prop :=
  ∃ k : nat,
    (k ≤ n)%nat
    ∧ ID <$> s' = (ID <$> s) ++ seqZ (getNextId s) (Z.of_nat k).

(** The operation always returns, having appended at most [n] rows. *)
Definition appends_at_most {A : Type} (n : nat) (c : M A) : Prop :=
  ∀ s, ∃ a s', c s = Return a s' ∧ extends n s s'.

(** ** ExpenseTracker: repair of failed conversions *)

Section RepairRun.
Context {currencyConversionService : CurrencyConversionService}.

(** The counts the method reads from the result only feed the log. *)
Definition fixFailedCurrencyConversions : M unit :=
  try_catch
    (result ← fixAllFailedCurrencyConversions;
     mret tt)
    (λ error, throw error).

(** The conversion service can repair the values of the movement: its
    amount is not zero, its currency is set, and the service answers
    with a value that is not empty. *)
Definition repairable (movement : movement) : bool :=
  negb (Qeq_bool (AMOUNT movement) 0)
  && truthy (CURRENCY movement)
  && match fixCurrencyConversion (AMOUNT movement) (CURRENCY movement) with
     | Some currencyValues =>
         truthy_cvalue (clpValue currencyValues)
         || truthy_cvalue (usdValue currencyValues)
         || truthy_cvalue (gbpValue currencyValues)
     | None => false
     end.
End RepairRun.


(** * Results *)

(** ** Running computations *)

Ltac run :=
  unfold mbind, mret, M_bind, M_ret, gets, setValue, throw, appendRow,
    try_catch in *; simpl in *.

(** Reading the id of a row through the cell writes made on it. *)
Ltac simpl_ID :=
  cbn [ID set_DIRECTION set_TYPE set_AMOUNT set_USER_DESCRIPTION set_COMMENT
       set_AI_COMMENT set_CATEGORY set_STATUS set_SETTLED_MOVEMENT_ID
       set_CLP_VALUE set_USD_VALUE set_GBP_VALUE set_ORIGINAL_AMOUNT set_ID
       set_ACCOUNTING_SYSTEM_ID].

(** ** Identity *)

Lemma idExists_elem_of (id : Z) (s : store) :
  idExists id s = true ↔ id ∈ ID <$> s.
Proof.
  unfold idExists. destruct s as [|m s]; simpl.
  - split; [discriminate | intros H; inversion H].
  - rewrite orb_true_iff, existsb_exists, elem_of_cons, list_elem_of_fmap.
    split.
    + intros [H | (x & Hx & H)].
      * left. symmetry. by apply Z.eqb_eq.
      * right. exists x. split; [symmetry; by apply Z.eqb_eq |].
        by apply list_elem_of_In.
    + intros [-> | (x & -> & Hx)].
      * left. apply Z.eqb_refl.
      * right. exists x. split; [by apply list_elem_of_In | apply Z.eqb_refl].
Qed.

Lemma idExists_false (id : Z) (s : store) :
  idExists id s = false ↔ id ∉ ID <$> s.
Proof.
  rewrite <- idExists_elem_of. destruct (idExists id s); split; try done.
Qed.

Lemma max_id_nonneg (s : store) : (0 ≤ max_id s)%Z.
Proof. unfold max_id. induction s; csimpl; lia. Qed.

Lemma max_id_ge (s : store) (m : movement) :
  m ∈ s → (ID m ≤ max_id s)%Z.
Proof.
  unfold max_id. induction s as [|x s IH]; intros H.
  - inversion H.
  - apply elem_of_cons in H as [-> | H]; csimpl; [lia |].
    specialize (IH H). lia.
Qed.

Lemma fold_max_id (s : store) (a : Z) :
  (0 ≤ a)%Z →
  fold_left (λ maxId row,
    let id := ID row in
    if negb (id =? 0)%Z && (id >? maxId)%Z then id else maxId) s a
  = Z.max a (max_id s).
Proof.
  revert a. induction s as [|x s IH]; intros a Ha.
  - unfold max_id. simpl. lia.
  - pose proof (max_id_nonneg s) as Hs.
    change (max_id (x :: s)) with (Z.max (ID x) (max_id s)).
    cbn [fold_left]. rewrite Z.gtb_ltb.
    destruct (Z.eqb_spec (ID x) 0) as [E0 | E0],
      (Z.ltb_spec a (ID x)) as [E1 | E1]; cbn [negb andb];
      rewrite IH by lia; lia.
Qed.

Lemma getNextId_max_id (s : store) : getNextId s = (max_id s + 1)%Z.
Proof.
  unfold getNextId. destruct s as [|x s]; [reflexivity |].
  cbn [length Nat.eqb]. rewrite fold_max_id by lia.
  pose proof (max_id_nonneg (x :: s)). lia.
Qed.

Lemma getNextId_above (s : store) (m : movement) :
  m ∈ s → (ID m < getNextId s)%Z.
Proof. intros H%max_id_ge. rewrite getNextId_max_id. lia. Qed.

Lemma getNextId_fresh (s : store) : idExists (getNextId s) s = false.
Proof.
  apply idExists_false. intros (m & Hm & Hin)%list_elem_of_fmap.
  apply getNextId_above in Hin. lia.
Qed.

(** ** Cell writes *)

Lemma alter_lookup (f : movement → movement) (i : nat) (m : movement)
    (s : store) :
  s !! i = Some m → alter f i s = <[i := f m]> s.
Proof.
  intros H. apply list_eq. intros j. destruct (decide (i = j)) as [<- | Hne].
  - rewrite list_lookup_alter_eq, H. simpl.
    symmetry. apply list_lookup_insert_eq. by eapply lookup_lt_Some.
  - by rewrite list_lookup_alter_ne, list_lookup_insert_ne.
Qed.

Lemma ID_alter (f : movement → movement) (i : nat) (s : store) :
  (∀ m, ID (f m) = ID m) → ID <$> alter f i s = ID <$> s.
Proof.
  intros Hf. rewrite (list_fmap_alter ID f (λ x, x)).
  - by apply list_alter_id.
  - apply Forall_forall. intros m _. apply Hf.
Qed.

Lemma ID_insert (i : nat) (m m' : movement) (s : store) :
  s !! i = Some m → ID m' = ID m → ID <$> <[i := m']> s = ID <$> s.
Proof.
  intros Hi Hid. rewrite list_fmap_insert, Hid.
  apply list_insert_id. by rewrite list_lookup_fmap, Hi.
Qed.

Lemma idExists_ext (id : Z) (s s' : store) :
  ID <$> s = ID <$> s' → idExists id s = idExists id s'.
Proof.
  intros H. apply eq_true_iff_eq. by rewrite !idExists_elem_of, H.
Qed.

Lemma max_id_ext (s s' : store) : ID <$> s = ID <$> s' → max_id s = max_id s'.
Proof. unfold max_id. by intros ->. Qed.

Lemma getNextId_ext (s s' : store) :
  ID <$> s = ID <$> s' → getNextId s = getNextId s'.
Proof. intros H. by rewrite !getNextId_max_id, (max_id_ext s s'). Qed.

Lemma findIndex_Some (id : Z) (s : store) (i : nat) (m : movement) :
  findIndex id s = Some (i, m) → s !! i = Some m ∧ ID m = id ∧ m ∈ s.
Proof.
  intros (Hi & Hid & _)%list_find_Some. split_and!; try done.
  by eapply list_elem_of_lookup_2.
Qed.

(** With unique ids, the row [findIndex] finds for an id is the row that
    carries it. *)
Lemma findIndex_unique (s : store) (i : nat) (m : movement) :
  unique_ids s → s !! i = Some m → findIndex (ID m) s = Some (i, m).
Proof.
  intros Hu Hi. apply list_find_Some. split_and!; try done.
  intros j y Hj Hlt Hy.
  assert (j = i) as ->; [| lia].
  eapply NoDup_lookup; [exact Hu | |];
    rewrite list_lookup_fmap; [rewrite Hj | rewrite Hi]; simpl; by f_equal.
Qed.

(** ** Insertion *)

Lemma addMovement_eq (movementRow : movement) (s : store) :
  addMovement movementRow s =
    if idExists (ID movementRow) s
    then Throw (DuplicateIdError (ID movementRow)) s
    else Return tt (s ++ [movementRow]).
Proof. unfold addMovement. run. by destruct (idExists _ s). Qed.

Lemma addMovement_fresh (movementRow : movement) (s : store) :
  ID movementRow = getNextId s →
  addMovement movementRow s = Return tt (s ++ [movementRow]).
Proof. intros H. by rewrite addMovement_eq, H, getNextId_fresh. Qed.

Lemma addMovement_unique_ids (movementRow : movement) (s : store) :
  unique_ids s → unique_ids (final_store (addMovement movementRow s)).
Proof.
  intros Hu. rewrite addMovement_eq.
  destruct (idExists (ID movementRow) s) eqn:E; simpl; [done |].
  unfold unique_ids. rewrite fmap_app. apply NoDup_app. split_and!.
  - done.
  - intros x Hx ->%list_elem_of_singleton. by apply idExists_false in E.
  - apply NoDup_singleton.
Qed.

Lemma forEach_addMovement_unique_ids (rows : list batchItem) (s : store) :
  unique_ids s →
  unique_ids (final_store (forEach rows (λ item, addMovement (row item)) s)).
Proof.
  revert s. induction rows as [|item rows IH]; intros s Hu; [done |].
  cbn [forEach]. run. pose proof (addMovement_unique_ids (row item) s Hu) as H.
  destruct (addMovement (row item) s) as [[] s' | e s']; simpl in *; auto.
Qed.

Lemma addMovementsBatch_unique_ids (movements : list batchItem) (s : store) :
  unique_ids s → unique_ids (final_store (addMovementsBatch movements s)).
Proof. apply forEach_addMovement_unique_ids. Qed.

(** ** The two splits *)

Section Splits.
Context {currencyConversionService : CurrencyConversionService}.

Lemma splitMovement_not_found (originalMovementId : Z)
    (splitInfo : SplitInfo.t) (s : store) :
  findIndex originalMovementId s = None →
  splitMovement originalMovementId splitInfo s = Return None s.
Proof. intros H. unfold splitMovement. run. unfold getAllMovements. by rewrite H. Qed.

(** What the shared-expense split does to a sheet in which it finds the
    movement: the row found becomes [personal], and [shared] is
    appended under the next id. *)
Lemma splitMovement_found (originalMovementId : Z) (splitInfo : SplitInfo.t)
    (s : store) (i : nat) (m : movement) :
  findIndex originalMovementId s = Some (i, m) →
  let originalCurrencyValues :=
    mkCurrencyValues (CLP_VALUE m) (USD_VALUE m) (GBP_VALUE m) in
  let personalCurrencyValues :=
    splitCurrencyValues (AMOUNT m) (SplitInfo.split_amount splitInfo)
      originalCurrencyValues in
  let sharedCurrencyValues :=
    splitCurrencyValues (AMOUNT m)
      (AMOUNT m - SplitInfo.split_amount splitInfo)%Q
      originalCurrencyValues in
  ∃ personal shared : movement,
    splitMovement originalMovementId splitInfo s
      = Return (Some (getNextId s)) (<[i := personal]> s ++ [shared])
    ∧ (ID personal = ID m ∧ CURRENCY personal = CURRENCY m
       ∧ AMOUNT personal = SplitInfo.split_amount splitInfo
       ∧ CLP_VALUE personal = clpValue personalCurrencyValues
       ∧ USD_VALUE personal = usdValue personalCurrencyValues
       ∧ GBP_VALUE personal = gbpValue personalCurrencyValues)
    ∧ (ID shared = getNextId s ∧ CURRENCY shared = CURRENCY m
       ∧ AMOUNT shared = (AMOUNT m - SplitInfo.split_amount splitInfo)%Q
       ∧ CLP_VALUE shared = clpValue sharedCurrencyValues
       ∧ USD_VALUE shared = usdValue sharedCurrencyValues
       ∧ GBP_VALUE shared = gbpValue sharedCurrencyValues).
Proof.
  intros Hfind ocv pcv scv.
  destruct (findIndex_Some _ _ _ _ Hfind) as (Hi & Hid & Hin).
  unfold splitMovement. run. unfold getAllMovements. rewrite Hfind.
  rewrite addMovement_eq. simpl_ID.
  rewrite !list_alter_alter_eq.
  rewrite (idExists_ext _ _ s) by (by apply ID_alter).
  rewrite getNextId_fresh.
  rewrite (alter_lookup _ i m s Hi).
  eexists _, _. split; [reflexivity |]. by split_and!.
Qed.

Lemma splitExpense_not_found (originalMovementId : Z)
    (splitInfo : SplitInfo.t) (s : store) :
  findIndex originalMovementId s = None →
  splitExpenseForRecategorization originalMovementId splitInfo s
    = Return None s.
Proof.
  intros H. unfold splitExpenseForRecategorization. run.
  unfold getAllMovements. by rewrite H.
Qed.

Lemma splitExpense_invalid (originalMovementId : Z)
    (splitInfo : SplitInfo.t) (s : store) (i : nat) (m : movement) :
  findIndex originalMovementId s = Some (i, m) →
  Qle_bool (AMOUNT m) (SplitInfo.split_amount splitInfo)
  || Qle_bool (SplitInfo.split_amount splitInfo) 0 = true →
  splitExpenseForRecategorization originalMovementId splitInfo s
    = Return None s.
Proof.
  intros Hfind Hbad. unfold splitExpenseForRecategorization. run.
  unfold getAllMovements. by rewrite Hfind, Hbad.
Qed.

(** What the re-categorization split does when it finds the movement
    and accepts the amount: the row found becomes [remaining], and
    [split] is appended under the next id. *)
Lemma splitExpense_found (originalMovementId : Z) (splitInfo : SplitInfo.t)
    (s : store) (i : nat) (m : movement) :
  findIndex originalMovementId s = Some (i, m) →
  Qle_bool (AMOUNT m) (SplitInfo.split_amount splitInfo)
  || Qle_bool (SplitInfo.split_amount splitInfo) 0 = false →
  let originalCurrencyValues :=
    mkCurrencyValues (CLP_VALUE m) (USD_VALUE m) (GBP_VALUE m) in
  let remainingCurrencyValues :=
    splitCurrencyValues (AMOUNT m)
      (AMOUNT m - SplitInfo.split_amount splitInfo)%Q
      originalCurrencyValues in
  let newCurrencyValues :=
    splitCurrencyValues (AMOUNT m) (SplitInfo.split_amount splitInfo)
      originalCurrencyValues in
  ∃ remaining split : movement,
    splitExpenseForRecategorization originalMovementId splitInfo s
      = Return (Some (getNextId s)) (<[i := remaining]> s ++ [split])
    ∧ (ID remaining = ID m ∧ CURRENCY remaining = CURRENCY m
       ∧ AMOUNT remaining
         = (AMOUNT m - SplitInfo.split_amount splitInfo)%Q
       ∧ CLP_VALUE remaining = clpValue remainingCurrencyValues
       ∧ USD_VALUE remaining = usdValue remainingCurrencyValues
       ∧ GBP_VALUE remaining = gbpValue remainingCurrencyValues)
    ∧ (ID split = getNextId s ∧ CURRENCY split = CURRENCY m
       ∧ AMOUNT split = SplitInfo.split_amount splitInfo
       ∧ CLP_VALUE split = clpValue newCurrencyValues
       ∧ USD_VALUE split = usdValue newCurrencyValues
       ∧ GBP_VALUE split = gbpValue newCurrencyValues).
Proof.
  intros Hfind Hok ocv rcv ncv.
  destruct (findIndex_Some _ _ _ _ Hfind) as (Hi & Hid & Hin).
  unfold splitExpenseForRecategorization. run. unfold getAllMovements.
  rewrite Hfind, Hok.
  rewrite addMovement_eq. simpl_ID.
  rewrite !list_alter_alter_eq.
  rewrite (idExists_ext _ _ s) by (by apply ID_alter).
  rewrite getNextId_fresh.
  rewrite (alter_lookup _ i m s Hi).
  eexists _, _. split; [reflexivity |]. by split_and!.
Qed.
End Splits.

(** ** The ids of a sheet after an operation *)

Lemma max_id_snoc (s s' : store) (n : Z) :
  ID <$> s' = (ID <$> s) ++ [n] → max_id s' = Z.max (max_id s) n.
Proof.
  intros H. unfold max_id. rewrite H, foldr_app. clear H. cbn [foldr].
  induction (ID <$> s) as [|x l IH]; cbn [foldr]; lia.
Qed.

Lemma unique_ids_snoc (s s' : store) :
  ID <$> s' = (ID <$> s) ++ [getNextId s] → unique_ids s → unique_ids s'.
Proof.
  unfold unique_ids. intros -> Hu. apply NoDup_app. split_and!; [done | |].
  - intros x Hx ->%list_elem_of_singleton.
    by apply (idExists_false (getNextId s) s); [apply getNextId_fresh |].
  - apply NoDup_singleton.
Qed.

Section SplitIds.
Context {currencyConversionService : CurrencyConversionService}.

(** Both splits return; they return no id and leave the sheet alone,
    or return the next id and append one row under it. *)
Lemma splitMovement_ids (originalMovementId : Z) (splitInfo : SplitInfo.t)
    (s : store) :
  ∃ r s', splitMovement originalMovementId splitInfo s = Return r s'
    ∧ ((r = None ∧ s' = s)
       ∨ (r = Some (getNextId s)
          ∧ ID <$> s' = (ID <$> s) ++ [getNextId s])).
Proof.
  destruct (findIndex originalMovementId s) as [[i m]|] eqn:Hfind.
  - destruct (splitMovement_found _ splitInfo _ _ _ Hfind)
      as (p & sh & -> & (Hp & _) & (Hsh & _)).
    eexists _, _. split; [reflexivity |]. right. split; [done |].
    rewrite fmap_app. simpl. rewrite Hsh. f_equal.
    apply findIndex_Some in Hfind as (Hi & _). by eapply ID_insert.
  - rewrite splitMovement_not_found by done.
    eexists _, _. split; [reflexivity | by left].
Qed.

Lemma splitExpense_ids (originalMovementId : Z) (splitInfo : SplitInfo.t)
    (s : store) :
  ∃ r s',
    splitExpenseForRecategorization originalMovementId splitInfo s
      = Return r s'
    ∧ ((r = None ∧ s' = s)
       ∨ (r = Some (getNextId s)
          ∧ ID <$> s' = (ID <$> s) ++ [getNextId s])).
Proof.
  destruct (findIndex originalMovementId s) as [[i m]|] eqn:Hfind.
  - destruct (Qle_bool (AMOUNT m) (SplitInfo.split_amount splitInfo)
              || Qle_bool (SplitInfo.split_amount splitInfo) 0) eqn:Hv.
    + erewrite splitExpense_invalid by done.
      eexists _, _. split; [reflexivity | by left].
    + destruct (splitExpense_found _ splitInfo _ _ _ Hfind Hv)
        as (p & sh & -> & (Hp & _) & (Hsh & _)).
      eexists _, _. split; [reflexivity |]. right. split; [done |].
      rewrite fmap_app. simpl. rewrite Hsh. f_equal.
      apply findIndex_Some in Hfind as (Hi & _). by eapply ID_insert.
  - rewrite splitExpense_not_found by done.
    eexists _, _. split; [reflexivity | by left].
Qed.

Lemma splitMovement_unique_ids (originalMovementId : Z)
    (splitInfo : SplitInfo.t) (s : store) :
  unique_ids s →
  unique_ids (final_store (splitMovement originalMovementId splitInfo s)).
Proof.
  intros Hu.
  destruct (splitMovement_ids originalMovementId splitInfo s)
    as (r & s' & -> & [[_ ->] | [_ H]]); simpl; [done |].
  by eapply unique_ids_snoc.
Qed.

Lemma splitExpense_unique_ids (originalMovementId : Z)
    (splitInfo : SplitInfo.t) (s : store) :
  unique_ids s →
  unique_ids (final_store
    (splitExpenseForRecategorization originalMovementId splitInfo s)).
Proof.
  intros Hu.
  destruct (splitExpense_ids originalMovementId splitInfo s)
    as (r & s' & -> & [[_ ->] | [_ H]]); simpl; [done |].
  by eapply unique_ids_snoc.
Qed.

Lemma assigns_next (s s' : store) (n : Z) :
  assigns s n s' → n = getNextId s ∧ ID <$> s' = (ID <$> s) ++ [n].
Proof.
  intros [s0 movementRow Hid | s0 s0' id n0 info Hsplit
          | s0 s0' id n0 info Hsplit].
  - rewrite addMovement_fresh by done. simpl.
    by rewrite fmap_app, <- Hid.
  - destruct (splitMovement_ids id info s0)
      as (r & s1 & Heq & [[-> ->] | [-> H]]); rewrite Heq in Hsplit;
      [done |]. by injection Hsplit as <- <-.
  - destruct (splitExpense_ids id info s0)
      as (r & s1 & Heq & [[-> ->] | [-> H]]); rewrite Heq in Hsplit;
      [done |]. by injection Hsplit as <- <-.
Qed.

Lemma assigned_increasing (s s' : store) (ids : list Z) :
  assigned s ids s' →
  Forall (λ n, (getNextId s ≤ n)%Z) ids ∧ StronglySorted Z.lt ids.
Proof.
  induction 1 as [s | s s' s'' ids Hids _ [IH1 IH2]
                  | s s' s'' n ids Hn _ [IH1 IH2]].
  - split; constructor.
  - by rewrite <- (getNextId_ext s' s).
  - apply assigns_next in Hn as [-> Hids].
    assert (getNextId s' = (getNextId s + 1)%Z) as Hnext.
    { rewrite (getNextId_max_id s'), (max_id_snoc s s' _ Hids).
      rewrite getNextId_max_id. lia. }
    rewrite Hnext in IH1. split.
    + constructor; [lia |]. eapply Forall_impl; [exact IH1 |].
      intros x Hx. simpl in Hx. lia.
    + constructor; [done |]. eapply Forall_impl; [exact IH1 |].
      intros x Hx. simpl in Hx. lia.
Qed.
End SplitIds.

(** ** The next id (claim C8) *)

(** C8, as the code has it.  [getNextId] is a function of the sheet it
    is called on and of nothing else; it returns one more than the
    largest id of the sheet counted from zero, hence [1] on the empty
    sheet; the id it returns is above every id of the sheet and so not
    in use; and along any run of inserts under the id it gave, of splits
    and of cell updates, the ids assigned are strictly increasing and
    none of them is an id the sheet already had. *)
Theorem getNextId_above_every_id `{CurrencyConversionService} (s : store) :
  getNextId s = (max_id s + 1)%Z
  ∧ getNextId [] = 1%Z
  ∧ (∀ m, m ∈ s → (ID m < getNextId s)%Z)
  ∧ idExists (getNextId s) s = false
  ∧ (∀ ids s', assigned s ids s' →
       StronglySorted Z.lt ids
       ∧ Forall (λ n, idExists n s = false) ids).
Proof.
  split_and!.
  - apply getNextId_max_id.
  - reflexivity.
  - apply getNextId_above.
  - apply getNextId_fresh.
  - intros ids s' [Hge Hsorted]%assigned_increasing. split; [done |].
    eapply Forall_impl; [exact Hge |]. intros n Hn. simpl in Hn.
    apply idExists_false. intros (m & -> & Hm)%list_elem_of_fmap.
    apply getNextId_above in Hm. lia.
Qed.

(** C8 as stated fails: on a sheet with the ids 1 and 3 the id 2 is not
    in use, and [getNextId] returns 4. *)
Lemma getNextId_not_smallest_unused :
  let s := [sampleMovement 1 50; sampleMovement 3 20] in
  idExists 2 s = false ∧ getNextId s = 4%Z
  ∧ ¬ (∀ j, (0 < j)%Z → idExists j s = false → (getNextId s ≤ j)%Z).
Proof.
  split_and!; [reflexivity | reflexivity |].
  intros H. specialize (H 2%Z). vm_compute in H.
  by apply H.
Qed.

(** ** The duplicate-id check (claim C5) *)

(** C5.  [addMovement] throws the duplicate-id error and leaves the
    sheet as it was when a row of the sheet carries the id, and appends
    the row otherwise; and since every path that adds a row (the insert
    itself, the batch, both splits) goes through it, each of them leaves
    the ids of a sheet unique, however it ends. *)
Theorem addMovement_duplicate_id_check `{CurrencyConversionService}
    (movementRow : movement) (s : store) :
  (addMovement movementRow s =
     if idExists (ID movementRow) s
     then Throw (DuplicateIdError (ID movementRow)) s
     else Return tt (s ++ [movementRow]))
  ∧ (idExists (ID movementRow) s = true
     ↔ ∃ m, m ∈ s ∧ ID m = ID movementRow)
  ∧ (unique_ids s →
     unique_ids (final_store (addMovement movementRow s))
     ∧ (∀ movements,
          unique_ids (final_store (addMovementsBatch movements s)))
     ∧ (∀ originalMovementId splitInfo,
          unique_ids
            (final_store (splitMovement originalMovementId splitInfo s))
          ∧ unique_ids
              (final_store
                 (splitExpenseForRecategorization originalMovementId
                    splitInfo s)))).
Proof.
  split_and!.
  - apply addMovement_eq.
  - rewrite idExists_elem_of, list_elem_of_fmap.
    split; intros (m & H1 & H2); eauto.
  - intros Hu. split_and!.
    + by apply addMovement_unique_ids.
    + intros movements. by apply addMovementsBatch_unique_ids.
    + intros id info. split;
        [by apply splitMovement_unique_ids | by apply splitExpense_unique_ids].
Qed.

(** The check at work: a second row under the id 1 is refused, and the
    sheet keeps its one row. *)
Lemma addMovement_duplicate_id_check_witness :
  addMovement (sampleMovement 1 20) [sampleMovement 1 50]
  = Throw (DuplicateIdError 1) [sampleMovement 1 50]
  ∧ unique_ids
      (final_store (addMovement (sampleMovement 1 20) [sampleMovement 1 50])).
Proof.
  pose proof (@addMovement_duplicate_id_check sampleService
                (sampleMovement 1 20) [sampleMovement 1 50])
    as (Heq & _ & Hu).
  split.
  - rewrite Heq. reflexivity.
  - apply Hu. unfold unique_ids. simpl. apply NoDup_singleton.
Defined.

(** ** An invalid amount for the re-categorization split (claim C2) *)

(** C2.  Called on a movement of the sheet with a split amount that is
    not strictly between zero and the movement's amount, the
    re-categorization split returns [null] and leaves the sheet as it
    was: no row added, no cell of any row changed. *)
Theorem splitExpense_rejects_invalid_amount `{CurrencyConversionService}
    (originalMovementId : Z) (splitInfo : SplitInfo.t) (s : store)
    (i : nat) (m : movement) :
  findIndex originalMovementId s = Some (i, m) →
  (SplitInfo.split_amount splitInfo <= 0
   ∨ AMOUNT m <= SplitInfo.split_amount splitInfo)%Q →
  splitExpenseForRecategorization originalMovementId splitInfo s
    = Return None s.
Proof.
  intros Hfind Hbad. eapply splitExpense_invalid; [done |].
  apply orb_true_iff. rewrite !Qle_bool_iff. tauto.
Qed.

(** The spec's example: 60 out of 50. *)
Lemma splitExpense_rejects_invalid_amount_witness :
  splitExpenseForRecategorization (currencyConversionService := sampleService)
    1 oversizedSplit [sampleMovement 1 50]
  = Return None [sampleMovement 1 50].
Proof.
  apply (@splitExpense_rejects_invalid_amount sampleService 1 oversizedSplit
           [sampleMovement 1 50] 0%nat (sampleMovement 1 50)).
  - reflexivity.
  - right. vm_compute. discriminate.
Defined.

(** ** The amounts and values of the two splits (claim C1) *)


Section Conservation.
Context {currencyConversionService : CurrencyConversionService}.

End Conservation.



(** ** Negative amounts (claim C7) *)

(** C7 fails in the shared-expense split, which, unlike the
    re-categorization split, does not compare the split amount with the
    amount of the movement: asked for 60 out of a movement of 50 on a
    sheet whose one row is valid, it rewrites that row to 60 and appends
    a debit of -10. *)
Lemma splitMovement_negative_amount :
  Forall valid_movement [sampleMovement 1 50]
  ∧ ∃ personal shared,
      splitMovement (currencyConversionService := sampleService)
        1 oversizedSplit [sampleMovement 1 50]
        = Return (Some 2%Z) [personal; shared]
      ∧ AMOUNT personal = 60%Q
      ∧ AMOUNT shared = (50 - 60)%Q
      ∧ (AMOUNT shared < 0)%Q
      ∧ ¬ valid_movement shared.
Proof.
  split.
  - constructor; [| constructor]. split; [vm_compute; discriminate | reflexivity].
  - destruct (splitMovement_found (currencyConversionService := sampleService)
                1 oversizedSplit [sampleMovement 1 50] 0%nat
                (sampleMovement 1 50) eq_refl)
      as (personal & shared & Heq & (_ & _ & Hp & _) & (_ & _ & Hs & _)).
    exists personal, shared. rewrite Heq, Hp, Hs.
    split_and!; try reflexivity.
    intros [Hneg _]. rewrite Hs in Hneg. vm_compute in Hneg. by apply Hneg.
Qed.

(** ** The repair pass (claim C4) *)

Section Repair.
Context {currencyConversionService : CurrencyConversionService}.

(** The repair of one movement never reports a success: it answers
    [false] and leaves the sheet alone, or it throws at the first of
    its writes. *)
Lemma fixMovementCurrencyConversion_outcomes (movementId : Z) (s : store) :
  fixMovementCurrencyConversion movementId s = Return false s
  ∨ fixMovementCurrencyConversion movementId s
    = Throw (ReferenceError "sheetRowIndex") s.
Proof.
  unfold fixMovementCurrencyConversion. run. unfold getAllMovements.
  destruct (findIndex movementId s) as [[i m]|]; [| by left].
  destruct (Qeq_bool (AMOUNT m) 0 || negb (truthy (CURRENCY m)));
    [by left |].
  destruct (fixCurrencyConversion (AMOUNT m) (CURRENCY m)) as [cv|];
    [| by left].
  destruct (negb (truthy_cvalue (clpValue cv))
            && negb (truthy_cvalue (usdValue cv))
            && negb (truthy_cvalue (gbpValue cv))); [by left | by right].
Qed.

(** When the conversion service repairs the values of a movement, the
    method throws instead of writing them. *)
Lemma fixMovementCurrencyConversion_throws (movementId : Z) (s : store)
    (i : nat) (m : movement) (currencyValues : currencyValues) :
  findIndex movementId s = Some (i, m) →
  ¬ (AMOUNT m == 0)%Q →
  truthy (CURRENCY m) = true →
  fixCurrencyConversion (AMOUNT m) (CURRENCY m) = Some currencyValues →
  truthy_cvalue (clpValue currencyValues)
  || truthy_cvalue (usdValue currencyValues)
  || truthy_cvalue (gbpValue currencyValues) = true →
  fixMovementCurrencyConversion movementId s
    = Throw (ReferenceError "sheetRowIndex") s.
Proof.
  intros Hfind Ha Hc Hfix Hcv.
  unfold fixMovementCurrencyConversion. run. unfold getAllMovements.
  rewrite Hfind, Hc, Hfix.
  destruct (Qeq_bool (AMOUNT m) 0) eqn:E; [by apply Qeq_bool_iff in E |].
  simpl.
  destruct (truthy_cvalue (clpValue currencyValues)),
    (truthy_cvalue (usdValue currencyValues)),
    (truthy_cvalue (gbpValue currencyValues)); done.
Qed.

Lemma fixEach_outcomes (failedMovements : list movement) (s : store)
    (counts : fixCounts) :
  fixEach failedMovements counts s
    = Return (mkFixCounts (successCount counts)
                (failureCount counts + length failedMovements)) s
  ∨ fixEach failedMovements counts s
    = Throw (ReferenceError "sheetRowIndex") s.
Proof.
  revert counts. induction failedMovements as [|m l IH]; intros counts.
  - left. destruct counts as [a b]. simpl. by rewrite Nat.add_0_r.
  - cbn [fixEach]. run.
    destruct (fixMovementCurrencyConversion_outcomes (ID m) s) as [-> | ->];
      [| by right].
    destruct (IH (mkFixCounts (successCount counts)
                    (S (failureCount counts)))) as [-> | ->];
      [left | by right].
    simpl. do 2 f_equal. lia.
Qed.

(** The pass as a whole: it returns with no success counted and one
    failure for each movement with a failed value, the sheet untouched;
    or it is aborted by the error above, the sheet untouched as well. *)
Lemma fixAllFailedCurrencyConversions_outcomes (s : store) :
  fixAllFailedCurrencyConversions s
    = Return (mkFixCounts 0
                (length (getMovementsWithFailedCurrencyConversion s))) s
  ∨ fixAllFailedCurrencyConversions s
    = Throw (ReferenceError "sheetRowIndex") s.
Proof.
  unfold fixAllFailedCurrencyConversions. run.
  apply (fixEach_outcomes _ s (mkFixCounts 0 0)).
Qed.
End Repair.

(** C4 fails on the code: with one movement whose peso value failed, an
    amount of 50 US dollars and a conversion service that can now
    convert it, the repair of the movement throws (the method reads
    [sheetRowIndex], which it never declares), the pass is aborted by
    that error instead of returning its two counters, and the failed
    value stays in the sheet. *)
Lemma fixAllFailedCurrencyConversions_aborts :
  let s := [failedMovement 1 50] in
  getMovementsWithFailedCurrencyConversion
    (currencyConversionService := sampleService) s = s
  ∧ fixCurrencyConversion (CurrencyConversionService := sampleService)
      50 "USD"
    = Some (mkCurrencyValues (CNum (50 * (3 # 2))) (CNum 50)
              (CNum (50 * (3 # 2))))
  ∧ fixMovementCurrencyConversion
      (currencyConversionService := sampleService) 1 s
    = Throw (ReferenceError "sheetRowIndex") s
  ∧ fixAllFailedCurrencyConversions
      (currencyConversionService := sampleService) s
    = Throw (ReferenceError "sheetRowIndex") s.
Proof. split_and!; reflexivity. Qed.

(** ** Settlement matching (claim C3) *)

Lemma unique_ids_alter (f : movement → movement) (i : nat) (s : store) :
  (∀ m, ID (f m) = ID m) → unique_ids s → unique_ids (alter f i s).
Proof. intros Hf. unfold unique_ids. by rewrite ID_alter. Qed.

Lemma unique_ids_eq (s : store) (m1 m2 : movement) :
  unique_ids s → m1 ∈ s → m2 ∈ s → ID m1 = ID m2 → m1 = m2.
Proof.
  intros Hu [i Hi]%list_elem_of_lookup_1 [j Hj]%list_elem_of_lookup_1 Hid.
  assert (i = j) as ->.
  { eapply (NoDup_lookup _ i j (ID m1)); [exact Hu | |];
      rewrite list_lookup_fmap; [rewrite Hi | rewrite Hj]; simpl;
      by f_equal. }
  congruence.
Qed.

Lemma updateMovementSettledId_found (s : store) (k : nat) (m : movement)
    (settledMovementId : Z) :
  unique_ids s → s !! k = Some m →
  updateMovementSettledId (ID m) settledMovementId s
  = Return tt (alter (set_SETTLED_MOVEMENT_ID (Some settledMovementId)) k s).
Proof.
  intros Hu Hk. unfold updateMovementSettledId. run. unfold getAllMovements.
  by rewrite (findIndex_unique s k m).
Qed.

Lemma updateMovementStatus_found (s : store) (j : nat) (m : movement)
    (status : string) :
  unique_ids s → s !! j = Some m →
  updateMovementStatus (ID m) status s
  = Return tt (alter (set_STATUS status) j s).
Proof.
  intros Hu Hj. unfold updateMovementStatus. run. unfold getAllMovements.
  by rewrite (findIndex_unique s j m).
Qed.

Lemma pending_debit_filter (s : store) (m : movement) :
  m ∈ getMovementsPendingDirectSettlement s ↔ pending_debit m ∧ m ∈ s.
Proof.
  unfold getMovementsPendingDirectSettlement, getAllMovements, pending_debit.
  rewrite list_elem_of_filter, andb_true_iff, !String.eqb_eq. tauto.
Qed.

Section Settlement.
Variable matchDebitRepayment : repaymentData → list movement → option Z.

(** C3.  On a sheet with unique ids, let the matcher answer the id of
    [debit], a debit awaiting direct settlement at row [j], for the
    repayment [repaymentMovement] whose row stands at [k].  The run
    submits the repayment once and then, whatever the amounts, writes
    the id of the debit into the [settled_movement_id] of the
    repayment's row.  It sets the status of the debit to settled
    exactly when the percentage [(repaymentAmount / debitAmount) * 100],
    computed on the doubles of the two amounts, is at least 95, and
    changes nothing else; below 95 (at least 50 or not) the reference is
    the only change, so the debit stays pending. *)
Theorem settlement_thresholds (s : store) (k j : nat)
    (repaymentMovement repaymentRow debit : movement) :
  let pendingDebits := getMovementsPendingDirectSettlement s in
  let repaymentPercentage :=
    js_mul (js_div (AMOUNT repaymentMovement) (AMOUNT debit)) 100 in
  let referenced :=
    alter (set_SETTLED_MOVEMENT_ID (Some (ID debit))) k s in
  unique_ids s →
  s !! k = Some repaymentRow →
  s !! j = Some debit →
  pending_debit debit →
  ID debit ≠ 0%Z →
  matchDebitRepayment (repaymentDataOf repaymentMovement) pendingDebits
    = Some (ID debit) →
  ∃ s',
    processDebitRepaymentSettlement matchDebitRepayment
      (ID repaymentRow) repaymentMovement s
    = Return [mkMatcherCall (ID repaymentRow) repaymentMovement
                pendingDebits] s'
    ∧ (SETTLED_MOVEMENT_ID <$> s' !! k) = Some (Some (ID debit))
    ∧ ((STATUS <$> s' !! j) = Some STATUS_SETTLED
       ↔ js_ge repaymentPercentage 95 = true)
    ∧ (js_ge repaymentPercentage 95 = true →
       s' = alter (set_STATUS STATUS_SETTLED) j referenced)
    ∧ (js_ge repaymentPercentage 95 = false →
       s' = referenced
       ∧ (STATUS <$> s' !! j) = Some STATUS_PENDING_DIRECT_SETTLEMENT).
Proof.
  intros pendingDebits repaymentPercentage referenced
    Hu Hk Hj Hpending Hnz Hmatch.
  assert (debit ∈ pendingDebits) as Hin.
  { apply pending_debit_filter. split; [done |].
    by eapply list_elem_of_lookup_2. }
  assert (List.find (λ d, (ID d =? ID debit)%Z) pendingDebits = Some debit)
    as Hfind.
  { destruct (List.find _ pendingDebits) as [d|] eqn:E.
    - apply find_some in E as [Hd%list_elem_of_In Hid%Z.eqb_eq].
      f_equal. apply (unique_ids_eq s); try done.
      + by apply pending_debit_filter in Hd as [_ ?].
      + by eapply list_elem_of_lookup_2.
    - apply list_elem_of_In in Hin.
      pose proof (find_none _ _ E debit Hin) as Hf. simpl in Hf.
      by rewrite Z.eqb_refl in Hf. }
  assert (∃ row, referenced !! j = Some row ∧ ID row = ID debit
                 ∧ STATUS row = STATUS debit) as (row & Hrow & Hrid & Hrst).
  { unfold referenced. destruct (decide (k = j)) as [-> | Hne].
    - rewrite list_lookup_alter_eq, Hj. simpl. eauto.
    - rewrite list_lookup_alter_ne, Hj by done. eauto. }
  assert (unique_ids referenced) as Hu' by (by apply unique_ids_alter).
  assert (referenced !! k
          = Some (set_SETTLED_MOVEMENT_ID (Some (ID debit)) repaymentRow))
    as Hk'.
  { unfold referenced. by rewrite list_lookup_alter_eq, Hk. }
  unfold processDebitRepaymentSettlement. run.
  fold pendingDebits. fold (repaymentDataOf repaymentMovement).
  destruct pendingDebits as [|d0 ds] eqn:Hpd; [by inversion Hin |].
  cbn [length Nat.eqb]. rewrite <- Hpd in *. rewrite Hmatch.
  destruct (Z.eqb_spec (ID debit) 0) as [? | _]; [done |].
  rewrite Hfind, (updateMovementSettledId_found s k repaymentRow) by done.
  fold referenced. fold repaymentPercentage.
  destruct (js_ge repaymentPercentage 95) eqn:Hpercentage.
  - pose proof (updateMovementStatus_found referenced j row STATUS_SETTLED
                  Hu' Hrow) as Hupd.
    rewrite Hrid in Hupd. rewrite Hupd.
    eexists. split; [reflexivity |]. split_and!; try done.
    + destruct (decide (j = k)) as [-> | Hne].
      * rewrite list_lookup_alter_eq, Hk'. reflexivity.
      * rewrite list_lookup_alter_ne, Hk' by done. reflexivity.
    + by rewrite list_lookup_alter_eq, Hrow.
  - assert (STATUS <$> referenced !! j
            = Some STATUS_PENDING_DIRECT_SETTLEMENT) as Hst.
    { rewrite Hrow. simpl. rewrite Hrst. by destruct Hpending as [_ ->]. }
    exists referenced. split; [by destruct (js_ge _ 50) |].
    split_and!; try done.
    + by rewrite Hk'.
    + rewrite Hst. split; [intros [= H] | done].
Qed.
End Settlement.

(** The spec's examples: against a debit of 100, a repayment of 96
    settles the debit; one of 60 leaves it pending and still records the
    reference; one of 30 does the same. *)
Lemma settlement_thresholds_witness :
  (∀ amount,
     processDebitRepaymentSettlement sampleMatcher 2
       (sampleRepayment 2 amount) [sampleDebit 1; sampleRepayment 2 amount]
     = Return
         [mkMatcherCall 2 (sampleRepayment 2 amount) [sampleDebit 1]]
         (if js_ge (js_mul (js_div amount 100) 100) 95
          then [set_STATUS STATUS_SETTLED (sampleDebit 1);
                set_SETTLED_MOVEMENT_ID (Some 1%Z) (sampleRepayment 2 amount)]
          else [sampleDebit 1;
                set_SETTLED_MOVEMENT_ID (Some 1%Z)
                  (sampleRepayment 2 amount)]))
  ∧ js_ge (js_mul (js_div 96 100) 100) 95 = true
  ∧ js_ge (js_mul (js_div 60 100) 100) 95 = false
  ∧ js_ge (js_mul (js_div 30 100) 100) 95 = false.
Proof.
  split; [| by split_and!].
  intros amount.
  assert (unique_ids [sampleDebit 1; sampleRepayment 2 amount]) as Hu.
  { change (NoDup [1%Z; 2%Z]). apply NoDup_cons.
    split; [| apply NoDup_singleton]. by rewrite list_elem_of_singleton. }
  assert (pending_debit (sampleDebit 1)) as Hp by done.
  assert (ID (sampleDebit 1) ≠ 0%Z) as Hnz by done.
  destruct (settlement_thresholds sampleMatcher
              [sampleDebit 1; sampleRepayment 2 amount] 1%nat 0%nat
              (sampleRepayment 2 amount) (sampleRepayment 2 amount)
              (sampleDebit 1) Hu eq_refl eq_refl Hp Hnz eq_refl)
    as (s' & Heq & _ & _ & Hhigh & Hlow).
  change (AMOUNT (sampleRepayment 2 amount)) with amount in *.
  change (AMOUNT (sampleDebit 1)) with (100 : Q) in *.
  refine (eq_trans Heq _). f_equal.
  destruct (js_ge (js_mul (js_div amount 100) 100) 95).
  - by rewrite Hhigh.
  - by destruct Hlow as [-> _].
Defined.

(** The test of the code is not the test of the ratio against 0.95.
    A repayment of 2.09 against a debit of 2.20, 95 per cent of it,
    leaves the debit pending: the percentage comes out as
    94.999999999999986.  And a repayment whose amount is the double of
    1.9, which is below 1.9, settles a debit of 2 although the ratio of
    the two amounts is below 0.95: the percentage comes out as 95. *)
Lemma settlement_not_by_ratio :
  let debit (amount : Q) := set_AMOUNT amount (sampleDebit 1) in
  let referenced (amount : Q) :=
    set_SETTLED_MOVEMENT_ID (Some 1%Z) (sampleRepayment 2 amount) in
  let run (repaymentAmount debitAmount : Q) :=
    processDebitRepaymentSettlement sampleMatcher 2
      (sampleRepayment 2 repaymentAmount)
      [debit debitAmount; sampleRepayment 2 repaymentAmount] in
  let call (repaymentAmount debitAmount : Q) :=
    mkMatcherCall 2 (sampleRepayment 2 repaymentAmount)
      [debit debitAmount] in
  ((95 # 100 <= (209 # 100) / (220 # 100))%Q
   ∧ run (209 # 100) (220 # 100)
     = Return [call (209 # 100) (220 # 100)]
         [debit (220 # 100); referenced (209 # 100)]
   ∧ STATUS (debit (220 # 100)) = STATUS_PENDING_DIRECT_SETTLEMENT
   ∧ js_mul (js_div (209 # 100) (220 # 100)) 100
     = 94.999999999999986%float)
  ∧ (has_value (cell_double double_1_9) double_1_9
     ∧ (double_1_9 / 2 < 95 # 100)%Q
     ∧ run double_1_9 2%Q
       = Return [call double_1_9 2%Q]
           [set_STATUS STATUS_SETTLED (debit 2%Q); referenced double_1_9]
     ∧ js_mul (js_div double_1_9 2) 100 = 95%float).
Proof.
  split_and!; try (vm_compute; reflexivity).
  - vm_compute. discriminate.
Qed.

(** ** The order of a batch (claim C6) *)

Lemma sortCompare_keyOf (a b : batchItem) :
  is_Some (sortKey a) → is_Some (sortKey b) →
  sortCompare compareFn a b = (keyOf a - keyOf b)%Z.
Proof.
  intros [ka Ha] [kb Hb]. unfold sortCompare, compareFn, keyOf.
  by rewrite Ha, Hb.
Qed.

Lemma sort_insert_Permutation {A : Type} (cmp : A → A → option Z) (x : A)
    (l : list A) :
  sort_insert cmp x l ≡ₚ x :: l.
Proof.
  induction l as [|y l IH]; simpl; [done |].
  destruct (sortCompare cmp x y <=? 0)%Z; [done |].
  rewrite IH. apply Permutation_swap.
Qed.

Lemma Array_sort_Permutation {A : Type} (cmp : A → A → option Z)
    (l : list A) :
  Array_sort cmp l ≡ₚ l.
Proof.
  induction l as [|x l IH]; simpl; [done |].
  by rewrite sort_insert_Permutation, IH.
Qed.

Lemma sort_insert_sorted (x : batchItem) (l : list batchItem) :
  is_Some (sortKey x) → parsable l →
  StronglySorted (λ a b, (keyOf a ≤ keyOf b)%Z) l →
  StronglySorted (λ a b, (keyOf a ≤ keyOf b)%Z) (sort_insert compareFn x l).
Proof.
  intros Hx Hl Hs. induction Hs as [|y l Hs IH Hy]; simpl.
  - repeat constructor.
  - apply Forall_cons in Hl as [Hky Hl].
    rewrite sortCompare_keyOf by done.
    destruct (Z.leb_spec (keyOf x - keyOf y) 0) as [Hle | Hgt].
    + constructor; [by constructor |].
      constructor; [lia |]. eapply Forall_impl; [exact Hy |].
      intros z Hz. simpl in Hz. lia.
    + constructor; [by apply IH |].
      rewrite sort_insert_Permutation. constructor; [lia | done].
Qed.

Lemma parsable_Permutation (l l' : list batchItem) :
  l ≡ₚ l' → parsable l → parsable l'.
Proof. unfold parsable. by intros ->. Qed.

Lemma Array_sort_sorted (l : list batchItem) :
  parsable l →
  StronglySorted (λ a b, (keyOf a ≤ keyOf b)%Z) (Array_sort compareFn l).
Proof.
  induction l as [|x l IH]; intros Hl; simpl; [constructor |].
  apply Forall_cons in Hl as [Hx Hl]. apply sort_insert_sorted; try done.
  - eapply parsable_Permutation; [| exact Hl].
    symmetry. apply Array_sort_Permutation.
  - by apply IH.
Qed.

(** Items of equal key keep the order they had in the batch. *)
Lemma sort_insert_stable (key : Z) (x : batchItem) (l : list batchItem) :
  is_Some (sortKey x) → parsable l →
  filter (λ a, keyOf a = key) (sort_insert compareFn x l)
  = filter (λ a, keyOf a = key) (x :: l).
Proof.
  intros Hx Hl. induction l as [|y l IH]; simpl; [done |].
  apply Forall_cons in Hl as [Hy Hl].
  rewrite sortCompare_keyOf by done.
  destruct (Z.leb_spec (keyOf x - keyOf y) 0) as [Hle | Hgt]; [done |].
  rewrite !filter_cons. rewrite filter_cons in IH.
  destruct (decide (keyOf y = key)) as [Hyk | Hyk];
    destruct (decide (keyOf x = key)) as [Hxk | Hxk]; try lia;
    rewrite IH by done; try done.
Qed.

Lemma Array_sort_stable (key : Z) (l : list batchItem) :
  parsable l →
  filter (λ a, keyOf a = key) (Array_sort compareFn l)
  = filter (λ a, keyOf a = key) l.
Proof.
  induction l as [|x l IH]; intros Hl; simpl; [done |].
  apply Forall_cons in Hl as [Hx Hl]. rewrite sort_insert_stable; try done.
  - rewrite !filter_cons, IH by done. done.
  - eapply parsable_Permutation; [| exact Hl].
    symmetry. apply Array_sort_Permutation.
Qed.

(** The rows a batch leaves in the sheet are the first rows of the batch
    in the order of the comparator: all of them when it returns, those
    before the first clash of ids when it throws. *)
Lemma forEach_addMovement_prefix (items : list batchItem) (s : store) :
  ∃ n, final_store (forEach items (λ item, addMovement (row item)) s)
       = s ++ (row <$> take n items)
     ∧ (∀ s', forEach items (λ item, addMovement (row item)) s = Return tt s' →
          s' = s ++ (row <$> items)).
Proof.
  revert s. induction items as [|item items IH]; intros s.
  - exists 0%nat. simpl. rewrite app_nil_r. split; [done |].
    intros s'. run. by intros [= <-].
  - cbn [forEach]. run. rewrite addMovement_eq.
    destruct (idExists (ID (row item)) s).
    + exists 0%nat. simpl. by rewrite app_nil_r.
    + destruct (IH (s ++ [row item])) as (n & Hn & Hret).
      exists (S n). csimpl. rewrite Hn, <- app_assoc. split; [done |].
      intros s' Hs'. rewrite (Hret s' Hs'), <- app_assoc. done.
Qed.

(** C6, as the code has it.  When every timestamp of the batch is absent
    or parses, the batch is inserted in ascending order of the time
    parsed, an absent timestamp counting as time 0, and items of equal
    time in the order of the batch: the rows it appends are those of the
    batch so ordered, all of them when it returns and the first of them
    when an id clashes. *)
Theorem addMovementsBatch_order (movements : list batchItem) (s : store) :
  parsable movements →
  let sortedMovements := Array_sort compareFn movements in
  sortedMovements ≡ₚ movements
  ∧ StronglySorted (λ a b, (keyOf a ≤ keyOf b)%Z) sortedMovements
  ∧ (∀ key, filter (λ a, keyOf a = key) sortedMovements
            = filter (λ a, keyOf a = key) movements)
  ∧ (∃ n, final_store (addMovementsBatch movements s)
          = s ++ (row <$> take n sortedMovements))
  ∧ (∀ s', addMovementsBatch movements s = Return tt s' →
       s' = s ++ (row <$> sortedMovements)).
Proof.
  intros Hp sortedMovements. split_and!.
  - apply Array_sort_Permutation.
  - by apply Array_sort_sorted.
  - intros key. by apply Array_sort_stable.
  - destruct (forEach_addMovement_prefix sortedMovements s) as (n & Hn & _).
    by exists n.
  - by destruct (forEach_addMovement_prefix sortedMovements s) as (n & _ & H).
Qed.

(** The spec's example: T3, T1, T2 go in as T1, T2, T3. *)
Lemma addMovementsBatch_order_witness :
  let batch := [sampleItem (TsText (Some 3000%Z)) 1;
                sampleItem (TsText (Some 1000%Z)) 2;
                sampleItem (TsText (Some 2000%Z)) 3] in
  addMovementsBatch batch []
  = Return tt [sampleMovement 2 50; sampleMovement 3 50; sampleMovement 1 50]
  ∧ StronglySorted (λ a b, (keyOf a ≤ keyOf b)%Z)
      (Array_sort compareFn batch).
Proof.
  split; [reflexivity |].
  apply (addMovementsBatch_order _ []).
  repeat constructor; by eexists.
Defined.

(** C6 as stated fails: a movement without a timestamp is keyed as the
    epoch, so a movement dated before 1970 (here one day before) is
    inserted ahead of it. *)
Lemma addMovementsBatch_missing_not_first :
  let missing := sampleItem TsAbsent 1 in
  let early := sampleItem (TsText (Some (-86400000)%Z)) 2 in
  Array_sort compareFn [missing; early] = [early; missing]
  ∧ addMovementsBatch [missing; early] []
    = Return tt [row early; row missing].
Proof. split; reflexivity. Qed.

(** With a timestamp that does not parse the comparator answers [NaN]
    against every other item and is no order at all: here, under the
    stable sort above, T3 stays ahead of T1. *)
Lemma Array_sort_unparsable :
  let t3 := sampleItem (TsText (Some 3000%Z)) 1 in
  let bad := sampleItem (TsText None) 2 in
  let t1 := sampleItem (TsText (Some 1000%Z)) 3 in
  compareFn t3 bad = None ∧ compareFn bad t1 = None
  ∧ Array_sort compareFn [t3; bad; t1] = [t3; bad; t1].
Proof. split_and!; reflexivity. Qed.

(** ** Which movements reach the matcher (claim C10) *)

Lemma needs_category_analysis_filter (s : store) (m : movement) :
  m ∈ getMovementsNeedingCategoryAnalysis s
  ↔ needs_category_analysis m ∧ m ∈ s.
Proof.
  unfold getMovementsNeedingCategoryAnalysis, getAllMovements,
    needs_category_analysis.
  rewrite list_elem_of_filter, !andb_true_iff, orb_true_iff,
    !negb_true_iff, String.eqb_eq, String.eqb_neq.
  tauto.
Qed.

Lemma updateMovementSettledId_returns (movementId settledMovementId : Z)
    (s : store) :
  ∃ s', updateMovementSettledId movementId settledMovementId s = Return tt s'.
Proof.
  unfold updateMovementSettledId. run.
  destruct (findIndex _ _) as [[i m]|]; eauto.
Qed.

Lemma updateMovementStatus_returns (movementId : Z) (status : string)
    (s : store) :
  ∃ s', updateMovementStatus movementId status s = Return tt s'.
Proof.
  unfold updateMovementStatus. run.
  destruct (findIndex _ _) as [[i m]|]; eauto.
Qed.

Section MatcherCalls.
Context {currencyConversionService : CurrencyConversionService}.
Variable analyzeCategory : string → movementData → option analysisResult.
Variable matchDebitRepayment : repaymentData → list movement → option Z.

(** A settlement run returns, having called the matcher at most once,
    for the repayment it was given. *)
Lemma processDebitRepaymentSettlement_calls (repaymentMovementId : Z)
    (repaymentMovement : movement) (s : store) :
  ∃ calls s',
    processDebitRepaymentSettlement matchDebitRepayment repaymentMovementId
      repaymentMovement s = Return calls s'
    ∧ ∀ c, c ∈ calls →
        call_repaymentMovementId c = repaymentMovementId
        ∧ call_repaymentMovement c = repaymentMovement.
Proof.
  unfold processDebitRepaymentSettlement. run.
  set (pendingDebits := getMovementsPendingDirectSettlement s).
  destruct (length pendingDebits =? 0)%nat.
  { eexists _, _. split; [reflexivity |]. by intros c ?%elem_of_nil. }
  assert (∀ s0, ∃ calls s',
    Return (A:=list matcherCall)
      [mkMatcherCall repaymentMovementId repaymentMovement pendingDebits] s0
    = Return calls s'
    ∧ ∀ c, c ∈ calls →
        call_repaymentMovementId c = repaymentMovementId
        ∧ call_repaymentMovement c = repaymentMovement) as Hdone.
  { intros s0. eexists _, _. split; [reflexivity |].
    by intros c ->%list_elem_of_singleton. }
  destruct (matchDebitRepayment _ pendingDebits) as [d|]; [| apply Hdone].
  destruct (d =? 0)%Z; [apply Hdone |].
  destruct (find _ pendingDebits) as [debit|]; [| apply Hdone].
  destruct (updateMovementSettledId_returns repaymentMovementId d s)
    as (s1 & ->).
  destruct (js_ge _ 95).
  - destruct (updateMovementStatus_returns d STATUS_SETTLED s1) as (s2 & ->).
    apply Hdone.
  - destruct (js_ge _ 50); apply Hdone.
Qed.

(** One turn of the loop returns, and calls the matcher only for the
    movement of the turn, only when it is a debit repayment, and only
    when the classifier gave an answer for it. *)
Lemma analyzeMovement_calls (movement : movement) (s : store) :
  ∃ calls s',
    analyzeMovement analyzeCategory matchDebitRepayment movement s
      = Return calls s'
    ∧ ∀ c, c ∈ calls →
        call_repaymentMovementId c = ID movement
        ∧ call_repaymentMovement c = movement
        ∧ TYPE movement = MOVEMENT_TYPES_DEBIT_REPAYMENT
        ∧ is_Some (analyzeCategory
                     (fullDescription (USER_DESCRIPTION movement)
                        (COMMENT movement))
                     (movementDataOf movement)).
Proof.
  unfold analyzeMovement. run. fold (movementDataOf movement).
  assert (∀ s0, ∃ calls s',
    Return (A:=list matcherCall) [] s0 = Return calls s'
    ∧ ∀ c, c ∈ calls →
        call_repaymentMovementId c = ID movement
        ∧ call_repaymentMovement c = movement
        ∧ TYPE movement = MOVEMENT_TYPES_DEBIT_REPAYMENT
        ∧ is_Some (analyzeCategory
                     (fullDescription (USER_DESCRIPTION movement)
                        (COMMENT movement))
                     (movementDataOf movement))) as Hnone.
  { intros s0. eexists _, _. split; [reflexivity |].
    by intros c ?%elem_of_nil. }
  destruct (analyzeCategory _ (movementDataOf movement)) as [a|] eqn:Ha;
    [| apply Hnone].
  match goal with
  | |- ∃ calls s', match match ?first s with _ => _ end with _ => _ end
                   = _ ∧ _ =>
      destruct (first s) as [[] s1 | e s1]
  end; [| apply Hnone].
  destruct (String.eqb_spec (TYPE movement) MOVEMENT_TYPES_DEBIT_REPAYMENT)
    as [Htype | _]; [| apply Hnone].
  destruct (processDebitRepaymentSettlement_calls (ID movement) movement s1)
    as (calls & s2 & -> & Hcalls).
  exists calls, s2. split; [reflexivity |].
  intros c Hc. destruct (Hcalls c Hc) as [-> ->]. by split_and!.
Qed.

Lemma analyzeEach_calls (uncategorizedMovements : list movement) (s : store) :
  ∃ calls s',
    analyzeEach analyzeCategory matchDebitRepayment uncategorizedMovements s
      = Return calls s'
    ∧ ∀ c, c ∈ calls →
        call_repaymentMovement c ∈ uncategorizedMovements
        ∧ call_repaymentMovementId c = ID (call_repaymentMovement c)
        ∧ TYPE (call_repaymentMovement c) = MOVEMENT_TYPES_DEBIT_REPAYMENT
        ∧ is_Some (analyzeCategory
                     (fullDescription
                        (USER_DESCRIPTION (call_repaymentMovement c))
                        (COMMENT (call_repaymentMovement c)))
                     (movementDataOf (call_repaymentMovement c))).
Proof.
  revert s. induction uncategorizedMovements as [|m l IH]; intros s.
  - eexists _, _. split; [reflexivity |]. by intros c ?%elem_of_nil.
  - cbn [analyzeEach]. run.
    destruct (analyzeMovement_calls m s) as (calls & s1 & -> & Hcalls).
    destruct (IH s1) as (calls' & s2 & -> & Hcalls').
    eexists _, _. split; [reflexivity |].
    intros c [Hc | Hc]%elem_of_app.
    + destruct (Hcalls c Hc) as (Hid & Hm & Ht & Ha). rewrite Hm.
      split_and!; try done. apply elem_of_cons. by left.
    + destruct (Hcalls' c Hc) as (Hin & Hrest).
      split; [| done]. apply elem_of_cons. by right.
Qed.

(** C10.  A classification run always returns, and every call it makes
    to the settlement matcher is for a movement of the sheet as read
    at the start of the run that has a description by the user and no
    category, that is a debit repayment, and for which the classifier
    gave an answer in this run.  Hence a debit repayment that has a
    category, that has no description, or whose classification came
    back empty is not submitted to the matcher. *)
Theorem matcher_called_only_after_analysis (s : store) :
  ∃ calls s',
    processUncategorizedMovements analyzeCategory matchDebitRepayment s
      = Return calls s'
    ∧ (∀ c, c ∈ calls →
         let movement := call_repaymentMovement c in
         movement ∈ s
         ∧ call_repaymentMovementId c = ID movement
         ∧ needs_category_analysis movement
         ∧ TYPE movement = MOVEMENT_TYPES_DEBIT_REPAYMENT
         ∧ is_Some (analyzeCategory
                      (fullDescription (USER_DESCRIPTION movement)
                         (COMMENT movement))
                      (movementDataOf movement)))
    ∧ (∀ movement,
         ¬ needs_category_analysis movement
         ∨ analyzeCategory
             (fullDescription (USER_DESCRIPTION movement)
                (COMMENT movement))
             (movementDataOf movement) = None →
         ∀ c, c ∈ calls → call_repaymentMovement c ≠ movement).
Proof.
  assert (∃ calls s',
    processUncategorizedMovements analyzeCategory matchDebitRepayment s
      = Return calls s'
    ∧ (∀ c, c ∈ calls →
         let movement := call_repaymentMovement c in
         movement ∈ s
         ∧ call_repaymentMovementId c = ID movement
         ∧ needs_category_analysis movement
         ∧ TYPE movement = MOVEMENT_TYPES_DEBIT_REPAYMENT
         ∧ is_Some (analyzeCategory
                      (fullDescription (USER_DESCRIPTION movement)
                         (COMMENT movement))
                      (movementDataOf movement))))
    as (calls & s' & Heq & Hcalls).
  { unfold processUncategorizedMovements. run.
    destruct (length (getMovementsNeedingCategoryAnalysis s) =? 0)%nat.
    - eexists _, _. split; [reflexivity |]. by intros c ?%elem_of_nil.
    - destruct (analyzeEach_calls (getMovementsNeedingCategoryAnalysis s) s)
        as (calls & s' & -> & Hcalls).
      exists calls, s'. split; [reflexivity |].
      intros c Hc. destruct (Hcalls c Hc) as (Hin & Hid & Ht & Ha).
      apply needs_category_analysis_filter in Hin as [Hn Hin].
      by split_and!. }
  exists calls, s'. split_and!; try done.
  intros movement Hnot c Hc <-.
  destruct (Hcalls c Hc) as (_ & _ & Hn & _ & [a Ha]).
  destruct Hnot as [Hnot | Hnone]; [done | congruence].
Qed.
End MatcherCalls.

(** ** Idempotent ingestion (claim C9) *)

Lemma getExistingSourceIds_monzo (key : string) (s : store) :
  key ∈ getExistingSourceIds (Some SOURCES_MONZO) s
  ↔ truthy key = true
    ∧ ∃ m, m ∈ s ∧ SOURCE m = SOURCES_MONZO ∧ SOURCE_ID m = key.
Proof.
  unfold getExistingSourceIds, getAllMovements.
  destruct s as [|m0 s]; cbn [length Nat.eqb].
  - split; [by intros ?%not_elem_of_empty |].
    by intros (_ & m & ?%elem_of_nil & _).
  - change (truthy SOURCES_MONZO) with true. cbv iota.
    rewrite elem_of_list_to_set, list_elem_of_fmap. split.
    + intros (m & -> & (Hm & Hin)%list_elem_of_filter).
      apply andb_true_iff in Hm as [Hs%String.eqb_eq Ht]. eauto.
    + intros (Ht & m & Hin & Hs & <-). exists m. split; [done |].
      apply list_elem_of_filter. split; [| done].
      apply andb_true_iff. by rewrite String.eqb_eq.
Qed.

Lemma getExistingAccountingSystemIds_elem (key : string) (s : store) :
  key ∈ getExistingAccountingSystemIds s
  ↔ truthy key = true ∧ ∃ m, m ∈ s ∧ ACCOUNTING_SYSTEM_ID m = key.
Proof.
  unfold getExistingAccountingSystemIds.
  destruct s as [|m0 s]; cbn [length Nat.eqb].
  - split; [by intros ?%not_elem_of_empty |].
    by intros (_ & m & ?%elem_of_nil & _).
  - rewrite elem_of_list_to_set, list_elem_of_filter, list_elem_of_fmap.
    split.
    + intros (Ht & m & -> & Hin). eauto.
    + intros (Ht & m & Hin & <-). eauto.
Qed.

(** A batch that returns has appended its rows, in the order of the
    comparator. *)
Lemma addMovementsBatch_returns (movements : list batchItem) (s s' : store) :
  addMovementsBatch movements s = Return tt s' →
  s' = s ++ (row <$> Array_sort compareFn movements).
Proof.
  unfold addMovementsBatch.
  destruct (forEach_addMovement_prefix (Array_sort compareFn movements) s)
    as (n & _ & H). apply H.
Qed.

Lemma filter_none {A : Type} (P : A → Prop) `{∀ x, Decision (P x)}
    (l : list A) :
  (∀ x, x ∈ l → ¬ P x) → filter P l = [].
Proof.
  induction l as [|x l IH]; intros Hl; [done |].
  rewrite filter_cons_False.
  - apply IH. intros y Hy. apply Hl, elem_of_cons. by right.
  - apply Hl, elem_of_cons. by left.
Qed.

(** A batch whose rows carry distinct ids, none of them in the sheet, is
    inserted whole. *)
Lemma forEach_addMovement_fresh (items : list batchItem) (s : store) :
  NoDup (batchIds items) →
  Forall (λ n, n ∉ ID <$> s) (batchIds items) →
  forEach items (λ item, addMovement (row item)) s
  = Return tt (s ++ (row <$> items)).
Proof.
  revert s. induction items as [|item items IH]; intros s Hnd Hnew.
  - run. by rewrite app_nil_r.
  - unfold batchIds in *. csimpl in *.
    apply NoDup_cons in Hnd as [Hnin Hnd].
    apply Forall_cons in Hnew as [H0 Hnew].
    cbn [forEach]. run. rewrite addMovement_eq.
    apply idExists_false in H0 as ->.
    rewrite IH, <- app_assoc; [done | done |].
    apply Forall_forall. intros n Hn.
    rewrite fmap_app, elem_of_app.
    intros [Hin | ->%list_elem_of_singleton]; [| done].
    by eapply Forall_forall in Hnew.
Qed.

Lemma addMovementsBatch_fresh (movements : list batchItem) (s : store) :
  NoDup (batchIds movements) →
  Forall (λ n, (getNextId s ≤ n)%Z) (batchIds movements) →
  addMovementsBatch movements s
  = Return tt (s ++ (row <$> Array_sort compareFn movements)).
Proof.
  intros Hnd Hge. unfold addMovementsBatch.
  apply forEach_addMovement_fresh; unfold batchIds in *.
  - by rewrite Array_sort_Permutation.
  - rewrite Array_sort_Permutation. eapply Forall_impl; [exact Hge |].
    intros n Hn (m & -> & Hm)%list_elem_of_fmap.
    apply getNextId_above in Hm. simpl in Hn. lia.
Qed.

Lemma count_source_rows (source key : string) (items : list batchItem) :
  Forall (λ item, SOURCE (row item) = source) items →
  length (filter (λ m, SOURCE m = source ∧ SOURCE_ID m = key)
            (row <$> items))
  = length (filter (λ x, x = key)
              ((λ item, SOURCE_ID (row item)) <$> items)).
Proof.
  induction 1 as [|item l Hitem _ IH]; [done |]. csimpl.
  rewrite !filter_cons.
  destruct (decide (SOURCE (row item) = source
                    ∧ SOURCE_ID (row item) = key)) as [[_ Hk] | Hn];
    destruct (decide (SOURCE_ID (row item) = key)) as [Hk' | Hk'];
    simpl; rewrite ?IH; try done.
  destruct Hn. by split.
Qed.

Lemma count_fmap {A : Type} (f : A → string) (key : string) (l : list A) :
  length (filter (λ x, f x = key) l)
  = length (filter (λ k, k = key) (f <$> l)).
Proof.
  induction l as [|x l IH]; [done |]. csimpl. rewrite !filter_cons.
  destruct (decide (f x = key)); simpl; by rewrite IH.
Qed.

(** The records of a feed that a run takes for new are those whose key
    is not among the keys read from the sheet: none under a key the
    sheet held, and every one under any other key. *)
Lemma count_new_keys {A : Type} (f : A → string) (key : string)
    (existing : gset string) (l : list A) :
  length (filter (λ k, k = key) (f <$> filter (λ x, f x ∉ existing) l))
  = if decide (key ∈ existing) then 0%nat
    else length (filter (λ x, f x = key) l).
Proof.
  rewrite <- count_fmap, list_filter_filter.
  destruct (decide (key ∈ existing)) as [Hin | Hnin].
  - rewrite filter_none; [done |]. by intros x _ [-> Hx].
  - f_equal. apply list_filter_iff. intros x. split; [by intros [? _] |].
    by intros ->.
Qed.

Section MonzoIngestion.
Context {currencyConversionService : CurrencyConversionService}.
Variable convertTransactionToMovement : monzoTransaction → Z → option movement.

(** What is assumed of the client's converter: the movement it makes is
    keyed by the id of the transaction, and whether it can convert a
    transaction does not depend on the id offered for the row. *)
Hypothesis convert_sourceId : ∀ transaction nextId movement,
  convertTransactionToMovement transaction nextId = Some movement →
  SOURCE_ID movement = id transaction.
Hypothesis convert_defined : ∀ transaction nextId nextId',
  convertTransactionToMovement transaction nextId = None →
  convertTransactionToMovement transaction nextId' = None.

Lemma createMonzoMovementRow_Some (transaction : monzoTransaction)
    (nextId : Z) :
  converts convertTransactionToMovement transaction →
  ∃ movementRow,
    createMonzoMovementRow convertTransactionToMovement transaction nextId
      = Some movementRow
    ∧ SOURCE movementRow = SOURCES_MONZO
    ∧ SOURCE_ID movementRow = id transaction.
Proof.
  intros [mv0 H0]. unfold createMonzoMovementRow.
  destruct (convertTransactionToMovement transaction nextId) as [mv|] eqn:E.
  - eexists. split; [reflexivity |]. split; [done |]. simpl. by eapply convert_sourceId.
  - apply (convert_defined _ _ 0%Z) in E. congruence.
Qed.

Lemma createMonzoMovementRow_None (transaction : monzoTransaction)
    (nextId : Z) :
  ¬ converts convertTransactionToMovement transaction →
  createMonzoMovementRow convertTransactionToMovement transaction nextId
    = None.
Proof.
  intros Hn. unfold createMonzoMovementRow.
  destruct (convertTransactionToMovement transaction nextId) as [mv|] eqn:E;
    [| done].
  destruct Hn. unfold converts.
  destruct (convertTransactionToMovement transaction 0) as [mv0|] eqn:E0;
    [by eexists |].
  apply (convert_defined _ _ nextId) in E0. congruence.
Qed.

(** The keys of the rows of a batch are the ids of the transactions that
    convert, in order; all its rows are from Monzo. *)
Lemma monzoBatch_keys (newTransactions : list monzoTransaction) (nextId : Z) :
  (λ item, SOURCE_ID (row item))
    <$> monzoBatch convertTransactionToMovement newTransactions nextId
  = id <$> filter (converts convertTransactionToMovement) newTransactions
  ∧ Forall (λ item, SOURCE (row item) = SOURCES_MONZO)
      (monzoBatch convertTransactionToMovement newTransactions nextId).
Proof.
  revert nextId. induction newTransactions as [|t l IH]; intros nextId;
    [done |].
  cbn [monzoBatch]. rewrite filter_cons.
  destruct (decide (converts convertTransactionToMovement t)) as [Hc | Hc].
  - destruct (createMonzoMovementRow_Some t nextId Hc)
      as (r & -> & Hs & Hk).
    destruct (IH (nextId + 1)%Z) as [IH1 IH2]. csimpl. rewrite IH1, Hk.
    split; [done |]. by constructor.
  - rewrite createMonzoMovementRow_None by done. apply IH.
Qed.

(** The run, once the connection test has passed. *)
Lemma processMonzoTransactions_eq (transactions : list monzoTransaction)
    (s : store) :
  let newTransactions :=
    filter (λ t, id t ∉ getExistingSourceIds (Some SOURCES_MONZO) s)
      transactions in
  let batchMovements :=
    monzoBatch convertTransactionToMovement newTransactions (getNextId s) in
  processMonzoTransactions convertTransactionToMovement true transactions s
  = if (length batchMovements =? 0)%nat then Return tt s
    else addMovementsBatch batchMovements s.
Proof.
  cbv zeta. unfold processMonzoTransactions. run.
  destruct transactions as [|t0 l]; [done |].
  cbn [length Nat.eqb].
  destruct (filter _ (t0 :: l)) as [|n0 nl]; [done |].
  cbn [length Nat.eqb].
  destruct (monzoBatch _ (n0 :: nl) _) as [|b0 bl]; [done |].
  cbn [length Nat.eqb Nat.ltb Nat.leb].
  by destruct (addMovementsBatch (b0 :: bl) s).
Qed.

(** The sheet a run that returns leaves: the rows of its batch, appended
    in the order of the comparator. *)
Lemma processMonzoTransactions_returns
    (transactions : list monzoTransaction) (s s1 : store) :
  processMonzoTransactions convertTransactionToMovement true transactions s
    = Return tt s1 →
  ∃ batchMovements,
    s1 = s ++ (row <$> batchMovements)
    ∧ batchMovements
      ≡ₚ monzoBatch convertTransactionToMovement
           (filter (λ t, id t ∉ getExistingSourceIds (Some SOURCES_MONZO) s)
              transactions) (getNextId s).
Proof.
  rewrite processMonzoTransactions_eq.
  set (batch := monzoBatch _ _ _).
  destruct (length batch =? 0)%nat eqn:E.
  - intros [= <-]. exists []. rewrite app_nil_r. split; [done |].
    apply Nat.eqb_eq in E. by destruct batch.
  - intros ->%addMovementsBatch_returns. eexists. split; [reflexivity |].
    apply Array_sort_Permutation.
Qed.
(** A second run over the same transactions finds every key it could
    insert already in the sheet, and inserts nothing. *)
Lemma processMonzoTransactions_again (transactions : list monzoTransaction)
    (s s1 : store) :
  Forall (λ t, truthy (id t) = true) transactions →
  processMonzoTransactions convertTransactionToMovement true transactions s
    = Return tt s1 →
  processMonzoTransactions convertTransactionToMovement true transactions s1
    = Return tt s1.
Proof.
  intros Hkeys (batch & -> & Hbatch)%processMonzoTransactions_returns.
  rewrite processMonzoTransactions_eq.
  set (s1 := s ++ (row <$> batch)).
  assert (filter (converts convertTransactionToMovement)
            (filter (λ t, id t ∉ getExistingSourceIds (Some SOURCES_MONZO) s1)
               transactions) = []) as Hnone.
  { rewrite list_filter_filter. apply filter_none.
    intros t Ht [Hc Hnew]. apply Hnew, getExistingSourceIds_monzo.
    split; [by eapply Forall_forall in Hkeys |].
    destruct (decide (id t ∈ getExistingSourceIds (Some SOURCES_MONZO) s))
      as [Hold | Hfresh].
    - apply getExistingSourceIds_monzo in Hold as (_ & m & Hm & Hs & Hk).
      exists m. split; [| done]. apply elem_of_app. by left.
    - assert (id t ∈ (λ item, SOURCE_ID (row item)) <$> batch) as Hin.
      { rewrite Hbatch, (proj1 (monzoBatch_keys _ _)).
        apply list_elem_of_fmap_2, list_elem_of_filter. split; [done |].
        by apply list_elem_of_filter. }
      apply list_elem_of_fmap in Hin as (item & Hk & Hitem).
      exists (row item). split_and!; [| | done].
      + apply elem_of_app. right. by apply list_elem_of_fmap_2.
      + pose proof (proj2 (monzoBatch_keys
          (filter (λ t, id t ∉ getExistingSourceIds (Some SOURCES_MONZO) s)
             transactions) (getNextId s))) as Hsrc.
        rewrite <- Hbatch in Hsrc.
        by eapply Forall_forall in Hsrc. }
  assert (monzoBatch convertTransactionToMovement
            (filter (λ t, id t ∉ getExistingSourceIds (Some SOURCES_MONZO) s1)
               transactions) (getNextId s1) = []) as ->; [| done].
  apply (fmap_nil_inv (λ item, SOURCE_ID (row item))).
  by rewrite (proj1 (monzoBatch_keys _ _)), Hnone.
Qed.

(** The rows a run adds under a key: none when the sheet held the key,
    and otherwise one for every transaction of the feed with that key
    that the client converts. *)
Lemma processMonzoTransactions_count (transactions : list monzoTransaction)
    (s s1 : store) (key : string) :
  processMonzoTransactions convertTransactionToMovement true transactions s
    = Return tt s1 →
  length (movementsWithSourceId SOURCES_MONZO key s1)
  = (length (movementsWithSourceId SOURCES_MONZO key s)
     + if decide (key ∈ getExistingSourceIds (Some SOURCES_MONZO) s)
       then 0
       else length (filter (λ t, id t = key
                                 ∧ converts convertTransactionToMovement t)
                      transactions))%nat.
Proof.
  intros (batch & -> & Hbatch)%processMonzoTransactions_returns.
  set (existing := getExistingSourceIds (Some SOURCES_MONZO) s) in *.
  set (new := filter (λ t, id t ∉ existing) transactions) in *.
  destruct (monzoBatch_keys new (getNextId s)) as [Hkeys Hsrc].
  unfold movementsWithSourceId. rewrite filter_app, length_app. f_equal.
  rewrite Hbatch, (count_source_rows _ key _ Hsrc), Hkeys.
  unfold new. rewrite list_filter_filter.
  rewrite (list_filter_iff _
             (λ t, (id t ∉ existing)
                   ∧ converts convertTransactionToMovement t))
    by (intros t; tauto).
  rewrite <- list_filter_filter, count_new_keys.
  destruct (decide (key ∈ existing)); [done |].
  by rewrite list_filter_filter.
Qed.

(** With a client that gives the movement the row id it is offered, the
    ids of a batch count up from the next id, and the run returns. *)
Hypothesis convert_id : ∀ transaction nextId movement,
  convertTransactionToMovement transaction nextId = Some movement →
  ID movement = nextId.

Lemma monzoBatch_ids (newTransactions : list monzoTransaction) (nextId : Z) :
  Forall (λ n, (nextId ≤ n)%Z)
    (batchIds (monzoBatch convertTransactionToMovement newTransactions nextId))
  ∧ NoDup
      (batchIds (monzoBatch convertTransactionToMovement newTransactions nextId)).
Proof.
  revert nextId. induction newTransactions as [|t l IH]; intros nextId.
  - split; constructor.
  - cbn [monzoBatch]. unfold createMonzoMovementRow.
    destruct (convertTransactionToMovement t nextId) as [mv|] eqn:E;
      [| apply IH].
    destruct (IH (nextId + 1)%Z) as [Hge Hnd]. unfold batchIds in *. csimpl.
    rewrite (convert_id _ _ _ E). split.
    + constructor; [lia |]. eapply Forall_impl; [exact Hge |].
      intros n Hn. simpl in Hn. lia.
    + apply NoDup_cons. split; [| done]. intros Hin.
      eapply Forall_forall in Hge; [| exact Hin]. simpl in Hge. lia.
Qed.

Lemma processMonzoTransactions_total (transactions : list monzoTransaction)
    (s : store) :
  ∃ s1,
    processMonzoTransactions convertTransactionToMovement true transactions s
    = Return tt s1.
Proof.
  rewrite processMonzoTransactions_eq.
  set (batch := monzoBatch _ _ _).
  destruct (length batch =? 0)%nat; [by eexists |].
  destruct (monzoBatch_ids
              (filter (λ t, id t ∉ getExistingSourceIds (Some SOURCES_MONZO) s)
                 transactions) (getNextId s)) as [Hge Hnd].
  rewrite addMovementsBatch_fresh by done. by eexists.
Qed.
End MonzoIngestion.

Section SplitwiseIngestion.
Context {currencyConversionService : CurrencyConversionService}.

Lemma createSplitwiseMovementRow_outcome
    (splitwiseMovement : splitwiseMovement) (nextId : Z) (s : store) :
  (∃ movementRow,
     createSplitwiseMovementRow splitwiseMovement nextId s
       = Return movementRow s
     ∧ ACCOUNTING_SYSTEM_ID movementRow = splitwiseId splitwiseMovement)
  ∨ ∃ e, createSplitwiseMovementRow splitwiseMovement nextId s = Throw e s.
Proof.
  unfold createSplitwiseMovementRow.
  destruct (date splitwiseMovement) as [|[timestamp|]];
    [right; by eexists | | right; by eexists].
  left. destruct (bool_decide (paidBy splitwiseMovement ≠ None)),
    (bool_decide (owedBy splitwiseMovement ≠ None)); by eexists.
Qed.

(** The batch is built without touching the sheet; when no date is
    invalid, its rows are keyed by the ids of the movements, in order. *)
Lemma splitwiseBatch_outcome (newMovements : list splitwiseMovement)
    (nextId : Z) (s : store) :
  (∃ batchMovements,
     splitwiseBatch newMovements nextId s = Return batchMovements s
     ∧ (λ item, ACCOUNTING_SYSTEM_ID (row item)) <$> batchMovements
       = splitwiseId <$> newMovements)
  ∨ ∃ e, splitwiseBatch newMovements nextId s = Throw e s.
Proof.
  revert nextId. induction newMovements as [|m l IH]; intros nextId.
  - left. by exists [].
  - cbn [splitwiseBatch]. run.
    destruct (createSplitwiseMovementRow_outcome m nextId s)
      as [(r & -> & Hr) | (e & ->)]; [| right; by eexists].
    destruct (IH (nextId + 1)%Z) as [(batch & -> & Hb) | (e & ->)];
      [| right; by eexists].
    left. eexists. split; [reflexivity |]. csimpl. by rewrite Hr, Hb.
Qed.

Lemma processSplitwiseMovements_nothing_new
    (creditMovements debitMovements : list splitwiseMovement) (s : store) :
  filter (λ movement, splitwiseId movement ∉ getExistingAccountingSystemIds s)
    (creditMovements ++ debitMovements) = [] →
  processSplitwiseMovements true creditMovements debitMovements s
    = Return tt s.
Proof.
  intros Hnew. unfold processSplitwiseMovements. run. rewrite Hnew.
  by destruct (length (creditMovements ++ debitMovements) =? 0)%nat.
Qed.

(** The sheet a run that returns leaves: one row for each movement it
    had not seen, keyed by the id of the movement. *)
Lemma processSplitwiseMovements_returns
    (creditMovements debitMovements : list splitwiseMovement) (s s1 : store) :
  processSplitwiseMovements true creditMovements debitMovements s
    = Return tt s1 →
  ∃ batchMovements,
    s1 = s ++ (row <$> batchMovements)
    ∧ (λ item, ACCOUNTING_SYSTEM_ID (row item)) <$> batchMovements
      ≡ₚ splitwiseId
           <$> filter (λ movement,
                 splitwiseId movement ∉ getExistingAccountingSystemIds s)
                 (creditMovements ++ debitMovements).
Proof.
  set (new := filter _ (creditMovements ++ debitMovements)).
  destruct new as [|n0 nl] eqn:Hnew.
  { rewrite processSplitwiseMovements_nothing_new by done.
    intros [= <-]. exists []. by rewrite app_nil_r. }
  unfold processSplitwiseMovements. run. fold new. rewrite Hnew.
  destruct (creditMovements ++ debitMovements) as [|a0 al]; [done |].
  cbn [length Nat.eqb].
  destruct (splitwiseBatch_outcome (n0 :: nl) (getNextId s) s)
    as [(batch & -> & Hkeys) | (e & ->)]; [| done].
  destruct batch as [|b0 bl]; [done |].
  cbn [length Nat.eqb Nat.ltb Nat.leb].
  destruct (addMovementsBatch (b0 :: bl) s) as [[] s'|] eqn:Hadd; [| done].
  intros [= <-]. apply addMovementsBatch_returns in Hadd as ->.
  eexists. split; [reflexivity |].
  by rewrite Array_sort_Permutation, Hkeys.
Qed.

Lemma processSplitwiseMovements_again
    (creditMovements debitMovements : list splitwiseMovement) (s s1 : store) :
  Forall (λ movement, truthy (splitwiseId movement) = true)
    (creditMovements ++ debitMovements) →
  processSplitwiseMovements true creditMovements debitMovements s
    = Return tt s1 →
  processSplitwiseMovements true creditMovements debitMovements s1
    = Return tt s1.
Proof.
  intros Hkeys (batch & -> & Hbatch)%processSplitwiseMovements_returns.
  apply processSplitwiseMovements_nothing_new, filter_none.
  intros t Ht Hnew. apply Hnew, getExistingAccountingSystemIds_elem.
  split; [by eapply Forall_forall in Hkeys |].
  destruct (decide (splitwiseId t ∈ getExistingAccountingSystemIds s))
    as [Hold | Hfresh].
  - apply getExistingAccountingSystemIds_elem in Hold as (_ & m & Hm & Hk).
    exists m. split; [| done]. apply elem_of_app. by left.
  - assert (splitwiseId t
            ∈ (λ item, ACCOUNTING_SYSTEM_ID (row item)) <$> batch) as Hin.
    { rewrite Hbatch. apply list_elem_of_fmap_2. by apply list_elem_of_filter. }
    apply list_elem_of_fmap in Hin as (item & Hk & Hitem).
    exists (row item). split; [| done].
    apply elem_of_app. right. by apply list_elem_of_fmap_2.
Qed.

(** The rows a run adds under a key: none when the sheet held the key,
    and otherwise one for every movement of the feed with that key. *)
Lemma processSplitwiseMovements_count
    (creditMovements debitMovements : list splitwiseMovement) (s s1 : store)
    (key : string) :
  processSplitwiseMovements true creditMovements debitMovements s
    = Return tt s1 →
  length (movementsWithAccountingSystemId key s1)
  = (length (movementsWithAccountingSystemId key s)
     + if decide (key ∈ getExistingAccountingSystemIds s) then 0
       else length (filter (λ movement, splitwiseId movement = key)
                      (creditMovements ++ debitMovements)))%nat.
Proof.
  intros (batch & -> & Hbatch)%processSplitwiseMovements_returns.
  unfold movementsWithAccountingSystemId.
  rewrite filter_app, length_app. f_equal.
  rewrite (count_fmap ACCOUNTING_SYSTEM_ID _ (row <$> batch)).
  rewrite <- list_fmap_compose.
  change (ACCOUNTING_SYSTEM_ID ∘ row)
    with (λ item, ACCOUNTING_SYSTEM_ID (row item)).
  by rewrite Hbatch, count_new_keys.
Qed.

(** The batch of a feed of valid dates: keyed by the ids of the
    movements, under row ids that count up from the next id. *)
Lemma splitwiseBatch_returns (newMovements : list splitwiseMovement)
    (nextId : Z) (s : store) :
  Forall has_date newMovements →
  ∃ batchMovements,
    splitwiseBatch newMovements nextId s = Return batchMovements s
    ∧ Forall (λ n, (nextId ≤ n)%Z) (batchIds batchMovements)
    ∧ NoDup (batchIds batchMovements)
    ∧ (newMovements ≠ [] → batchMovements ≠ []).
Proof.
  revert nextId. induction newMovements as [|m l IH]; intros nextId Hdates.
  - exists []. split_and!; [done | constructor | constructor | done].
  - apply Forall_cons in Hdates as [[timestamp Hdate] Hdates].
    destruct (IH (nextId + 1)%Z Hdates) as (batch & Hbatch & Hge & Hnd & _).
    cbn [splitwiseBatch]. run. unfold createSplitwiseMovementRow at 1.
    rewrite Hdate.
    destruct (bool_decide (paidBy m ≠ None)), (bool_decide (owedBy m ≠ None));
      simpl; rewrite Hbatch; (eexists; split_and!; [reflexivity | | | done]);
      unfold batchIds in *; csimpl.
    all: try (constructor; [lia |]; eapply Forall_impl; [exact Hge |];
              intros n Hn; simpl in Hn; lia).
    all: apply NoDup_cons; (split; [| done]); intros Hin;
      eapply Forall_forall in Hge; [| exact Hin]; simpl in Hge; lia.
Qed.

(** A run over a feed of valid dates returns. *)
Lemma processSplitwiseMovements_total
    (creditMovements debitMovements : list splitwiseMovement) (s : store) :
  Forall has_date (creditMovements ++ debitMovements) →
  ∃ s1,
    processSplitwiseMovements true creditMovements debitMovements s
    = Return tt s1.
Proof.
  intros Hdates.
  set (new := filter (λ movement,
                splitwiseId movement ∉ getExistingAccountingSystemIds s)
                (creditMovements ++ debitMovements)).
  destruct new as [|n0 nl] eqn:Hnew.
  { rewrite processSplitwiseMovements_nothing_new by done. by eexists. }
  assert (Forall has_date new) as Hd.
  { apply Forall_forall. intros m [_ Hm]%list_elem_of_filter.
    by eapply Forall_forall in Hdates. }
  rewrite Hnew in Hd.
  unfold processSplitwiseMovements. run. fold new. rewrite Hnew.
  destruct (creditMovements ++ debitMovements) as [|a0 al]; [done |].
  cbn [length Nat.eqb].
  destruct (splitwiseBatch_returns (n0 :: nl) (getNextId s) s Hd)
    as (batch & -> & Hge & Hnd & Hne).
  destruct batch as [|b0 bl]; [by destruct Hne |].
  cbn [length Nat.eqb Nat.ltb Nat.leb].
  rewrite addMovementsBatch_fresh by done. by eexists.
Qed.
End SplitwiseIngestion.

(** Ingestion is where keys are checked.  A split copies the row it
    splits, key included: after the re-categorization split of a
    movement read from an email, two rows carry its source id. *)
Lemma split_copies_source_id :
  ∃ remaining split,
    splitExpenseForRecategorization (currencyConversionService := sampleService)
      1 dinnerSplit [sampleMovement 1 100]
    = Return (Some 2%Z) [remaining; split]
    ∧ SOURCE remaining = SOURCES_GMAIL ∧ SOURCE split = SOURCES_GMAIL
    ∧ SOURCE_ID remaining = "msg-1" ∧ SOURCE_ID split = "msg-1".
Proof. eexists _, _. split; [vm_compute; reflexivity |]. by split_and!. Qed.

(** Two Splitwise movements, one paid by a friend and fetched with the
    credits, ingested twice into an empty sheet: two rows, then no
    more. *)
Lemma processSplitwiseMovements_twice :
  let run := processSplitwiseMovements
               (currencyConversionService := sampleService) true
               [sampleSplitwiseMovement "9001"]
               [sampleSplitwiseMovement "9002"] in
  let s1 := final_store (run []) in
  run [] = Return tt s1 ∧ run s1 = Return tt s1
  ∧ ACCOUNTING_SYSTEM_ID <$> s1 = ["9001"; "9002"]
  ∧ ID <$> s1 = [1%Z; 2%Z].
Proof. split_and!; vm_compute; reflexivity. Qed.


(** * Further results *)

(** ** Updates by id *)

Lemma findIndex_idExists (movementId : Z) (s : store) :
  idExists movementId s = false → findIndex movementId s = None.
Proof.
  intros H. apply list_find_None, Forall_forall. intros m Hm Hid.
  apply idExists_false in H. apply H. rewrite <- Hid.
  by apply list_elem_of_fmap_2.
Qed.

(** X1.  An id that no row carries: the five updates return and leave
    the sheet as it was, both splits return [null] and leave it as it
    was, and the repair of the movement answers [false]. *)
Theorem operations_ignore_missing_id `{CurrencyConversionService}
    (movementId : Z) (s : store) :
  idExists movementId s = false →
  (∀ category, updateMovementCategory movementId category s = Return tt s)
  ∧ (∀ analysisResult,
       updateMovementWithAnalysis movementId analysisResult s = Return tt s)
  ∧ (∀ settledMovementId,
       updateMovementSettledId movementId settledMovementId s = Return tt s)
  ∧ (∀ status, updateMovementStatus movementId status s = Return tt s)
  ∧ (∀ splitwiseId,
       updateMovementWithSplitwiseInfo movementId splitwiseId s
       = Return tt s)
  ∧ (∀ splitInfo, splitMovement movementId splitInfo s = Return None s)
  ∧ (∀ splitInfo,
       splitExpenseForRecategorization movementId splitInfo s
       = Return None s)
  ∧ fixMovementCurrencyConversion movementId s = Return false s.
Proof.
  intros Hfind%findIndex_idExists. split_and!; intros;
    try (by apply splitMovement_not_found);
    try (by apply splitExpense_not_found).
  all: unfold updateMovementCategory, updateMovementWithAnalysis,
         updateMovementSettledId, updateMovementStatus,
         updateMovementWithSplitwiseInfo, fixMovementCurrencyConversion;
       run; unfold getAllMovements; by rewrite Hfind.
Qed.

Lemma operations_ignore_missing_id_witness :
  updateMovementStatus 7 STATUS_SETTLED [sampleMovement 1 50]
  = Return tt [sampleMovement 1 50]
  ∧ fixMovementCurrencyConversion (currencyConversionService := sampleService)
      7 [sampleMovement 1 50]
    = Return false [sampleMovement 1 50].
Proof.
  destruct (@operations_ignore_missing_id sampleService 7
              [sampleMovement 1 50] eq_refl)
    as (_ & _ & _ & Hstatus & _ & _ & _ & Hfix).
  split; [apply Hstatus | apply Hfix].
Defined.

Lemma alter_column {B : Type} (f : movement → B) (g : movement → movement)
    (i : nat) (s : store) :
  (∀ m, f (g m) = f m) → f <$> alter g i s = f <$> s.
Proof.
  intros Hg. rewrite (list_fmap_alter f g (λ x, x)).
  - by apply list_alter_id.
  - apply Forall_forall. intros m _. apply Hg.
Qed.

Lemma keeps_columns_setValue {B : Type} (i : nat)
    (set_X : B → movement → movement) (v : B) :
  (∀ m, ID (set_X v m) = ID m) → (∀ m, AMOUNT (set_X v m) = AMOUNT m) →
  (∀ m, CURRENCY (set_X v m) = CURRENCY m) →
  (∀ m, TYPE (set_X v m) = TYPE m) →
  keeps_columns (setValue i set_X v).
Proof.
  intros H1 H2 H3 H4 s. eexists _, _. split; [reflexivity |].
  by rewrite !alter_column.
Qed.

Lemma keeps_columns_ret {A : Type} (a : A) : keeps_columns (mret a).
Proof. intros s. by eexists _, _. Qed.

Lemma keeps_columns_bind {A B : Type} (c : M A) (k : A → M B) :
  keeps_columns c → (∀ a, keeps_columns (k a)) → keeps_columns (c ≫= k).
Proof.
  intros Hc Hk s. destruct (Hc s) as (a & s1 & Hs1 & H1 & H2 & H3 & H4).
  destruct (Hk a s1) as (b & s2 & Hs2 & H1' & H2' & H3' & H4').
  exists b, s2. unfold mbind, M_bind. rewrite Hs1, Hs2.
  split; [done |]. split_and!; congruence.
Qed.

Lemma keeps_columns_gets {A B : Type} (f : store → A) (k : A → M B) :
  (∀ a, keeps_columns (k a)) → keeps_columns (gets f ≫= k).
Proof.
  intros Hk. apply keeps_columns_bind; [| done].
  intros s. by eexists _, _.
Qed.

Lemma keeps_updateMovementCategory (movementId : Z) (category : string) :
  keeps_columns (updateMovementCategory movementId category).
Proof.
  unfold updateMovementCategory. apply keeps_columns_gets.
  intros l. destruct (findIndex _ l) as [[i m]|];
    [by apply keeps_columns_setValue | apply keeps_columns_ret].
Qed.

Lemma keeps_updateMovementWithAnalysis (movementId : Z)
    (analysisResult : analysisResult) :
  keeps_columns (updateMovementWithAnalysis movementId analysisResult).
Proof.
  unfold updateMovementWithAnalysis. apply keeps_columns_gets.
  intros l. destruct (findIndex _ l) as [[i m]|];
    [| apply keeps_columns_ret].
  apply keeps_columns_bind; [by apply keeps_columns_setValue |].
  intros _. destruct (_ && _); [| apply keeps_columns_ret].
  apply keeps_columns_bind; intros; by apply keeps_columns_setValue.
Qed.

Lemma keeps_updateMovementSettledId (movementId settledMovementId : Z) :
  keeps_columns (updateMovementSettledId movementId settledMovementId).
Proof.
  unfold updateMovementSettledId. apply keeps_columns_gets.
  intros l. destruct (findIndex _ l) as [[i m]|];
    [by apply keeps_columns_setValue | apply keeps_columns_ret].
Qed.

Lemma keeps_updateMovementStatus (movementId : Z) (status : string) :
  keeps_columns (updateMovementStatus movementId status).
Proof.
  unfold updateMovementStatus. apply keeps_columns_gets.
  intros l. destruct (findIndex _ l) as [[i m]|];
    [by apply keeps_columns_setValue | apply keeps_columns_ret].
Qed.

Lemma keeps_updateMovementWithSplitwiseInfo (movementId : Z)
    (splitwiseId : string) :
  keeps_columns (updateMovementWithSplitwiseInfo movementId splitwiseId).
Proof.
  unfold updateMovementWithSplitwiseInfo. apply keeps_columns_gets.
  intros l. destruct (findIndex _ l) as [[i m]|];
    [| apply keeps_columns_ret].
  apply keeps_columns_bind; intros; by apply keeps_columns_setValue.
Qed.

(** X2.  The five updates always return, and none of them changes the
    number of rows or the id, the amount, the currency or the type of a
    row; so they keep the ids unique and the next id as it is. *)
Theorem updates_keep_columns (movementId : Z) :
  (∀ category, keeps_columns (updateMovementCategory movementId category))
  ∧ (∀ analysisResult,
       keeps_columns (updateMovementWithAnalysis movementId analysisResult))
  ∧ (∀ settledMovementId,
       keeps_columns (updateMovementSettledId movementId settledMovementId))
  ∧ (∀ status, keeps_columns (updateMovementStatus movementId status))
  ∧ (∀ splitwiseId,
       keeps_columns (updateMovementWithSplitwiseInfo movementId splitwiseId))
  ∧ (∀ {A : Type} (c : M A) s,
       keeps_columns c →
       length (final_store (c s)) = length s
       ∧ getNextId (final_store (c s)) = getNextId s
       ∧ (unique_ids s → unique_ids (final_store (c s)))).
Proof.
  split_and!.
  - apply keeps_updateMovementCategory.
  - apply keeps_updateMovementWithAnalysis.
  - apply keeps_updateMovementSettledId.
  - apply keeps_updateMovementStatus.
  - apply keeps_updateMovementWithSplitwiseInfo.
  - intros A c s Hc. destruct (Hc s) as (a & s' & -> & Hid & _). simpl.
    split_and!.
    + by rewrite <- (length_fmap ID s'), Hid, length_fmap.
    + by apply getNextId_ext.
    + unfold unique_ids. by rewrite Hid.
Qed.

Lemma trim_truthy (v : string) : trim v ≠ "" → truthy v = true.
Proof.
  intros H. unfold truthy. apply negb_true_iff, String.eqb_neq.
  intros ->. by apply H.
Qed.

Lemma needs_category_analysis_iff (m : movement) :
  needs_category_analysis m
  ↔ trim (USER_DESCRIPTION m) ≠ "" ∧ trim (CATEGORY m) = "".
Proof.
  unfold needs_category_analysis. split.
  - intros [[_ Hd] [Hc | Hc]]; [| done]. split; [done |].
    unfold truthy in Hc. apply negb_false_iff, String.eqb_eq in Hc.
    by rewrite Hc.
  - intros [Hd Hc]. split; [| by right]. split; [| done].
    by apply trim_truthy.
Qed.

Lemma updateMovementWithAnalysis_found (analysisResult : analysisResult)
    (s : store) (i : nat) (m : movement) :
  findIndex (ID m) s = Some (i, m) →
  updateMovementWithAnalysis (ID m) analysisResult s
  = Return tt
      (<[i :=
          if negb (needs_split analysisResult)
             && truthy (clean_description analysisResult)
          then set_COMMENT ""
                 (set_USER_DESCRIPTION (clean_description analysisResult)
                    (set_CATEGORY (category analysisResult) m))
          else set_CATEGORY (category analysisResult) m]> s).
Proof.
  intros Hfind. destruct (findIndex_Some _ _ _ _ Hfind) as (Hi & _ & _).
  unfold updateMovementWithAnalysis. run. unfold getAllMovements.
  rewrite Hfind. destruct (negb _ && _); simpl.
  - rewrite !list_alter_alter_eq. by rewrite (alter_lookup _ i m s Hi).
  - by rewrite (alter_lookup _ i m s Hi).
Qed.

(** X3.  On a sheet with unique ids, recording an analysis whose
    category is not blank replaces the row of that id and no other: the
    row carries the category and is not selected for analysis again,
    and every movement that still awaits analysis awaited it before.
    When no split is asked for and a clean description is given, the
    description is replaced by it and the comment is emptied. *)
Theorem updateMovementWithAnalysis_classifies
    (analysisResult : analysisResult) (s : store) (i : nat) (m : movement) :
  unique_ids s → s !! i = Some m →
  trim (category analysisResult) ≠ "" →
  ∃ m',
    updateMovementWithAnalysis (ID m) analysisResult s
      = Return tt (<[i := m']> s)
    ∧ ID m' = ID m
    ∧ CATEGORY m' = category analysisResult
    ∧ ¬ needs_category_analysis m'
    ∧ (needs_split analysisResult = false →
       truthy (clean_description analysisResult) = true →
       USER_DESCRIPTION m' = clean_description analysisResult
       ∧ COMMENT m' = "")
    ∧ (∀ x, x ∈ getMovementsNeedingCategoryAnalysis (<[i := m']> s) →
         x ∈ getMovementsNeedingCategoryAnalysis s ∧ ID x ≠ ID m).
Proof.
  intros Hu Hi Hcat.
  pose proof (findIndex_unique s i m Hu Hi) as Hfind.
  rewrite (updateMovementWithAnalysis_found _ _ _ _ Hfind).
  match goal with
  | |- context [Return tt (<[i := ?x]> s)] => set (m' := x)
  end.
  exists m'. split; [reflexivity |].
  assert (ID m' = ID m) as Hid by (subst m'; by destruct (negb _ && _)).
  assert (CATEGORY m' = category analysisResult) as Hc
    by (subst m'; by destruct (negb _ && _)).
  assert (¬ needs_category_analysis m') as Hno.
  { rewrite needs_category_analysis_iff, Hc. tauto. }
  split_and!; try done.
  - intros Hsplit Hclean. subst m'. by rewrite Hsplit, Hclean.
  - intros x [Hx Hin]%needs_category_analysis_filter.
    apply list_elem_of_lookup in Hin as [j Hj].
    destruct (decide (j = i)) as [-> | Hne].
    + rewrite list_lookup_insert_eq in Hj by (by eapply lookup_lt_Some).
      by injection Hj as <-.
    + rewrite list_lookup_insert_ne in Hj by done.
      split.
      * apply needs_category_analysis_filter. split; [done |].
        by eapply list_elem_of_lookup_2.
      * intros Hid'. apply Hne.
        eapply (NoDup_lookup _ j i (ID m)); [exact Hu | |];
          rewrite list_lookup_fmap; [rewrite Hj | rewrite Hi]; simpl;
          by f_equal.
Qed.

Lemma updateMovementWithAnalysis_classifies_witness :
  ∃ m',
    updateMovementWithAnalysis 1
      (mkAnalysisResult "restaurants" false "" 0 "" "" "Dinner")
      [sampleMovement 1 50]
    = Return tt [m']
    ∧ CATEGORY m' = "restaurants" ∧ USER_DESCRIPTION m' = "Dinner".
Proof.
  destruct (updateMovementWithAnalysis_classifies
              (mkAnalysisResult "restaurants" false "" 0 "" "" "Dinner")
              [sampleMovement 1 50] 0 (sampleMovement 1 50))
    as (m' & Hrun & _ & Hc & _ & Hd & _).
  - apply NoDup_singleton.
  - reflexivity.
  - by vm_compute.
  - exists m'. split; [exact Hrun |]. split; [exact Hc |].
    by apply Hd.
Defined.

(** ** The two halves of a split *)

Lemma Qle_bool_false (a b : Q) : (b < a)%Q → Qle_bool a b = false.
Proof.
  intros Hlt. destruct (Qle_bool a b) eqn:Hle; [| done].
  apply Qle_bool_iff in Hle. exfalso. by apply (Qlt_not_le b a).
Qed.

Section Halves.
Context {currencyConversionService : CurrencyConversionService}.

(** X4.  A re-categorization split of a movement into two parts that
    are both positive keeps the row and appends one: both amounts are
    positive, both rows have no category and no comment and record the
    amount before the split, each names the other in its AI comment,
    and the new row copies the type, direction, status, date, source
    and source id of the original.  Each half whose description is not
    blank then awaits category analysis. *)
Theorem splitExpense_halves (originalMovementId : Z)
    (splitInfo : SplitInfo.t) (s : store) (i : nat) (m : movement) :
  findIndex originalMovementId s = Some (i, m) →
  (0 < SplitInfo.split_amount splitInfo)%Q →
  (SplitInfo.split_amount splitInfo < AMOUNT m)%Q →
  ∃ remaining split,
    splitExpenseForRecategorization originalMovementId splitInfo s
      = Return (Some (ID split)) (<[i := remaining]> s ++ [split])
    ∧ (ID remaining = originalMovementId ∧ ID split = getNextId s)
    ∧ (0 < AMOUNT remaining ∧ 0 < AMOUNT split)%Q
    ∧ (CATEGORY remaining = "" ∧ CATEGORY split = "")
    ∧ (COMMENT remaining = "" ∧ COMMENT split = "")
    ∧ (ORIGINAL_AMOUNT remaining = Some (AMOUNT m)
       ∧ ORIGINAL_AMOUNT split = Some (AMOUNT m))
    ∧ (AI_COMMENT remaining = "Split into #" +:+ pretty (ID split)
       ∧ AI_COMMENT split = "Split from #" +:+ pretty (ID remaining))
    ∧ (USER_DESCRIPTION remaining
       = or_else (SplitInfo.clean_description splitInfo) (USER_DESCRIPTION m)
       ∧ USER_DESCRIPTION split = SplitInfo.split_description splitInfo)
    ∧ (TYPE split = TYPE m ∧ DIRECTION split = DIRECTION m
       ∧ STATUS split = STATUS m ∧ TIMESTAMP split = TIMESTAMP m
       ∧ SOURCE split = SOURCE m ∧ SOURCE_ID split = SOURCE_ID m)
    ∧ (trim (USER_DESCRIPTION remaining) ≠ "" →
       remaining ∈ getMovementsNeedingCategoryAnalysis
                     (<[i := remaining]> s ++ [split]))
    ∧ (trim (USER_DESCRIPTION split) ≠ "" →
       split ∈ getMovementsNeedingCategoryAnalysis
                 (<[i := remaining]> s ++ [split])).
Proof.
  intros Hfind Hpos Hlt.
  destruct (findIndex_Some _ _ _ _ Hfind) as (Hi & Hid & Hin).
  unfold splitExpenseForRecategorization. run. unfold getAllMovements.
  rewrite Hfind, (Qle_bool_false _ _ Hlt), (Qle_bool_false _ _ Hpos).
  cbn [orb].
  rewrite addMovement_eq. simpl_ID.
  rewrite !list_alter_alter_eq.
  rewrite (idExists_ext _ _ s) by (by apply ID_alter).
  rewrite getNextId_fresh.
  rewrite (alter_lookup _ i m s Hi).
  match goal with
  | |- context [Return _ (<[i := ?a]> s ++ [?b])] => exists a, b
  end.
  split; [reflexivity |].
  split_and!; try done.
  - by apply Qlt_minus_iff in Hlt.
  - simpl. by rewrite Hid.
  - intros Hd. apply needs_category_analysis_filter. split.
    + by apply needs_category_analysis_iff.
    + apply elem_of_app. left. apply list_elem_of_lookup. exists i.
      apply list_lookup_insert_eq. by eapply lookup_lt_Some.
  - intros Hd. apply needs_category_analysis_filter. split.
    + by apply needs_category_analysis_iff.
    + apply elem_of_app. right. by apply list_elem_of_singleton.
Qed.

(** X5.  A split into a personal and a shared part keeps the row and
    appends one.  The appended row is a debit awaiting direct
    settlement, of neutral direction, and is among the pending debits
    of the sheet after the split; both rows carry the category of the
    split, an empty comment and the amount before the split, and each
    names the other in its AI comment.  The row kept takes the clean
    description and keeps its type and status. *)
Theorem splitMovement_creates_pending_debit (originalMovementId : Z)
    (splitInfo : SplitInfo.t) (s : store) (i : nat) (m : movement) :
  findIndex originalMovementId s = Some (i, m) →
  ∃ personal shared,
    splitMovement originalMovementId splitInfo s
      = Return (Some (ID shared)) (<[i := personal]> s ++ [shared])
    ∧ (ID personal = originalMovementId ∧ ID shared = getNextId s)
    ∧ pending_debit shared
    ∧ DIRECTION shared = DIRECTIONS_NEUTRAL
    ∧ shared ∈ getMovementsPendingDirectSettlement
                 (<[i := personal]> s ++ [shared])
    ∧ (CATEGORY personal = SplitInfo.split_category splitInfo
       ∧ CATEGORY shared = SplitInfo.split_category splitInfo)
    ∧ (COMMENT personal = "" ∧ COMMENT shared = "")
    ∧ (ORIGINAL_AMOUNT personal = Some (AMOUNT m)
       ∧ ORIGINAL_AMOUNT shared = Some (AMOUNT m))
    ∧ (AI_COMMENT personal = "Split into #" +:+ pretty (ID shared)
       ∧ AI_COMMENT shared = "Split from #" +:+ pretty (ID personal))
    ∧ (USER_DESCRIPTION personal = SplitInfo.clean_description splitInfo
       ∧ USER_DESCRIPTION shared = SplitInfo.split_description splitInfo)
    ∧ (TYPE personal = TYPE m ∧ STATUS personal = STATUS m
       ∧ DIRECTION personal = DIRECTION m)
    ∧ (TIMESTAMP shared = TIMESTAMP m ∧ CURRENCY shared = CURRENCY m
       ∧ SOURCE shared = SOURCE m ∧ SOURCE_ID shared = SOURCE_ID m).
Proof.
  intros Hfind.
  destruct (findIndex_Some _ _ _ _ Hfind) as (Hi & Hid & Hin).
  unfold splitMovement. run. unfold getAllMovements.
  rewrite Hfind.
  rewrite addMovement_eq. simpl_ID.
  rewrite !list_alter_alter_eq.
  rewrite (idExists_ext _ _ s) by (by apply ID_alter).
  rewrite getNextId_fresh.
  rewrite (alter_lookup _ i m s Hi).
  match goal with
  | |- context [Return _ (<[i := ?a]> s ++ [?b])] => exists a, b
  end.
  split; [reflexivity |].
  split_and!; try done.
  - apply pending_debit_filter. split; [done |].
    apply elem_of_app. right. by apply list_elem_of_singleton.
  - simpl. by rewrite Hid.
Qed.
End Halves.

Lemma splitExpense_halves_witness :
  ∃ remaining split,
    splitExpenseForRecategorization (currencyConversionService := sampleService)
      1 dinnerSplit [sampleMovement 1 100]
      = Return (Some 2%Z) [remaining; split]
    ∧ (0 < AMOUNT remaining ∧ 0 < AMOUNT split)%Q.
Proof.
  destruct (@splitExpense_halves sampleService 1 dinnerSplit
              [sampleMovement 1 100] 0 (sampleMovement 1 100))
    as (remaining & split & Hrun & [_ Hid] & Hamounts & _).
  - reflexivity.
  - reflexivity.
  - reflexivity.
  - exists remaining, split. rewrite Hid in Hrun. split; [exact Hrun |].
    exact Hamounts.
Defined.

Lemma splitMovement_creates_pending_debit_witness :
  ∃ personal shared,
    splitMovement (currencyConversionService := sampleService)
      1 dinnerSplit [sampleMovement 1 100]
      = Return (Some 2%Z) [personal; shared]
    ∧ pending_debit shared.
Proof.
  destruct (@splitMovement_creates_pending_debit sampleService 1 dinnerSplit
              [sampleMovement 1 100] 0 (sampleMovement 1 100) eq_refl)
    as (personal & shared & Hrun & [_ Hid] & Hpending & _).
  exists personal, shared. rewrite Hid in Hrun. split; [exact Hrun |].
  exact Hpending.
Defined.

(** ** Settlement: what a run can change *)

Lemma updateMovementSettledId_cases (movementId settledMovementId : Z)
    (s : store) :
  ∃ s', updateMovementSettledId movementId settledMovementId s = Return tt s'
    ∧ (s' = s
       ∨ ∃ k m, s !! k = Some m ∧ ID m = movementId
           ∧ s' = <[k := set_SETTLED_MOVEMENT_ID (Some settledMovementId) m]>
                    s).
Proof.
  unfold updateMovementSettledId. run. unfold getAllMovements.
  destruct (findIndex movementId s) as [[k m]|] eqn:Hfind.
  - destruct (findIndex_Some _ _ _ _ Hfind) as (Hk & Hid & _).
    eexists. split; [reflexivity |]. right. exists k, m.
    by rewrite (alter_lookup _ k m s Hk).
  - eexists. split; [reflexivity |]. by left.
Qed.

Lemma updateMovementStatus_cases (movementId : Z) (status : string)
    (s : store) :
  ∃ s', updateMovementStatus movementId status s = Return tt s'
    ∧ (s' = s
       ∨ ∃ k m, s !! k = Some m ∧ ID m = movementId
           ∧ s' = <[k := set_STATUS status m]> s).
Proof.
  unfold updateMovementStatus. run. unfold getAllMovements.
  destruct (findIndex movementId s) as [[k m]|] eqn:Hfind.
  - destruct (findIndex_Some _ _ _ _ Hfind) as (Hk & Hid & _).
    eexists. split; [reflexivity |]. right. exists k, m.
    by rewrite (alter_lookup _ k m s Hk).
  - eexists. split; [reflexivity |]. by left.
Qed.

Lemma lookup_insert_cases (s : store) (k i : nat) (m x : movement) :
  s !! i = Some m →
  <[k := x]> s !! i = Some x ∧ k = i ∨ <[k := x]> s !! i = Some m.
Proof.
  intros Hi. destruct (decide (k = i)) as [-> | Hne].
  - left. split; [| done]. apply list_lookup_insert_eq.
    by eapply lookup_lt_Some.
  - right. by rewrite list_lookup_insert_ne.
Qed.

Lemma unique_ids_lookup (s : store) (i j : nat) (m1 m2 : movement) :
  unique_ids s → s !! i = Some m1 → s !! j = Some m2 → ID m1 = ID m2 →
  i = j ∧ m1 = m2.
Proof.
  intros Hu Hi Hj Hid.
  assert (i = j) as ->.
  { eapply (NoDup_lookup _ i j (ID m1)); [exact Hu | |];
      rewrite list_lookup_fmap; [rewrite Hi | rewrite Hj]; simpl;
      by f_equal. }
  split; [done | congruence].
Qed.

Section SettlementFrame.
Context {currencyConversionService : CurrencyConversionService}.
Variable matchDebitRepayment : repaymentData → list movement → option Z.

(** X6.  A settlement run leaves the sheet as it was when no debit
    awaits direct settlement, and then it does not call the matcher;
    it also leaves the sheet as it was when the matcher answers
    nothing, answers 0, or answers an id that no pending debit
    carries. *)
Theorem settlement_without_match (repaymentMovementId : Z)
    (repaymentMovement : movement) (s : store) :
  let pendingDebits := getMovementsPendingDirectSettlement s in
  let answer :=
    matchDebitRepayment (repaymentDataOf repaymentMovement) pendingDebits in
  (pendingDebits = [] →
   processDebitRepaymentSettlement matchDebitRepayment repaymentMovementId
     repaymentMovement s = Return [] s)
  ∧ (pendingDebits ≠ [] →
     answer = None ∨ answer = Some 0%Z
     ∨ (∃ d, answer = Some d ∧ d ∉ ID <$> pendingDebits) →
     processDebitRepaymentSettlement matchDebitRepayment repaymentMovementId
       repaymentMovement s
     = Return [mkMatcherCall repaymentMovementId repaymentMovement
                 pendingDebits] s).
Proof.
  intros pendingDebits answer. subst answer.
  unfold processDebitRepaymentSettlement. run.
  fold (repaymentDataOf repaymentMovement). fold pendingDebits.
  split.
  - by intros ->.
  - intros Hne Hanswer.
    destruct pendingDebits as [|debit rest] eqn:Hp; [done |].
    cbn [length Nat.eqb]. rewrite <- Hp in *.
    destruct Hanswer as [-> | [-> | (d & -> & Hd)]]; [done | done |].
    destruct (d =? 0)%Z; [done |].
    destruct (find _ pendingDebits) as [x|] eqn:Hfind; [| done].
    apply find_some in Hfind as [Hx Heq]. apply Z.eqb_eq in Heq.
    exfalso. apply Hd. rewrite <- Heq. apply list_elem_of_fmap_2.
    by apply list_elem_of_In.
Qed.

(** X7.  On a sheet with unique ids a settlement run returns, having
    called the matcher at most once, and changes no id, amount, currency
    or type and the number of rows stays.  The status of a row changes
    only when the row is a debit awaiting direct settlement whose id
    the matcher answered, and then it becomes settled; the settled
    movement id changes only on the row of the repayment. *)
Theorem settlement_frame (repaymentMovementId : Z)
    (repaymentMovement : movement) (s : store) :
  unique_ids s →
  ∃ calls s',
    processDebitRepaymentSettlement matchDebitRepayment repaymentMovementId
      repaymentMovement s = Return calls s'
    ∧ (length calls ≤ 1)%nat
    ∧ ID <$> s' = ID <$> s
    ∧ AMOUNT <$> s' = AMOUNT <$> s
    ∧ CURRENCY <$> s' = CURRENCY <$> s
    ∧ TYPE <$> s' = TYPE <$> s
    ∧ ∀ i m, s !! i = Some m →
        ∃ m', s' !! i = Some m'
          ∧ (STATUS m' = STATUS m
             ∨ (pending_debit m ∧ STATUS m' = STATUS_SETTLED
                ∧ matchDebitRepayment (repaymentDataOf repaymentMovement)
                    (getMovementsPendingDirectSettlement s)
                  = Some (ID m)))
          ∧ (SETTLED_MOVEMENT_ID m' = SETTLED_MOVEMENT_ID m
             ∨ ID m = repaymentMovementId).
Proof.
  intros Hu. unfold processDebitRepaymentSettlement. run.
  fold (repaymentDataOf repaymentMovement).
  set (pendingDebits := getMovementsPendingDirectSettlement s).
  assert (∀ calls, (length calls ≤ 1)%nat → ∃ calls' s',
    Return (A:=list matcherCall) calls s = Return calls' s'
    ∧ (length calls' ≤ 1)%nat
    ∧ ID <$> s' = ID <$> s
    ∧ AMOUNT <$> s' = AMOUNT <$> s
    ∧ CURRENCY <$> s' = CURRENCY <$> s
    ∧ TYPE <$> s' = TYPE <$> s
    ∧ ∀ i m, s !! i = Some m →
        ∃ m', s' !! i = Some m'
          ∧ (STATUS m' = STATUS m
             ∨ (pending_debit m ∧ STATUS m' = STATUS_SETTLED
                ∧ matchDebitRepayment (repaymentDataOf repaymentMovement)
                    pendingDebits
                  = Some (ID m)))
          ∧ (SETTLED_MOVEMENT_ID m' = SETTLED_MOVEMENT_ID m
             ∨ ID m = repaymentMovementId)) as Hsame.
  { intros calls Hlen. exists calls, s. split_and!; try done.
    intros i m Hi. exists m. split_and!; [done | by left | by left]. }
  destruct (length pendingDebits =? 0)%nat; [apply Hsame; simpl; lia |].
  destruct (matchDebitRepayment _ pendingDebits) as [d|] eqn:Hanswer;
    [| apply Hsame; simpl; lia].
  destruct (d =? 0)%Z; [apply Hsame; simpl; lia |].
  destruct (find _ pendingDebits) as [debit|] eqn:Hfind;
    [| apply Hsame; simpl; lia].
  apply find_some in Hfind as [Hdebit Hd]. apply Z.eqb_eq in Hd.
  apply list_elem_of_In, pending_debit_filter in Hdebit
    as [Hpending Hdebit].
  clear Hsame.
  destruct (updateMovementSettledId_cases repaymentMovementId d s)
    as (s1 & -> & Hs1).
  assert (ID <$> s1 = ID <$> s ∧ AMOUNT <$> s1 = AMOUNT <$> s
          ∧ CURRENCY <$> s1 = CURRENCY <$> s ∧ TYPE <$> s1 = TYPE <$> s
          ∧ STATUS <$> s1 = STATUS <$> s
          ∧ ∀ i m, s !! i = Some m →
              ∃ m1, s1 !! i = Some m1 ∧ ID m1 = ID m
                ∧ STATUS m1 = STATUS m
                ∧ (SETTLED_MOVEMENT_ID m1 = SETTLED_MOVEMENT_ID m
                   ∨ ID m = repaymentMovementId))
    as (Hid1 & Ham1 & Hcur1 & Hty1 & Hst1 & Hrows1).
  { destruct Hs1 as [-> | (k & r & Hk & Hr & ->)].
    - split_and!; try done. intros i m Hi. exists m.
      split_and!; [done | done | done | by left].
    - split_and!;
        try (rewrite list_fmap_insert; by apply list_insert_id;
             rewrite list_lookup_fmap, Hk).
      intros i m Hi.
      destruct (lookup_insert_cases s k i m
                  (set_SETTLED_MOVEMENT_ID (Some d) r) Hi)
        as [[Hl ->] | Hl].
      + assert (m = r) as -> by congruence.
        eexists. split; [exact Hl |]. split_and!; [done | done | by right].
      + exists m. split_and!; [by rewrite Hl | done | done | by left]. }
  assert (unique_ids s1) as Hu1 by (unfold unique_ids; by rewrite Hid1).
  assert (∀ s2,
    ID <$> s2 = ID <$> s1 → AMOUNT <$> s2 = AMOUNT <$> s1 →
    CURRENCY <$> s2 = CURRENCY <$> s1 → TYPE <$> s2 = TYPE <$> s1 →
    (∀ i m1, s1 !! i = Some m1 →
       ∃ m2, s2 !! i = Some m2
         ∧ SETTLED_MOVEMENT_ID m2 = SETTLED_MOVEMENT_ID m1
         ∧ (STATUS m2 = STATUS m1
            ∨ ID m1 = d ∧ STATUS m2 = STATUS_SETTLED)) →
    ∃ calls s',
      Return (A:=list matcherCall)
        [mkMatcherCall repaymentMovementId repaymentMovement pendingDebits]
        s2 = Return calls s'
      ∧ (length calls ≤ 1)%nat
      ∧ ID <$> s' = ID <$> s
      ∧ AMOUNT <$> s' = AMOUNT <$> s
      ∧ CURRENCY <$> s' = CURRENCY <$> s
      ∧ TYPE <$> s' = TYPE <$> s
      ∧ ∀ i m, s !! i = Some m →
          ∃ m', s' !! i = Some m'
            ∧ (STATUS m' = STATUS m
               ∨ (pending_debit m ∧ STATUS m' = STATUS_SETTLED
                  ∧ Some d = Some (ID m)))
            ∧ (SETTLED_MOVEMENT_ID m' = SETTLED_MOVEMENT_ID m
               ∨ ID m = repaymentMovementId)) as Hdone.
  { intros s2 Hid2 Ham2 Hcur2 Hty2 Hrows2. eexists _, _.
    split; [reflexivity |]. split_and!; try congruence; [simpl; lia |].
    intros i m Hi.
    destruct (Hrows1 i m Hi) as (m1 & Hi1 & Hidm & Hstm & Hsetm).
    destruct (Hrows2 i m1 Hi1) as (m2 & Hi2 & Hset2 & Hst2).
    exists m2. split; [done |]. split.
    - destruct Hst2 as [Hst2 | [Hmd Hst2]]; [left; congruence |].
      right. apply list_elem_of_lookup_1 in Hdebit as [j Hj].
      destruct (unique_ids_lookup s i j m debit Hu Hi Hj) as [_ ->];
        [congruence |].
      split_and!; [done | done | congruence].
    - destruct Hsetm as [Hsetm | Hsetm]; [left; congruence | by right]. }
  assert (∀ i m1, s1 !! i = Some m1 →
    ∃ m2, s1 !! i = Some m2
      ∧ SETTLED_MOVEMENT_ID m2 = SETTLED_MOVEMENT_ID m1
      ∧ (STATUS m2 = STATUS m1 ∨ ID m1 = d ∧ STATUS m2 = STATUS_SETTLED))
    as Hrefl.
  { intros i m1 Hi1. exists m1. split_and!; [done | done | by left]. }
  destruct (js_ge _ 95).
  - destruct (updateMovementStatus_cases d STATUS_SETTLED s1)
      as (s2 & -> & Hs2).
    destruct Hs2 as [-> | (k & r & Hk & Hr & ->)]; [by apply Hdone |].
    apply Hdone;
      try (rewrite list_fmap_insert; by apply list_insert_id;
           rewrite list_lookup_fmap, Hk).
    intros i m1 Hi1.
    destruct (lookup_insert_cases s1 k i m1 (set_STATUS STATUS_SETTLED r) Hi1)
      as [[Hl ->] | Hl].
    + assert (m1 = r) as -> by congruence.
      eexists. split; [exact Hl |]. split; [done |]. by right.
    + exists m1. split_and!; [by rewrite Hl | done | by left].
  - destruct (js_ge _ 50); by apply Hdone.
Qed.
End SettlementFrame.

Lemma settlement_frame_witness :
  ∃ calls s',
    processDebitRepaymentSettlement sampleMatcher 2 (sampleRepayment 2 100)
      [sampleDebit 1; sampleRepayment 2 100] = Return calls s'
    ∧ ID <$> s' = [1%Z; 2%Z].
Proof.
  destruct (settlement_frame sampleMatcher 2 (sampleRepayment 2 100)
              [sampleDebit 1; sampleRepayment 2 100])
    as (calls & s' & Hrun & _ & Hid & _).
  - unfold unique_ids. simpl. apply NoDup_cons. split.
    + intros [=]%list_elem_of_singleton.
    + apply NoDup_singleton.
  - exists calls, s'. split; [exact Hrun | exact Hid].
Defined.

(** ** Ids of appended rows *)

Lemma foldr_max_nonneg (l : list Z) : (0 ≤ foldr Z.max 0 l)%Z.
Proof. induction l as [|x l IH]; cbn [foldr]; lia. Qed.

Lemma foldr_max_app (l1 l2 : list Z) :
  foldr Z.max 0%Z (l1 ++ l2)
  = Z.max (foldr Z.max 0%Z l1) (foldr Z.max 0%Z l2).
Proof.
  induction l1 as [|x l1 IH]; cbn [foldr app].
  - pose proof (foldr_max_nonneg l2). lia.
  - rewrite IH. lia.
Qed.

Lemma foldr_max_Permutation (l1 l2 : list Z) :
  l1 ≡ₚ l2 → foldr Z.max 0%Z l1 = foldr Z.max 0%Z l2.
Proof.
  induction 1 as [| x l1 l2 _ IH | x y l | l1 l2 l3 _ IH1 _ IH2];
    cbn [foldr]; [done | by rewrite IH | lia | congruence].
Qed.

Lemma foldr_max_seqZ (b : Z) (k : nat) :
  (0 ≤ b)%Z →
  Z.max b (foldr Z.max 0%Z (seqZ (b + 1) (Z.of_nat k))) = (b + Z.of_nat k)%Z.
Proof.
  revert b. induction k as [|k IH]; intros b Hb.
  - rewrite seqZ_nil by lia. cbn [foldr]. lia.
  - rewrite seqZ_cons by lia. cbn [foldr].
    replace (Z.pred (Z.of_nat (S k))) with (Z.of_nat k) by lia.
    replace (Z.succ (b + 1)) with (b + 1 + 1)%Z by lia.
    specialize (IH (b + 1)%Z ltac:(lia)). lia.
Qed.

(** Appending rows whose ids are the next ones, in any order, moves the
    next id past them and keeps the ids unique. *)
Lemma getNextId_append (s rows : store) :
  ID <$> rows ≡ₚ seqZ (getNextId s) (Z.of_nat (length rows)) →
  getNextId (s ++ rows) = (getNextId s + Z.of_nat (length rows))%Z
  ∧ (unique_ids s → unique_ids (s ++ rows)).
Proof.
  intros Hids. split.
  - rewrite !getNextId_max_id. unfold max_id at 1.
    rewrite fmap_app, foldr_max_app, (foldr_max_Permutation _ _ Hids).
    fold (max_id s). rewrite getNextId_max_id.
    pose proof (foldr_max_seqZ (max_id s) (length rows) (max_id_nonneg s)).
    lia.
  - unfold unique_ids. rewrite fmap_app. intros Hu.
    apply NoDup_app. split_and!; [done | | ].
    + intros n Hn Hn'. rewrite Hids in Hn'.
      apply elem_of_seqZ in Hn' as [Hge _].
      apply list_elem_of_fmap in Hn as (m & -> & Hm).
      pose proof (getNextId_above s m Hm). lia.
    + rewrite Hids. apply NoDup_seqZ.
Qed.

Lemma seqZ_ids_fresh (s : store) (ids : list Z) (k : nat) :
  ids = seqZ (getNextId s) (Z.of_nat k) →
  NoDup ids ∧ Forall (λ n, (getNextId s ≤ n)%Z) ids.
Proof.
  intros ->. split; [apply NoDup_seqZ |].
  apply Forall_forall. by intros n [? _]%elem_of_seqZ.
Qed.

(** ** Bank emails *)

Lemma getExistingSourceIds_elem (source key : string) (s : store) :
  truthy source = true →
  key ∈ getExistingSourceIds (Some source) s
  ↔ truthy key = true
    ∧ ∃ m, m ∈ s ∧ SOURCE m = source ∧ SOURCE_ID m = key.
Proof.
  intros Hsource. unfold getExistingSourceIds, getAllMovements.
  destruct s as [|m0 s]; cbn [length Nat.eqb].
  - split; [by intros ?%not_elem_of_empty |].
    by intros (_ & m & ?%elem_of_nil & _).
  - rewrite Hsource.
    rewrite elem_of_list_to_set, list_elem_of_fmap. split.
    + intros (m & -> & (Hm & Hin)%list_elem_of_filter).
      apply andb_true_iff in Hm as [Hs%String.eqb_eq Ht]. eauto.
    + intros (Ht & m & Hin & Hs & <-). exists m. split; [done |].
      apply list_elem_of_filter. split; [| done].
      apply andb_true_iff. by rewrite String.eqb_eq.
Qed.

Section BankEmailRuns.
Context {currencyConversionService : CurrencyConversionService}.
Variable getUnprocessedMessages : gset string → list gmailMessage.
Variable parseEmailWithGoogleAIStudio :
  string → string → option Transaction.t.

Lemma createMovementRow_not_queued (transaction : Transaction.t)
    (nextId : Z) :
  let movementRow := createMovementRow transaction nextId in
  SOURCE movementRow = SOURCES_GMAIL
  ∧ SOURCE_ID movementRow = Transaction.gmailId transaction
  ∧ ¬ needs_category_analysis movementRow
  ∧ STATUS movementRow ≠ STATUS_PENDING_SPLITWISE_SETTLEMENT.
Proof.
  cbv zeta. cbn [createMovementRow SOURCE SOURCE_ID STATUS].
  unfold getStatusForTransactionType. split_and!; try done.
  - rewrite needs_category_analysis_iff. cbn. tauto.
  - destruct (_ || _); [done |]. by destruct (String.eqb _ _).
Qed.

(** X8.  A row made from a parsed email carries the id it is given, the
    source [gmail] and the message id as its key.  It has no description
    by the user, so it is not selected for category analysis; it never
    awaits upload to Splitwise; it awaits direct settlement exactly when
    its type is Debit or Credit, and is among the pending debits exactly
    when its type is Debit.  Its direction is inflow exactly for Credit
    and neutral exactly for Debit Repayment. *)
Theorem createMovementRow_queues (transaction : Transaction.t) (nextId : Z) :
  let movementRow := createMovementRow transaction nextId in
  let type := Transaction.transactionType transaction in
  ID movementRow = nextId
  ∧ SOURCE movementRow = SOURCES_GMAIL
  ∧ SOURCE_ID movementRow = Transaction.gmailId transaction
  ∧ ¬ needs_category_analysis movementRow
  ∧ STATUS movementRow ≠ STATUS_PENDING_SPLITWISE_SETTLEMENT
  ∧ (STATUS movementRow = STATUS_PENDING_DIRECT_SETTLEMENT
     ↔ type = MOVEMENT_TYPES_DEBIT ∨ type = MOVEMENT_TYPES_CREDIT)
  ∧ (pending_debit movementRow ↔ type = MOVEMENT_TYPES_DEBIT)
  ∧ (DIRECTION movementRow = DIRECTIONS_INFLOW
     ↔ type = MOVEMENT_TYPES_CREDIT)
  ∧ (DIRECTION movementRow = DIRECTIONS_NEUTRAL
     ↔ type = MOVEMENT_TYPES_DEBIT_REPAYMENT).
Proof.
  cbv zeta. unfold pending_debit. cbn [createMovementRow ID SOURCE SOURCE_ID
    STATUS TYPE DIRECTION].
  unfold getStatusForTransactionType, getDirectionForTransactionType.
  split_and!; try done.
  - rewrite needs_category_analysis_iff. cbn. tauto.
  - destruct (_ || _); [done |]. by destruct (String.eqb _ _).
  - destruct (String.eqb_spec (Transaction.transactionType transaction)
                MOVEMENT_TYPES_DEBIT) as [-> | Hd];
      [cbn; split; [by left | done] |].
    destruct (String.eqb_spec (Transaction.transactionType transaction)
                MOVEMENT_TYPES_CREDIT) as [-> | Hc];
      [cbn; split; [by right | done] |].
    cbn [orb]. destruct (String.eqb _ _); split; try done; tauto.
  - destruct (String.eqb_spec (Transaction.transactionType transaction)
                MOVEMENT_TYPES_DEBIT) as [-> | Hd]; [by cbn |].
    tauto.
  - destruct (String.eqb_spec (Transaction.transactionType transaction)
                MOVEMENT_TYPES_CREDIT) as [-> | Hc]; [by cbn |].
    destruct (_ || _); [done |].
    destruct (String.eqb _ _); split; done.
  - destruct (String.eqb_spec (Transaction.transactionType transaction)
                MOVEMENT_TYPES_DEBIT_REPAYMENT) as [-> | Hc]; [by cbn |].
    destruct (_ || _); [done |]. destruct (String.eqb _ _); split; done.
Qed.

Lemma emailBatch_ids (unprocessedMessages : list gmailMessage) (nextId : Z) :
  let batchMovements :=
    emailBatch parseEmailWithGoogleAIStudio unprocessedMessages nextId in
  batchIds batchMovements
  = seqZ nextId (Z.of_nat (length batchMovements)).
Proof.
  cbv zeta. revert nextId.
  induction unprocessedMessages as [|message l IH]; intros nextId; [done |].
  cbn [emailBatch].
  destruct (parseEmailWithGoogleAIStudio _ _) as [transaction|]; [| apply IH].
  unfold batchIds in *. csimpl. rewrite IH.
  rewrite (seqZ_cons nextId) by lia. do 2 f_equal; lia.
Qed.

Lemma emailBatch_rows (unprocessedMessages : list gmailMessage) (nextId : Z) :
  let batchMovements :=
    emailBatch parseEmailWithGoogleAIStudio unprocessedMessages nextId in
  length batchMovements
  = length (filter (λ message,
              is_Some (parseEmailWithGoogleAIStudio (getPlainBody message)
                         (getId message))) unprocessedMessages)
  ∧ (∀ item, item ∈ batchMovements →
       ∃ transaction n, row item = createMovementRow transaction n)
  ∧ (∀ message transaction,
       message ∈ unprocessedMessages →
       parseEmailWithGoogleAIStudio (getPlainBody message) (getId message)
         = Some transaction →
       ∃ item, item ∈ batchMovements
         ∧ SOURCE_ID (row item) = Transaction.gmailId transaction).
Proof.
  cbv zeta. revert nextId.
  induction unprocessedMessages as [|message l IH]; intros nextId.
  - split_and!; [done | by intros ? ?%elem_of_nil
                 | by intros ? ? ?%elem_of_nil].
  - cbn [emailBatch]. rewrite filter_cons.
    destruct (parseEmailWithGoogleAIStudio _ _) as [transaction|] eqn:E.
    + destruct (IH (nextId + 1)%Z) as (Hlen & Hrows & Hkeys).
      rewrite decide_True by done. split_and!.
      * cbn [length]. by rewrite Hlen.
      * intros item [-> | Hin]%elem_of_cons; [by eexists _, _ | eauto].
      * intros message' t' [-> | Hin]%elem_of_cons Hparse.
        -- rewrite E in Hparse. injection Hparse as <-.
           eexists. split; [by apply elem_of_cons; left | done].
        -- destruct (Hkeys message' t' Hin Hparse) as (item & Hitem & Hk).
           exists item. split; [by apply elem_of_cons; right | done].
    + destruct (IH nextId) as (Hlen & Hrows & Hkeys).
      rewrite decide_False by (by intros [? ?]). split_and!; [done | done |].
      intros message' t' [-> | Hin]%elem_of_cons Hparse; [congruence |].
      eauto.
Qed.

(** X9.  A run over the bank emails always returns.  It appends one row
    for each message that parses and changes no row; the new rows carry
    the ids from the next id on, without gap or repetition, so unique
    ids stay unique; none of them is selected for category analysis or
    awaits upload to Splitwise; and the key of every parsed message is
    then among the Gmail ids of the sheet. *)
Theorem processBankEmails_appends (s : store) :
  let unprocessedMessages := getUnprocessedMessages (getExistingGmailIds s) in
  ∃ rows,
    processBankEmails getUnprocessedMessages parseEmailWithGoogleAIStudio s
      = Return tt (s ++ rows)
    ∧ length rows
      = length (filter (λ message,
                  is_Some (parseEmailWithGoogleAIStudio
                             (getPlainBody message) (getId message)))
                  unprocessedMessages)
    ∧ ID <$> rows ≡ₚ seqZ (getNextId s) (Z.of_nat (length rows))
    ∧ getNextId (s ++ rows) = (getNextId s + Z.of_nat (length rows))%Z
    ∧ (unique_ids s → unique_ids (s ++ rows))
    ∧ Forall (λ movementRow,
        SOURCE movementRow = SOURCES_GMAIL
        ∧ ¬ needs_category_analysis movementRow
        ∧ STATUS movementRow ≠ STATUS_PENDING_SPLITWISE_SETTLEMENT) rows
    ∧ (∀ message transaction,
         message ∈ unprocessedMessages →
         parseEmailWithGoogleAIStudio (getPlainBody message) (getId message)
           = Some transaction →
         truthy (Transaction.gmailId transaction) = true →
         Transaction.gmailId transaction ∈ getExistingGmailIds (s ++ rows)).
Proof.
  intros unprocessedMessages.
  set (batch := emailBatch parseEmailWithGoogleAIStudio unprocessedMessages
                  (getNextId s)).
  pose proof (emailBatch_ids unprocessedMessages (getNextId s)) as Hids.
  destruct (emailBatch_rows unprocessedMessages (getNextId s))
    as (Hlen & Hrows & Hkeys).
  cbv zeta in Hids. fold batch in Hids, Hlen, Hrows, Hkeys.
  destruct (seqZ_ids_fresh s _ _ Hids) as [Hnd Hge].
  set (rows := row <$> Array_sort compareFn batch).
  assert (rows ≡ₚ row <$> batch) as Hperm
    by (subst rows; by rewrite Array_sort_Permutation).
  assert (processBankEmails getUnprocessedMessages
            parseEmailWithGoogleAIStudio s = Return tt (s ++ rows)) as Hrun.
  { unfold processBankEmails. run. fold unprocessedMessages.
    destruct unprocessedMessages as [|m0 ml] eqn:Hm.
    { subst rows batch. cbn. by rewrite app_nil_r. }
    cbn [length Nat.eqb]. fold batch.
    destruct (Nat.ltb_spec 0 (length batch)) as [Hpos | Hzero].
    - rewrite addMovementsBatch_fresh by done. by subst rows.
    - assert (batch = []) as Hb by (apply length_zero_iff_nil; lia).
      subst rows. rewrite Hb. cbn. by rewrite app_nil_r. }
  assert (length rows = length batch) as Hlength.
  { by rewrite Hperm, length_fmap. }
  assert (ID <$> rows ≡ₚ seqZ (getNextId s) (Z.of_nat (length rows)))
    as Hrowids.
  { rewrite Hlength, <- Hids, Hperm. unfold batchIds.
    by rewrite <- list_fmap_compose. }
  destruct (getNextId_append s rows Hrowids) as [Hnext Hunique].
  exists rows. split_and!; try done.
  - by rewrite Hlength.
  - apply Forall_forall. intros r Hr. rewrite Hperm in Hr.
    apply list_elem_of_fmap in Hr as (item & -> & Hitem).
    destruct (Hrows item Hitem) as (t & n & ->).
    by destruct (createMovementRow_not_queued t n) as (Hs & _ & Hn & Hst).
  - intros message t Hin Hparse Htruthy.
    destruct (Hkeys message t Hin Hparse) as (item & Hitem & Hkey).
    unfold getExistingGmailIds.
    apply getExistingSourceIds_elem; [done |]. split; [done |].
    exists (row item). split_and!; [| | done].
    + apply elem_of_app. right. rewrite Hperm.
      by apply list_elem_of_fmap_2.
    + by destruct (Hrows item Hitem) as (t' & n & ->).
Qed.
End BankEmailRuns.

(** ** Idempotent ingestion (claim C9) *)

Section BankEmailKeys.
Context {currencyConversionService : CurrencyConversionService}.
Variable getUnprocessedMessages : gset string → list gmailMessage.
Variable parseEmailWithGoogleAIStudio :
  string → string → option Transaction.t.

(** The transaction read from a message carries the id of the message:
    [parseGoogleAIStudioResponse] copies it. *)
Hypothesis parse_gmailId : ∀ emailBody gmailId transaction,
  parseEmailWithGoogleAIStudio emailBody gmailId = Some transaction →
  Transaction.gmailId transaction = gmailId.

(** The keys of the rows of a batch are the ids of the messages that
    parse, in order; all its rows are from Gmail. *)
Lemma emailBatch_keys (unprocessedMessages : list gmailMessage)
    (nextId : Z) :
  (λ item, SOURCE_ID (row item))
    <$> emailBatch parseEmailWithGoogleAIStudio unprocessedMessages nextId
  = getId <$> filter (λ message, parses parseEmailWithGoogleAIStudio message)
                unprocessedMessages
  ∧ Forall (λ item, SOURCE (row item) = SOURCES_GMAIL)
      (emailBatch parseEmailWithGoogleAIStudio unprocessedMessages nextId).
Proof.
  revert nextId.
  induction unprocessedMessages as [|message l IH]; intros nextId; [done |].
  cbn [emailBatch]. rewrite filter_cons.
  destruct (parseEmailWithGoogleAIStudio _ _) as [transaction|] eqn:E.
  - destruct (IH (nextId + 1)%Z) as [IH1 IH2].
    rewrite decide_True by done. csimpl.
    rewrite IH1, (parse_gmailId _ _ _ E). split; [done |]. by constructor.
  - rewrite decide_False by (by intros [? ?]). apply IH.
Qed.

(** A run returns, having appended the rows of its batch in the order
    of the comparator. *)
Lemma processBankEmails_eq (s : store) :
  let batchMovements :=
    emailBatch parseEmailWithGoogleAIStudio
      (getUnprocessedMessages (getExistingGmailIds s)) (getNextId s) in
  processBankEmails getUnprocessedMessages parseEmailWithGoogleAIStudio s
  = Return tt (s ++ (row <$> Array_sort compareFn batchMovements)).
Proof.
  intros batch.
  pose proof (emailBatch_ids parseEmailWithGoogleAIStudio
                (getUnprocessedMessages (getExistingGmailIds s))
                (getNextId s)) as Hids.
  cbv zeta in Hids. fold batch in Hids.
  destruct (seqZ_ids_fresh s _ _ Hids) as [Hnd Hge].
  unfold processBankEmails. run. subst batch.
  destruct (getUnprocessedMessages (getExistingGmailIds s)) as [|m0 ml].
  { cbn. by rewrite app_nil_r. }
  cbn [length Nat.eqb].
  set (batch := emailBatch _ _ _) in *.
  destruct (Nat.ltb_spec 0 (length batch)) as [Hpos | Hzero].
  - by rewrite addMovementsBatch_fresh.
  - assert (batch = []) as -> by (apply length_zero_iff_nil; lia).
    cbn. by rewrite app_nil_r.
Qed.

(** The rows a run adds under a key: one for every message the client
    returns with that id that parses.  The run compares no key itself:
    it hands the Gmail keys of the sheet to the client. *)
Lemma processBankEmails_count (s : store) (key : string) :
  let unprocessedMessages := getUnprocessedMessages (getExistingGmailIds s) in
  let s1 :=
    final_store
      (processBankEmails getUnprocessedMessages parseEmailWithGoogleAIStudio
         s) in
  length (movementsWithSourceId SOURCES_GMAIL key s1)
  = (length (movementsWithSourceId SOURCES_GMAIL key s)
     + length (filter (λ message,
                 getId message = key
                 ∧ parses parseEmailWithGoogleAIStudio message)
                 unprocessedMessages))%nat.
Proof.
  cbv zeta. rewrite processBankEmails_eq. cbn [final_store].
  set (messages := getUnprocessedMessages (getExistingGmailIds s)).
  destruct (emailBatch_keys messages (getNextId s)) as [Hkeys Hsrc].
  unfold movementsWithSourceId. rewrite filter_app, length_app. f_equal.
  rewrite Array_sort_Permutation.
  rewrite (count_source_rows _ key _ Hsrc), Hkeys, <- count_fmap.
  by rewrite list_filter_filter.
Qed.

(** With a client that returns the messages of a mailbox whose ids it
    is not handed, a second run over the same mailbox inserts
    nothing. *)
Lemma processBankEmails_again (mailbox : list gmailMessage) (s : store) :
  (∀ existingGmailIds,
     getUnprocessedMessages existingGmailIds
     = filter (λ message, getId message ∉ existingGmailIds) mailbox) →
  Forall (λ message, truthy (getId message) = true) mailbox →
  let s1 :=
    final_store
      (processBankEmails getUnprocessedMessages parseEmailWithGoogleAIStudio
         s) in
  processBankEmails getUnprocessedMessages parseEmailWithGoogleAIStudio s1
  = Return tt s1.
Proof.
  intros Hclient Hkeys. cbv zeta.
  rewrite (processBankEmails_eq s). cbn [final_store].
  set (batch := emailBatch _ _ (getNextId s)).
  set (s1 := s ++ (row <$> Array_sort compareFn batch)).
  rewrite (processBankEmails_eq s1).
  assert (emailBatch parseEmailWithGoogleAIStudio
            (getUnprocessedMessages (getExistingGmailIds s1))
            (getNextId s1) = []) as ->; [| cbn; by rewrite app_nil_r].
  apply (fmap_nil_inv (λ item, SOURCE_ID (row item))).
  rewrite (proj1 (emailBatch_keys _ _)), !Hclient, list_filter_filter.
  rewrite filter_none; [done |].
  intros message Hin [Hparses Hnew]. apply Hnew.
  unfold getExistingGmailIds.
  apply getExistingSourceIds_elem; [done |].
  split; [by eapply Forall_forall in Hkeys |].
  destruct (decide (getId message ∈ getExistingGmailIds s))
    as [Hold | Hfresh].
  - apply getExistingSourceIds_elem in Hold as (_ & m & Hm & Hs & Hk);
      [| done].
    exists m. split; [| done]. apply elem_of_app. by left.
  - destruct (emailBatch_keys (getUnprocessedMessages (getExistingGmailIds s))
                (getNextId s)) as [Hbkeys Hsrc].
    fold batch in Hbkeys, Hsrc.
    assert (getId message ∈ (λ item, SOURCE_ID (row item)) <$> batch)
      as Hkey.
    { rewrite Hbkeys, Hclient. apply list_elem_of_fmap_2.
      apply list_elem_of_filter. split; [done |].
      by apply list_elem_of_filter. }
    apply list_elem_of_fmap in Hkey as (item & Hk & Hitem).
    exists (row item). split_and!; [| | done].
    + apply elem_of_app. right. rewrite Array_sort_Permutation.
      by apply list_elem_of_fmap_2.
    + by eapply Forall_forall in Hsrc.
Qed.
End BankEmailKeys.

(** A feed that lists a key twice: a Splitwise movement fetched both
    with the credits and with the debits.  The run compares its key
    with the keys the sheet held when the run began and so inserts it
    twice; the second run inserts nothing, and two rows stay under the
    key. *)
Lemma ingestion_key_listed_twice :
  let run := processSplitwiseMovements
               (currencyConversionService := sampleService) true
               [sampleSplitwiseMovement "9001"]
               [sampleSplitwiseMovement "9001"] in
  let s1 := final_store (run []) in
  run [] = Return tt s1 ∧ run s1 = Return tt s1
  ∧ ACCOUNTING_SYSTEM_ID <$> s1 = ["9001"; "9001"]
  ∧ length (movementsWithAccountingSystemId "9001" s1) = 2%nat.
Proof. split_and!; vm_compute; reflexivity. Qed.

(** C9.  What a run of each of the three ingestion pipelines adds under
    a key, and what a second run over the same feed adds.

    Splitwise, by accounting system id: a run over a feed of valid
    dates returns; a run that returns has added no row under a key the
    sheet held when it began, and under any other key one row for each
    movement of the feed with that key; if no key of the feed is empty,
    a second run over the same feed returns with the sheet unchanged.

    Monzo, by source id: whatever the client, a run that returns has
    appended the rows made from the transactions whose id was not among
    the Monzo keys of the sheet, and no other.  With a client that
    gives the movement it makes the row id it is offered and the id of
    the transaction as key, and whose ability to convert a transaction
    does not depend on the row id: the same as for Splitwise, a run
    always returning and the rows added being those of the transactions
    the client converts.

    Gmail, by source id, with a parser that gives the transaction the
    id of the message: a run returns, and has added under every key one
    row for each message with that id that the client returned and that
    parses.  With a client that returns the messages of the mailbox
    whose ids are not among the keys it is handed, that is no row under
    a key the sheet held and one for each message of the mailbox with
    that id that parses under any other; and if no id is empty, a
    second run over the same mailbox returns with the sheet
    unchanged. *)
Theorem ingestion_idempotent `{CurrencyConversionService} :
  (∀ creditMovements debitMovements s,
     let feed := creditMovements ++ debitMovements in
     let run := processSplitwiseMovements true creditMovements
                  debitMovements in
     (Forall has_date feed → ∃ s1, run s = Return tt s1)
     ∧ ∀ s1, run s = Return tt s1 →
         (∀ key,
            length (movementsWithAccountingSystemId key s1)
            = (length (movementsWithAccountingSystemId key s)
               + if decide (key ∈ getExistingAccountingSystemIds s) then 0
                 else length (filter (λ movement,
                                splitwiseId movement = key) feed))%nat)
         ∧ (Forall (λ movement, truthy (splitwiseId movement) = true) feed →
            run s1 = Return tt s1))
  ∧ (∀ (convertTransactionToMovement :
          monzoTransaction → Z → option movement) transactions s,
       let run := processMonzoTransactions convertTransactionToMovement
                    true transactions in
       (∀ s1, run s = Return tt s1 →
          ∃ batchMovements,
            s1 = s ++ (row <$> batchMovements)
            ∧ batchMovements
              ≡ₚ monzoBatch convertTransactionToMovement
                   (filter (λ t,
                      id t ∉ getExistingSourceIds (Some SOURCES_MONZO) s)
                      transactions) (getNextId s))
       ∧ ((∀ transaction nextId movement,
             convertTransactionToMovement transaction nextId = Some movement →
             SOURCE_ID movement = id transaction ∧ ID movement = nextId) →
          (∀ transaction nextId nextId',
             convertTransactionToMovement transaction nextId = None →
             convertTransactionToMovement transaction nextId' = None) →
          (∃ s1, run s = Return tt s1)
          ∧ ∀ s1, run s = Return tt s1 →
              (∀ key,
                 length (movementsWithSourceId SOURCES_MONZO key s1)
                 = (length (movementsWithSourceId SOURCES_MONZO key s)
                    + if decide
                           (key
                            ∈ getExistingSourceIds (Some SOURCES_MONZO) s)
                      then 0
                      else length
                             (filter (λ t,
                                id t = key
                                ∧ converts convertTransactionToMovement t)
                                transactions))%nat)
              ∧ (Forall (λ t, truthy (id t) = true) transactions →
                 run s1 = Return tt s1)))
  ∧ (∀ (getUnprocessedMessages : gset string → list gmailMessage)
       (parseEmailWithGoogleAIStudio :
          string → string → option Transaction.t),
       (∀ emailBody gmailId transaction,
          parseEmailWithGoogleAIStudio emailBody gmailId = Some transaction →
          Transaction.gmailId transaction = gmailId) →
       ∀ s,
         let run := processBankEmails getUnprocessedMessages
                      parseEmailWithGoogleAIStudio in
         ∃ s1,
           run s = Return tt s1
           ∧ (∀ key,
                length (movementsWithSourceId SOURCES_GMAIL key s1)
                = (length (movementsWithSourceId SOURCES_GMAIL key s)
                   + length
                       (filter (λ message,
                          getId message = key
                          ∧ parses parseEmailWithGoogleAIStudio message)
                          (getUnprocessedMessages (getExistingGmailIds s))))
                  %nat)
           ∧ ∀ mailbox,
               (∀ existingGmailIds,
                  getUnprocessedMessages existingGmailIds
                  = filter (λ message, getId message ∉ existingGmailIds)
                      mailbox) →
               (∀ key,
                  length (movementsWithSourceId SOURCES_GMAIL key s1)
                  = (length (movementsWithSourceId SOURCES_GMAIL key s)
                     + if decide (key ∈ getExistingGmailIds s) then 0
                       else length
                              (filter (λ message,
                                 getId message = key
                                 ∧ parses parseEmailWithGoogleAIStudio
                                     message) mailbox))%nat)
               ∧ (Forall (λ message, truthy (getId message) = true)
                    mailbox →
                  run s1 = Return tt s1)).
Proof.
  split_and!.
  - intros creditMovements debitMovements s feed run. split.
    + by apply processSplitwiseMovements_total.
    + intros s1 Hrun. split.
      * intros key. by apply processSplitwiseMovements_count.
      * intros Hkeys. by eapply processSplitwiseMovements_again.
  - intros convertTransactionToMovement transactions s run.
    split; [intros s1 Hrun; by apply processMonzoTransactions_returns |].
    intros Hconv Hdef.
    assert (∀ transaction nextId movement,
              convertTransactionToMovement transaction nextId = Some movement →
              SOURCE_ID movement = id transaction) as Hkey
      by (intros t n mv E; by destruct (Hconv t n mv E)).
    assert (∀ transaction nextId movement,
              convertTransactionToMovement transaction nextId = Some movement →
              ID movement = nextId) as Hid
      by (intros t n mv E; by destruct (Hconv t n mv E)).
    split.
    + by apply processMonzoTransactions_total.
    + intros s1 Hrun. split.
      * intros key. by apply processMonzoTransactions_count.
      * intros Hkeys. by eapply processMonzoTransactions_again.
  - intros getUnprocessedMessages parseEmailWithGoogleAIStudio Hparse s run.
    exists (final_store (run s)). split_and!.
    + unfold run. by rewrite processBankEmails_eq.
    + intros key. by apply processBankEmails_count.
    + intros mailbox Hclient. split.
      * intros key. unfold run.
        rewrite processBankEmails_count by done. f_equal.
        rewrite Hclient, list_filter_filter.
        destruct (decide (key ∈ getExistingGmailIds s)) as [Hin | Hnin].
        -- rewrite filter_none; [done |]. by intros m _ [[-> _] Hm].
        -- f_equal. apply list_filter_iff. intros m.
           split; [by intros [? _] |]. intros [-> Hp]. by split.
      * intros Hkeys.
        exact (processBankEmails_again _ _ Hparse mailbox s Hclient Hkeys).
Qed.

(** Two emails, of which one parses, ingested twice into an empty
    sheet by way of a client that filters the mailbox: one row under the
    id of the message that parses, none under the other, and the second
    run changes nothing. *)
Lemma ingestion_idempotent_witness :
  let run := processBankEmails (currencyConversionService := sampleService)
               sampleGetUnprocessedMessages sampleParseEmail in
  ∃ s1,
    run [] = Return tt s1
    ∧ run s1 = Return tt s1
    ∧ length (movementsWithSourceId SOURCES_GMAIL "msg-a" s1) = 1%nat
    ∧ length (movementsWithSourceId SOURCES_GMAIL "msg-b" s1) = 0%nat.
Proof.
  intros run.
  assert (∀ emailBody gmailId transaction,
            sampleParseEmail emailBody gmailId = Some transaction →
            Transaction.gmailId transaction = gmailId) as Hparse.
  { intros body gid t. unfold sampleParseEmail.
    destruct (truthy body); [| done]. by intros [= <-]. }
  destruct (@ingestion_idempotent sampleService) as (_ & _ & Hgmail).
  destruct (Hgmail sampleGetUnprocessedMessages sampleParseEmail Hparse [])
    as (s1 & Hrun & _ & Hmailbox).
  destruct (Hmailbox sampleMailbox (λ _, eq_refl)) as [Hcount Hagain].
  exists s1. split_and!.
  - exact Hrun.
  - apply Hagain. by repeat constructor.
  - rewrite (Hcount "msg-a"). reflexivity.
  - rewrite (Hcount "msg-b"). reflexivity.
Defined.

(** ** Rows read from Splitwise *)

Section SplitwiseRows.
Context {currencyConversionService : CurrencyConversionService}.

Lemma splitwiseBatch_rows (newMovements : list splitwiseMovement)
    (nextId : Z) (s s' : store) (batchMovements : list batchItem) :
  splitwiseBatch newMovements nextId s = Return batchMovements s' →
  s' = s
  ∧ length batchMovements = length newMovements
  ∧ batchIds batchMovements = seqZ nextId (Z.of_nat (length newMovements))
  ∧ Forall (λ item,
      STATUS (row item) = "" ∧ USER_DESCRIPTION (row item) = ""
      ∧ SOURCE (row item) = SOURCES_SPLITWISE ∧ SOURCE_ID (row item) = "")
      batchMovements.
Proof.
  revert nextId batchMovements.
  induction newMovements as [|m l IH]; intros nextId batch.
  - intros [= <- <-]. by split_and!.
  - cbn [splitwiseBatch]. run. unfold createSplitwiseMovementRow at 1.
    destruct (date m) as [|[timestamp|]]; [done | | done].
    destruct (bool_decide (paidBy m ≠ None)),
      (bool_decide (owedBy m ≠ None)); simpl;
      (destruct (splitwiseBatch l (nextId + 1)%Z s) as [b s0|] eqn:Hb;
        [| done]);
      intros [= <- <-];
      destruct (IH _ _ Hb) as (-> & Hlen & Hids & Hrows);
      (split_and!;
        [done | by cbn [length]; rewrite Hlen
        | unfold batchIds in *; csimpl; rewrite Hids;
          rewrite (seqZ_cons nextId) by lia; do 2 f_equal; lia
        | by constructor]).
Qed.

(** X10.  A run over the Splitwise feed that returns has appended one
    row for each movement it had not seen and changed no row.  The new
    rows carry the ids from the next id on, without gap or repetition,
    so unique ids stay unique.  None of them has a status or a
    description by the user: the movements awaiting category analysis,
    direct settlement and upload to Splitwise are the same after the
    run as before. *)
Theorem processSplitwiseMovements_appends (connectionTest : bool)
    (creditMovements debitMovements : list splitwiseMovement)
    (s s1 : store) :
  processSplitwiseMovements connectionTest creditMovements debitMovements s
    = Return tt s1 →
  ∃ rows,
    s1 = s ++ rows
    ∧ (connectionTest = true →
       length rows
       = length (filter (λ movement,
                   splitwiseId movement ∉ getExistingAccountingSystemIds s)
                   (creditMovements ++ debitMovements)))
    ∧ ID <$> rows ≡ₚ seqZ (getNextId s) (Z.of_nat (length rows))
    ∧ getNextId s1 = (getNextId s + Z.of_nat (length rows))%Z
    ∧ (unique_ids s → unique_ids s1)
    ∧ getMovementsNeedingCategoryAnalysis s1
      = getMovementsNeedingCategoryAnalysis s
    ∧ getMovementsPendingDirectSettlement s1
      = getMovementsPendingDirectSettlement s
    ∧ getMovementsPendingSplitwiseSettlement s1
      = getMovementsPendingSplitwiseSettlement s.
Proof.
  intros Hrun.
  assert (∃ rows, s1 = s ++ rows
    ∧ (connectionTest = true →
       length rows
       = length (filter (λ movement,
                   splitwiseId movement ∉ getExistingAccountingSystemIds s)
                   (creditMovements ++ debitMovements)))
    ∧ ID <$> rows ≡ₚ seqZ (getNextId s) (Z.of_nat (length rows))
    ∧ Forall (λ r, STATUS r = "" ∧ USER_DESCRIPTION r = "") rows)
    as (rows & -> & Hlen & Hids & Hrows).
  { revert Hrun. unfold processSplitwiseMovements. run.
    destruct connectionTest; cbn [negb].
    2: { intros [= <-]. exists []. rewrite app_nil_r. by split_and!. }
    set (new := filter _ (creditMovements ++ debitMovements)).
    destruct (length (creditMovements ++ debitMovements) =? 0)%nat eqn:Hall.
    { intros [= <-]. exists []. rewrite app_nil_r.
      split_and!; [done | | done | done]. intros _. subst new.
      apply Nat.eqb_eq, length_zero_iff_nil in Hall. by rewrite Hall. }
    destruct (length new =? 0)%nat eqn:Hnew.
    { intros [= <-]. exists []. rewrite app_nil_r.
      split_and!; [done | | done | done]. intros _.
      by apply Nat.eqb_eq in Hnew. }
    destruct (splitwiseBatch new (getNextId s) s) as [batch s0|] eqn:Hb;
      [| done].
    destruct (splitwiseBatch_rows _ _ _ _ _ Hb) as (-> & Hlen & Hids & Hrows).
    destruct (seqZ_ids_fresh s _ _ Hids) as [Hnd Hge].
    destruct (Nat.ltb_spec 0 (length batch)) as [Hpos | Hzero].
    - rewrite addMovementsBatch_fresh by done. intros [= <-].
      exists (row <$> Array_sort compareFn batch).
      assert (row <$> Array_sort compareFn batch ≡ₚ row <$> batch) as Hperm
        by (by rewrite Array_sort_Permutation).
      split_and!; [done | | | ].
      + intros _. by rewrite Hperm, length_fmap.
      + rewrite Hperm, length_fmap, Hlen, <- Hids. unfold batchIds.
        by rewrite <- list_fmap_compose.
      + apply Forall_forall. intros r Hr. rewrite Hperm in Hr.
        apply list_elem_of_fmap in Hr as (item & -> & Hitem).
        eapply Forall_forall in Hrows; [| exact Hitem]. tauto.
    - apply Nat.eqb_neq in Hnew. lia. }
  destruct (getNextId_append s rows Hids) as [Hnext Hunique].
  exists rows. split_and!; try done.
  - unfold getMovementsNeedingCategoryAnalysis, getAllMovements.
    rewrite filter_app, (filter_none _ rows), app_nil_r; [done |].
    intros r Hr. eapply Forall_forall in Hrows as [_ Hd]; [| exact Hr].
    by rewrite Hd.
  - unfold getMovementsPendingDirectSettlement, getAllMovements.
    rewrite filter_app, (filter_none _ rows), app_nil_r; [done |].
    intros r Hr. eapply Forall_forall in Hrows as [Hst _]; [| exact Hr].
    rewrite Hst. by rewrite andb_false_r.
  - unfold getMovementsPendingSplitwiseSettlement, getAllMovements.
    rewrite filter_app, (filter_none _ rows), app_nil_r; [done |].
    intros r Hr. eapply Forall_forall in Hrows as [Hst _]; [| exact Hr].
    by rewrite Hst.
Qed.
End SplitwiseRows.

Lemma processSplitwiseMovements_appends_witness :
  ∃ rows,
    final_store
      (processSplitwiseMovements (currencyConversionService := sampleService)
         true [sampleSplitwiseMovement "9001"] [] [sampleMovement 1 50])
    = [sampleMovement 1 50] ++ rows
    ∧ ID <$> rows ≡ₚ seqZ 2 (Z.of_nat (length rows)).
Proof.
  destruct (@processSplitwiseMovements_appends sampleService true
              [sampleSplitwiseMovement "9001"] [] [sampleMovement 1 50]
              (final_store
                 (processSplitwiseMovements
                    (currencyConversionService := sampleService)
                    true [sampleSplitwiseMovement "9001"] []
                    [sampleMovement 1 50])))
    as (rows & Hs1 & _ & Hids & _).
  - by vm_compute.
  - exists rows. split; [exact Hs1 | exact Hids].
Defined.

(** ** Upload to Splitwise *)

Lemma sameTimestamp_Some (a : option Z) (t : Z) :
  sameTimestamp a (Some t) = false.
Proof. by destruct a. Qed.

Lemma find_none_pred {A : Type} (f : A → bool) (l : list A) :
  (∀ x, f x = false) → find f l = None.
Proof.
  intros Hf. induction l as [|x l IH]; [done |]. cbn [find].
  by rewrite Hf.
Qed.

Lemma updateMovementWithSplitwiseInfo_cases (movementId : Z)
    (splitwiseId : string) (s : store) :
  updateMovementWithSplitwiseInfo movementId splitwiseId s
  = Return tt
      match findIndex movementId s with
      | Some (k, m) =>
          <[k := set_STATUS STATUS_IN_SPLITWISE
                   (set_ACCOUNTING_SYSTEM_ID splitwiseId m)]> s
      | None => s
      end.
Proof.
  unfold updateMovementWithSplitwiseInfo. run. unfold getAllMovements.
  destruct (findIndex movementId s) as [[k m]|] eqn:Hfind; [| done].
  destruct (findIndex_Some _ _ _ _ Hfind) as (Hk & _ & _).
  by rewrite list_alter_alter_eq, (alter_lookup _ k m s Hk).
Qed.

Section Uploads.
Variable toISOString : Z → string.
Variable createExpense : nat → expenseData → option string.

(** One turn of the loop: the request made, and the row marked. *)
Lemma pushMovement_eq (movement : movement) (sent : list expenseData)
    (s : store) :
  pushMovement toISOString createExpense movement sent s
  = match expenseFor toISOString movement with
    | None => Return sent s
    | Some expenseData =>
        Return (sent ++ [expenseData])
          match createExpense (length sent) expenseData with
          | Some splitwiseId =>
              if truthy splitwiseId then
                match findIndex (ID movement) s with
                | Some (k, m) =>
                    <[k := set_STATUS STATUS_IN_SPLITWISE
                             (set_ACCOUNTING_SYSTEM_ID splitwiseId m)]> s
                | None => s
                end
              else s
          | None => s
          end
    end.
Proof.
  unfold pushMovement, expenseFor. run.
  destruct (TIMESTAMP movement) as [t|]; [| done]. simpl.
  unfold getAllMovements. rewrite find_none_pred.
  2: { intros x. by rewrite sameTimestamp_Some. }
  destruct (createExpense _ _) as [splitwiseId|]; [| done].
  destruct (truthy splitwiseId); [| done].
  by rewrite updateMovementWithSplitwiseInfo_cases.
Qed.

Lemma pushEach_sent (pendingMovements : list movement)
    (sent : list expenseData) (s : store) :
  ∃ s',
    pushEach toISOString createExpense pendingMovements sent s
    = Return (sent ++ omap (expenseFor toISOString) pendingMovements) s'.
Proof.
  revert sent s. induction pendingMovements as [|m l IH]; intros sent s.
  - exists s. cbn. by rewrite app_nil_r.
  - cbn [pushEach]. run. rewrite pushMovement_eq. cbn [omap].
    destruct (expenseFor toISOString m) as [e|].
    + destruct (IH (sent ++ [e])
                  match createExpense (length sent) e with
                  | Some splitwiseId =>
                      if truthy splitwiseId then
                        match findIndex (ID m) s with
                        | Some (k, m0) =>
                            <[k := set_STATUS STATUS_IN_SPLITWISE
                                     (set_ACCOUNTING_SYSTEM_ID splitwiseId
                                        m0)]> s
                        | None => s
                        end
                      else s
                  | None => s
                  end) as (s' & ->).
      exists s'. by rewrite <- app_assoc.
    + apply IH.
Qed.

(** X11.  An upload run always returns.  When the connection test fails
    it asks for nothing and leaves the sheet as it was.  Otherwise it
    asks Splitwise for one expense for each movement awaiting upload
    that has a date, in the order of the sheet, and for no other.  As
    the date of a row is never identical to the date of a row of
    another read, no personal part is found: every expense is for the
    amount of its movement, with a personal share of zero. *)
Theorem pushToSplitwise_expenses (connectionTest : bool) (s : store) :
  ∃ sent s',
    pushToSplitwise toISOString createExpense connectionTest s
      = Return sent s'
    ∧ (connectionTest = false → sent = [] ∧ s' = s)
    ∧ (connectionTest = true →
       sent = omap (expenseFor toISOString)
                (getMovementsPendingSplitwiseSettlement s))
    ∧ (∀ expenseData, expenseData ∈ sent →
         ∃ movement,
           movement ∈ s
           ∧ STATUS movement = STATUS_PENDING_SPLITWISE_SETTLEMENT
           ∧ is_Some (TIMESTAMP movement)
           ∧ expense_amount expenseData = AMOUNT movement
           ∧ expense_personalAmount expenseData = 0%Q
           ∧ expense_currency expenseData = CURRENCY movement).
Proof.
  assert (∀ expenseData,
    expenseData ∈ omap (expenseFor toISOString)
                    (getMovementsPendingSplitwiseSettlement s) →
    ∃ movement,
      movement ∈ s
      ∧ STATUS movement = STATUS_PENDING_SPLITWISE_SETTLEMENT
      ∧ is_Some (TIMESTAMP movement)
      ∧ expense_amount expenseData = AMOUNT movement
      ∧ expense_personalAmount expenseData = 0%Q
      ∧ expense_currency expenseData = CURRENCY movement) as Hsent.
  { intros e (m & Hm & He)%list_elem_of_omap.
    apply list_elem_of_filter in Hm as [Hst%String.eqb_eq Hin].
    unfold expenseFor in He. exists m.
    destruct (TIMESTAMP m) as [t|]; [| done]. injection He as <-.
    by split_and!. }
  unfold pushToSplitwise. run. destruct connectionTest; cbn [negb].
  - set (pending := getMovementsPendingSplitwiseSettlement s) in *.
    destruct (length pending =? 0)%nat eqn:Hlen.
    + apply Nat.eqb_eq, length_zero_iff_nil in Hlen.
      exists [], s. split; [done |]. rewrite Hlen.
      split_and!; [done | done | by intros ? ?%elem_of_nil].
    + destruct (pushEach_sent pending [] s) as (s' & ->).
      exists (omap (expenseFor toISOString) pending), s'.
      by split_and!.
  - exists [], s. split_and!; [done | done | done |].
    by intros ? ?%elem_of_nil.
Qed.

Lemma uploaded_trans (m m1 m' : movement) :
  uploaded m m1 → uploaded m1 m' → uploaded m m'.
Proof.
  intros (id1 & _ & ->) (id2 & Hid2 & ->). by exists id2.
Qed.

Lemma uploaded_fields (m m' : movement) :
  uploaded m m' →
  ID m' = ID m ∧ AMOUNT m' = AMOUNT m ∧ CURRENCY m' = CURRENCY m
  ∧ TYPE m' = TYPE m ∧ STATUS m' = STATUS_IN_SPLITWISE
  ∧ truthy (ACCOUNTING_SYSTEM_ID m') = true.
Proof. intros (splitwiseId & Hid & ->). by split_and!. Qed.

Lemma pushMovement_step (movement : movement) (sent : list expenseData)
    (s : store) :
  ∃ sent' s',
    pushMovement toISOString createExpense movement sent s = Return sent' s'
    ∧ ID <$> s' = ID <$> s
    ∧ (∀ i m, s !! i = Some m →
         ∃ m', s' !! i = Some m'
           ∧ (m' = m ∨ (ID m = ID movement ∧ uploaded m m')))
    ∧ ((∀ n expenseData, ∃ splitwiseId,
          createExpense n expenseData = Some splitwiseId
          ∧ truthy splitwiseId = true) →
       is_Some (TIMESTAMP movement) → unique_ids s →
       ∀ i m, s !! i = Some m → ID m = ID movement →
         ∃ m', s' !! i = Some m' ∧ uploaded m m').
Proof.
  rewrite pushMovement_eq.
  assert (∀ sent', ∃ sent'' s',
    Return (A:=list expenseData) sent' s = Return sent'' s'
    ∧ ID <$> s' = ID <$> s
    ∧ (∀ i m, s !! i = Some m →
         ∃ m', s' !! i = Some m'
           ∧ (m' = m ∨ (ID m = ID movement ∧ uploaded m m')))) as Hsame.
  { intros sent'. exists sent', s. split_and!; [done | done |].
    intros i m Hi. exists m. split; [done | by left]. }
  unfold expenseFor.
  destruct (TIMESTAMP movement) as [t|] eqn:Ht.
  2: { destruct (Hsame sent) as (sent'' & s' & Heq & Hid & Hrows).
       exists sent'', s'. split_and!; try done;
         by intros _ [? ?]. }
  set (e := {| expense_amount := AMOUNT movement |}).
  destruct (createExpense (length sent) e) as [splitwiseId|] eqn:Hcreate.
  2: { destruct (Hsame (sent ++ [e])) as (sent'' & s' & Heq & Hid & Hrows).
       exists sent'', s'. split_and!; try done;
         intros Hok; destruct (Hok (length sent) e) as (? & ? & _);
         congruence. }
  destruct (truthy splitwiseId) eqn:Htruthy.
  2: { destruct (Hsame (sent ++ [e])) as (sent'' & s' & Heq & Hid & Hrows).
       exists sent'', s'. split_and!; try done;
         intros Hok; destruct (Hok (length sent) e) as (? & ? & ?);
         congruence. }
  destruct (findIndex (ID movement) s) as [[k r]|] eqn:Hfind.
  2: { destruct (Hsame (sent ++ [e])) as (sent'' & s' & Heq & Hid & Hrows).
       exists sent'', s'. split_and!; try done;
         intros _ _ Hu i m Hi Hm; rewrite <- Hm in Hfind;
         by rewrite (findIndex_unique s i m Hu Hi) in Hfind. }
  destruct (findIndex_Some _ _ _ _ Hfind) as (Hk & Hr & _).
  eexists _, _. split; [reflexivity |]. split_and!.
  - by apply ID_insert with r.
  - intros i m Hi.
    destruct (lookup_insert_cases s k i m
                (set_STATUS STATUS_IN_SPLITWISE
                   (set_ACCOUNTING_SYSTEM_ID splitwiseId r)) Hi)
      as [[Hl ->] | Hl].
    + assert (m = r) as -> by congruence.
      eexists. split; [exact Hl |]. right. split; [done |].
      by exists splitwiseId.
    + exists m. split; [done | by left].
  - intros _ _ Hu i m Hi Hm. rewrite <- Hm in Hfind.
    rewrite (findIndex_unique s i m Hu Hi) in Hfind.
    injection Hfind as <- <-. eexists. split.
    + apply list_lookup_insert_eq. by eapply lookup_lt_Some.
    + by exists splitwiseId.
Qed.

Lemma pushEach_frame (pendingMovements : list movement)
    (sent : list expenseData) (s : store) :
  ∃ sent' s',
    pushEach toISOString createExpense pendingMovements sent s
      = Return sent' s'
    ∧ ID <$> s' = ID <$> s
    ∧ (∀ i m, s !! i = Some m →
         ∃ m', s' !! i = Some m'
           ∧ (m' = m
              ∨ (ID m ∈ ID <$> pendingMovements ∧ uploaded m m')))
    ∧ ((∀ n expenseData, ∃ splitwiseId,
          createExpense n expenseData = Some splitwiseId
          ∧ truthy splitwiseId = true) →
       Forall (λ movement, is_Some (TIMESTAMP movement)) pendingMovements →
       unique_ids s →
       ∀ i m, s !! i = Some m → ID m ∈ ID <$> pendingMovements →
         ∃ m', s' !! i = Some m' ∧ uploaded m m').
Proof.
  revert sent s. induction pendingMovements as [|movement rest IH];
    intros sent s.
  - exists sent, s. split_and!; [done | done | |].
    + intros i m Hi. exists m. split; [done | by left].
    + by intros _ _ _ i m _ ?%elem_of_nil.
  - cbn [pushEach]. run.
    destruct (pushMovement_step movement sent s)
      as (sent1 & s1 & -> & Hid1 & Hrows1 & Hok1).
    destruct (IH sent1 s1) as (sent' & s' & -> & Hid' & Hrows' & Hok').
    exists sent', s'. split; [done |]. split_and!.
    + congruence.
    + intros i m Hi.
      destruct (Hrows1 i m Hi) as (m1 & Hi1 & Hm1).
      destruct (Hrows' i m1 Hi1) as (m' & Hi' & Hm').
      exists m'. split; [done |]. csimpl.
      destruct Hm1 as [-> | [Hidm Hup1]].
      * destruct Hm' as [-> | [Hin Hup]]; [by left |].
        right. split; [| done]. apply elem_of_cons. by right.
      * right. split; [apply elem_of_cons; by left |].
        destruct Hm' as [-> | [_ Hup]]; [done |].
        by eapply uploaded_trans.
    + intros Hok [Hdate Hdates]%Forall_cons Hu i m Hi Hin.
      assert (unique_ids s1) as Hu1 by (unfold unique_ids; by rewrite Hid1).
      destruct (decide (ID m = ID movement)) as [Heq | Hne].
      * destruct (Hok1 Hok Hdate Hu i m Hi Heq) as (m1 & Hi1 & Hup1).
        destruct (Hrows' i m1 Hi1) as (m' & Hi' & Hm').
        exists m'. split; [done |].
        destruct Hm' as [-> | [_ Hup]]; [done |].
        by eapply uploaded_trans.
      * destruct (Hrows1 i m Hi) as (m1 & Hi1 & [-> | [? _]]); [| done].
        apply (Hok' Hok Hdates Hu1 i m Hi1).
        csimpl in Hin. by apply elem_of_cons in Hin as [? | ?].
Qed.

Lemma column_rows {B : Type} (f : movement → B) (s s' : store) :
  ID <$> s' = ID <$> s →
  (∀ i m, s !! i = Some m → ∃ m', s' !! i = Some m' ∧ f m' = f m) →
  f <$> s' = f <$> s.
Proof.
  intros Hid Hrows. apply list_eq. intros i. rewrite !list_lookup_fmap.
  destruct (s !! i) as [m|] eqn:Hi.
  - destruct (Hrows i m Hi) as (m' & -> & Hf). simpl. by rewrite Hf.
  - apply lookup_ge_None in Hi.
    assert (length s' = length s) as Hlen
      by (by rewrite <- (length_fmap ID s'), Hid, length_fmap).
    rewrite (proj2 (lookup_ge_None s' i)); [done | lia].
Qed.

(** X12.  On a sheet with unique ids an upload run changes no id,
    amount, currency or type, and the number of rows stays.  A row
    either stays as it was, or it was awaiting upload and is now marked
    as in Splitwise under an id that is not empty, with nothing else
    changed: a row that was not awaiting upload is left alone. *)
Theorem pushToSplitwise_frame (connectionTest : bool) (s : store) :
  unique_ids s →
  ∃ sent s',
    pushToSplitwise toISOString createExpense connectionTest s
      = Return sent s'
    ∧ ID <$> s' = ID <$> s
    ∧ AMOUNT <$> s' = AMOUNT <$> s
    ∧ CURRENCY <$> s' = CURRENCY <$> s
    ∧ TYPE <$> s' = TYPE <$> s
    ∧ ∀ i m, s !! i = Some m →
        ∃ m', s' !! i = Some m'
          ∧ (m' = m
             ∨ (STATUS m = STATUS_PENDING_SPLITWISE_SETTLEMENT
                ∧ uploaded m m')).
Proof.
  intros Hu.
  assert (∃ sent s',
    pushToSplitwise toISOString createExpense connectionTest s
      = Return sent s'
    ∧ ID <$> s' = ID <$> s
    ∧ ∀ i m, s !! i = Some m →
        ∃ m', s' !! i = Some m'
          ∧ (m' = m
             ∨ (STATUS m = STATUS_PENDING_SPLITWISE_SETTLEMENT
                ∧ uploaded m m'))) as (sent & s' & Hrun & Hid & Hrows).
  { assert (∃ sent s',
      Return (A:=list expenseData) [] s = Return sent s'
      ∧ ID <$> s' = ID <$> s
      ∧ ∀ i m, s !! i = Some m →
          ∃ m', s' !! i = Some m'
            ∧ (m' = m
               ∨ (STATUS m = STATUS_PENDING_SPLITWISE_SETTLEMENT
                  ∧ uploaded m m'))) as Hsame.
    { exists [], s. split_and!; [done | done |].
      intros i m Hi. exists m. split; [done | by left]. }
    unfold pushToSplitwise. run. destruct connectionTest; cbn [negb];
      [| exact Hsame].
    set (pending := getMovementsPendingSplitwiseSettlement s).
    destruct (length pending =? 0)%nat; [exact Hsame |].
    destruct (pushEach_frame pending [] s)
      as (sent & s' & -> & Hid & Hrows & _).
    exists sent, s'. split_and!; [done | done |].
    intros i m Hi. destruct (Hrows i m Hi) as (m' & Hi' & Hm').
    exists m'. split; [done |].
    destruct Hm' as [-> | [Hin Hup]]; [by left |]. right. split; [| done].
    apply list_elem_of_fmap in Hin as (p & Hp & Hpin).
    apply list_elem_of_filter in Hpin as [Hst%String.eqb_eq Hpin].
    assert (m = p) as ->; [| done].
    apply (unique_ids_eq s); [done | | done | done].
    by eapply list_elem_of_lookup_2. }
  exists sent, s'. split_and!; try done.
  all: apply column_rows; [done |]; intros i m Hi;
    destruct (Hrows i m Hi) as (m' & Hi' & [-> | [_ Hup]]);
    [by exists m | exists m'; split; [done |]];
    by destruct (uploaded_fields _ _ Hup) as (? & ? & ? & ? & _).
Qed.

(** X13.  On a sheet with unique ids, when every movement awaiting
    upload has a date and Splitwise answers every request with an id
    that is not empty, an upload run asks for one expense for each such
    movement and marks each of them as in Splitwise.  No movement then
    awaits upload, and a second run asks for nothing and leaves the
    sheet as the first left it. *)
Theorem pushToSplitwise_drains (s : store) :
  unique_ids s →
  (∀ n expenseData, ∃ splitwiseId,
     createExpense n expenseData = Some splitwiseId
     ∧ truthy splitwiseId = true) →
  Forall (λ movement, is_Some (TIMESTAMP movement))
    (getMovementsPendingSplitwiseSettlement s) →
  ∃ sent s',
    pushToSplitwise toISOString createExpense true s = Return sent s'
    ∧ length sent = length (getMovementsPendingSplitwiseSettlement s)
    ∧ (∀ i m, s !! i = Some m →
         STATUS m = STATUS_PENDING_SPLITWISE_SETTLEMENT →
         ∃ m', s' !! i = Some m' ∧ uploaded m m')
    ∧ getMovementsPendingSplitwiseSettlement s' = []
    ∧ pushToSplitwise toISOString createExpense true s' = Return [] s'.
Proof.
  intros Hu Hok Hdates.
  set (pending := getMovementsPendingSplitwiseSettlement s) in *.
  assert (∃ sent s',
    pushToSplitwise toISOString createExpense true s = Return sent s'
    ∧ length sent = length pending
    ∧ ID <$> s' = ID <$> s
    ∧ (∀ i m, s !! i = Some m →
         ∃ m', s' !! i = Some m' ∧ (m' = m ∨ uploaded m m'))
    ∧ (∀ i m, s !! i = Some m →
         STATUS m = STATUS_PENDING_SPLITWISE_SETTLEMENT →
         ∃ m', s' !! i = Some m' ∧ uploaded m m'))
    as (sent & s' & Hrun & Hlen & Hid & Hrows & Hup).
  { unfold pushToSplitwise. run. fold pending.
    destruct (length pending =? 0)%nat eqn:Hzero.
    - apply Nat.eqb_eq in Hzero. exists [], s.
      split_and!; [done | by rewrite Hzero | done | |].
      + intros i m Hi. exists m. split; [done | by left].
      + intros i m Hi Hst. exfalso.
        assert (m ∈ pending) as Hin.
        { apply list_elem_of_filter. split; [by apply String.eqb_eq |].
          by eapply list_elem_of_lookup_2. }
        apply length_zero_iff_nil in Hzero. rewrite Hzero in Hin.
        by apply elem_of_nil in Hin.
    - destruct (pushEach_sent pending [] s) as (s0 & Hsent).
      destruct (pushEach_frame pending [] s)
        as (sent & s' & Hrun & Hid & Hrows & Hall).
      rewrite Hrun in Hsent. injection Hsent as -> ->.
      rewrite Hrun. eexists _, _. split; [reflexivity |]. split_and!.
      + cbn [app]. clear -Hdates. induction Hdates as [|m l [t Ht] _ IH];
          [done |].
        csimpl. unfold expenseFor at 1. rewrite Ht. csimpl. by rewrite IH.
      + done.
      + intros i m Hi. destruct (Hrows i m Hi) as (m' & Hi' & Hm').
        exists m'. split; [done |]. destruct Hm' as [? | [_ ?]]; tauto.
      + intros i m Hi Hst. apply (Hall Hok Hdates Hu i m Hi).
        apply list_elem_of_fmap_2, list_elem_of_filter.
        split; [by apply String.eqb_eq |]. by eapply list_elem_of_lookup_2. }
  assert (getMovementsPendingSplitwiseSettlement s' = []) as Hnone.
  { unfold getMovementsPendingSplitwiseSettlement, getAllMovements.
    apply filter_none. intros x Hx Hst. apply String.eqb_eq in Hst.
    apply list_elem_of_lookup_1 in Hx as [i Hi'].
    assert (is_Some (s !! i)) as [m Hi].
    { apply lookup_lt_is_Some. apply lookup_lt_Some in Hi'.
      by rewrite <- (length_fmap ID s), <- Hid, length_fmap. }
    destruct (decide (STATUS m = STATUS_PENDING_SPLITWISE_SETTLEMENT))
      as [Hm | Hm].
    - destruct (Hup i m Hi Hm) as (m' & Hm' & Hupm).
      assert (x = m') as -> by congruence.
      destruct (uploaded_fields _ _ Hupm) as (_ & _ & _ & _ & Hin & _).
      by rewrite Hin in Hst.
    - destruct (Hrows i m Hi) as (m' & Hm' & [-> | Hupm]).
      + assert (x = m) as -> by congruence. done.
      + assert (x = m') as -> by congruence.
        destruct (uploaded_fields _ _ Hupm) as (_ & _ & _ & _ & Hin & _).
        by rewrite Hin in Hst. }
  exists sent, s'. split_and!; try done.
  unfold pushToSplitwise. run. by rewrite Hnone.
Qed.
End Uploads.

Lemma pushToSplitwise_frame_witness :
  ∃ sent s',
    pushToSplitwise sampleToISOString sampleCreateExpense true
      [sampleMovement 1 50; sampleAwaiting 2] = Return sent s'
    ∧ ID <$> s' = [1%Z; 2%Z].
Proof.
  destruct (pushToSplitwise_frame sampleToISOString sampleCreateExpense true
              [sampleMovement 1 50; sampleAwaiting 2])
    as (sent & s' & Hrun & Hid & _).
  - unfold unique_ids. simpl. apply NoDup_cons. split.
    + intros [=]%list_elem_of_singleton.
    + apply NoDup_singleton.
  - exists sent, s'. split; [exact Hrun | exact Hid].
Defined.

Lemma pushToSplitwise_drains_witness :
  ∃ sent s',
    pushToSplitwise sampleToISOString sampleCreateExpense true
      [sampleMovement 1 50; sampleAwaiting 2] = Return sent s'
    ∧ length sent = 1%nat
    ∧ getMovementsPendingSplitwiseSettlement s' = [].
Proof.
  destruct (pushToSplitwise_drains sampleToISOString sampleCreateExpense
              [sampleMovement 1 50; sampleAwaiting 2])
    as (sent & s' & Hrun & Hlen & _ & Hnone & _).
  - unfold unique_ids. simpl. apply NoDup_cons. split.
    + intros [=]%list_elem_of_singleton.
    + apply NoDup_singleton.
  - intros n e. exists "9001". by split.
  - vm_compute. constructor; [by eexists | constructor].
  - exists sent, s'. split; [exact Hrun |]. split; [exact Hlen | exact Hnone].
Defined.

(** ** Texts and the numbers in them *)

Lemma string_app_cons (x : ascii) (a b : string) :
  String x a +:+ b = String x (a +:+ b).
Proof. done. Qed.

Lemma string_app_nil_l (a : string) : "" +:+ a = a.
Proof. done. Qed.

Lemma string_app_assoc (a b c : string) : (a +:+ b) +:+ c = a +:+ (b +:+ c).
Proof.
  induction a as [|x a IH]; [done |]. by rewrite !string_app_cons, IH.
Qed.

Lemma string_app_nil_r (a : string) : a +:+ "" = a.
Proof.
  induction a as [|x a IH]; [done |]. by rewrite string_app_cons, IH.
Qed.

Lemma rev_app_spec (s1 s2 : string) :
  String.rev_app s1 s2 = String.rev s1 +:+ s2.
Proof.
  unfold String.rev. revert s2. induction s1 as [|a s1 IH]; intros s2.
  - done.
  - cbn [String.rev_app]. rewrite IH, (IH (String a "")).
    by rewrite string_app_assoc.
Qed.

Lemma rev_cons (a : ascii) (s : string) :
  String.rev (String a s) = String.rev s +:+ String a "".
Proof. unfold String.rev at 1. cbn [String.rev_app]. apply rev_app_spec. Qed.

Lemma rev_app (s1 s2 : string) :
  String.rev (s1 +:+ s2) = String.rev s2 +:+ String.rev s1.
Proof.
  induction s1 as [|a s1 IH].
  - by rewrite string_app_nil_r.
  - rewrite string_app_cons, !rev_cons, IH. by rewrite string_app_assoc.
Qed.

Lemma rev_involutive (s : string) : String.rev (String.rev s) = s.
Proof.
  induction s as [|a s IH]; [done |].
  rewrite rev_cons, rev_app, IH. done.
Qed.

Lemma all_space_app (a b : string) :
  all_space a → all_space b → all_space (a +:+ b).
Proof.
  induction a as [|x a IH]; [done |]. intros [? ?] ?.
  rewrite string_app_cons. split; auto.
Qed.

Lemma all_space_rev (a : string) : all_space a → all_space (String.rev a).
Proof.
  induction a as [|x a IH]; [done |]. intros [? ?]. rewrite rev_cons.
  apply all_space_app; [auto | done].
Qed.

Lemma trimStart_spaces (s : string) :
  ∃ l, all_space l ∧ s = l +:+ trimStart s.
Proof.
  induction s as [|a s (l & Hl & IH)]; [by exists "" |].
  cbn [trimStart]. destruct (is_space a) eqn:Ha.
  - exists (String a l). split; [done |]. by rewrite string_app_cons, <- IH.
  - by exists "".
Qed.

(** Trimming takes white space off both ends, and nothing else. *)
Lemma trim_spaces (s : string) :
  ∃ l r, all_space l ∧ all_space r ∧ s = l +:+ trim s +:+ r.
Proof.
  destruct (trimStart_spaces s) as (l & Hl & Hs).
  destruct (trimStart_spaces (String.rev (trimStart s))) as (r & Hr & Ht).
  exists l, (String.rev r). split_and!; [done | by apply all_space_rev |].
  unfold trim. rewrite <- rev_app, <- Ht, rev_involutive. done.
Qed.

Lemma is_space_digitValue (a : ascii) :
  is_space a = true → digitValue a = None.
Proof.
  destruct a as [[] [] [] [] [] [] [] []]; cbn; try done.
Qed.

Lemma parseIntFrom_digitRun (n : Z) (text : string) :
  parseIntFrom n (digitRun text) = parseIntFrom n text.
Proof.
  revert n. induction text as [|a text IH]; intros n; [done |].
  cbn [digitRun parseIntFrom]. destruct (digitValue a) eqn:Ha; [| done].
  cbn [parseIntFrom]. by rewrite Ha.
Qed.

Lemma firstNumber_cons (a : ascii) (text : string) :
  firstNumber (String a text)
  = match digitValue a with
    | Some _ => Some (parseIntFrom 0 (String a text))
    | None => firstNumber text
    end.
Proof.
  unfold firstNumber. cbn [matchDigits]. destruct (digitValue a) eqn:Ha;
    [| done].
  cbn [fmap option_fmap option_map]. unfold parseInt.
  f_equal. apply parseIntFrom_digitRun.
Qed.

Lemma firstNumber_no_digit (pre text : string) :
  no_digit pre → firstNumber (pre +:+ text) = firstNumber text.
Proof.
  unfold no_digit. induction pre as [|a pre IH]; [done |].
  cbn [matchDigits]. rewrite string_app_cons, firstNumber_cons.
  destruct (digitValue a); [done | auto].
Qed.

Lemma all_space_no_digit (l : string) : all_space l → no_digit l.
Proof.
  unfold no_digit. induction l as [|a l IH]; [done |]. intros [Ha Hl].
  cbn [matchDigits]. rewrite (is_space_digitValue a Ha). auto.
Qed.

Lemma all_space_no_leading_digit (l : string) :
  all_space l → no_leading_digit l.
Proof.
  destruct l as [|a l]; [done |]. intros [Ha _].
  by apply is_space_digitValue.
Qed.

Lemma parseIntFrom_app (n : Z) (text post : string) :
  no_leading_digit post →
  parseIntFrom n (text +:+ post) = parseIntFrom n text.
Proof.
  intros Hpost. revert n. induction text as [|a text IH]; intros n.
  - rewrite string_app_nil_l. destruct post as [|b post]; [done |].
    cbn in *. by rewrite Hpost.
  - rewrite string_app_cons. cbn [parseIntFrom].
    destruct (digitValue a); [apply IH | done].
Qed.

Lemma firstNumber_app (text post : string) :
  no_leading_digit post →
  firstNumber (text +:+ post)
  = match firstNumber text with
    | Some n => Some n
    | None => firstNumber post
    end.
Proof.
  intros Hpost. induction text as [|a text IH]; [done |].
  rewrite string_app_cons, !firstNumber_cons.
  destruct (digitValue a) eqn:Ha; [| done].
  f_equal. rewrite <- string_app_cons. by apply parseIntFrom_app.
Qed.

Lemma firstNumber_trim (text : string) :
  firstNumber (trim text) = firstNumber text.
Proof.
  destruct (trim_spaces text) as (l & r & Hl & Hr & Htext).
  rewrite Htext at 2.
  rewrite (firstNumber_no_digit l) by (by apply all_space_no_digit).
  rewrite firstNumber_app by (by apply all_space_no_leading_digit).
  destruct (firstNumber (trim text)); [done |].
  pose proof (all_space_no_digit r Hr) as Hnone. unfold no_digit in Hnone.
  unfold firstNumber. by rewrite Hnone.
Qed.

Lemma digitValue_pretty_N_char (d : N) :
  (d < 10)%N → digitValue (pretty_N_char d) = Some (Z.of_N d).
Proof.
  intros Hd.
  assert (d = 0 ∨ d = 1 ∨ d = 2 ∨ d = 3 ∨ d = 4 ∨ d = 5 ∨ d = 6 ∨ d = 7
          ∨ d = 8 ∨ d = 9)%N as Hcases by lia.
  by destruct Hcases as [-> | [-> | [-> | [-> | [-> | [-> | [-> | [-> |
    [-> | ->]]]]]]]]].
Qed.

(** Reading the digits of a number gives the number back. *)
Lemma parseIntFrom_pretty_N_go (x : N) (s : string) :
  ∃ k : nat, ∀ acc,
    parseIntFrom acc (pretty_N_go x s)
    = parseIntFrom (acc * 10 ^ Z.of_nat k + Z.of_N x)%Z s.
Proof.
  revert s. induction (N.lt_wf_0 x) as [x _ IH]; intros s.
  destruct (decide (x = 0)%N) as [-> | Hx].
  - exists 0%nat. intros acc. rewrite pretty_N_go_0. f_equal. lia.
  - rewrite pretty_N_go_step by lia.
    destruct (IH (x `div` 10)%N ltac:(apply N.div_lt; lia)
                (String (pretty_N_char (x `mod` 10)) s)) as (k & Hk).
    exists (S k). intros acc. rewrite Hk. cbn [parseIntFrom].
    rewrite digitValue_pretty_N_char by (apply N.mod_lt; lia).
    f_equal. rewrite Nat2Z.inj_succ, Z.pow_succ_r by lia.
    pose proof (N.div_mod x 10 ltac:(lia)) as Hdm.
    apply (f_equal Z.of_N) in Hdm. rewrite N2Z.inj_add, N2Z.inj_mul in Hdm.
    change (Z.of_N 10) with 10%Z in Hdm. lia.
Qed.

Lemma pretty_N_go_first_digit (x : N) (s : string) :
  (0 < x)%N →
  ∃ a rest, pretty_N_go x s = String a rest ∧ is_Some (digitValue a).
Proof.
  revert s. induction (N.lt_wf_0 x) as [x _ IH]; intros s Hx.
  rewrite pretty_N_go_step by done.
  destruct (decide (x `div` 10 = 0)%N) as [-> | Hdiv].
  - rewrite pretty_N_go_0. eexists _, _. split; [done |].
    rewrite digitValue_pretty_N_char by (apply N.mod_lt; lia). by eexists.
  - apply IH; [apply N.div_lt; lia | by apply N.neq_0_lt_0].
Qed.

Lemma firstNumber_pretty (n : Z) (post : string) :
  (0 ≤ n)%Z → no_leading_digit post →
  firstNumber (pretty n +:+ post) = Some n.
Proof.
  intros Hn Hpost.
  destruct n as [|p|p]; [| | lia].
  - change (pretty 0%Z) with "0".
    rewrite string_app_cons, string_app_nil_l, firstNumber_cons.
    change (digitValue "0") with (Some 0%Z). cbv iota. f_equal.
    cbn [parseIntFrom]. change (digitValue "0") with (Some 0%Z). cbv iota.
    destruct post as [|b post]; [done |]. cbn in *. by rewrite Hpost.
  - change (pretty (Z.pos p)) with (pretty_N_go (N.pos p) "").
    destruct (pretty_N_go_first_digit (N.pos p) "" ltac:(lia))
      as (a & rest & Hp & [d Hd]).
    destruct (parseIntFrom_pretty_N_go (N.pos p) "") as (k & Hk).
    specialize (Hk 0%Z). rewrite Hp in *.
    rewrite string_app_cons, firstNumber_cons, Hd. f_equal.
    rewrite <- string_app_cons.
    rewrite parseIntFrom_app by done. rewrite Hk. cbn [parseIntFrom]. lia.
Qed.



Section Answers.
Variable JSON_parse : string → option ParsedData.t.
Variable validCategories : list string.
Variable createCategoryAnalysisPrompt : string → movementData → string.
Variable createDebitMatchingPrompt : repaymentData → list movement → string.
Variable callGoogleAIStudioAPI : string → option apiResponse.

Lemma parseDebitMatchingResponse_eq (response : apiResponse) :
  GoogleAIStudioService.parseDebitMatchingResponse response
  = match textContentOf response with
    | Some textContent => firstNumber textContent
    | None => None
    end.
Proof.
  unfold GoogleAIStudioService.parseDebitMatchingResponse, firstNumber.
  destruct response as [|candidate candidates]; [done |].
  cbn [length Nat.eqb].
  destruct (textContentOf _) as [text|]; [| done].
  by destruct (matchDigits text).
Qed.

End Answers.

(** ** Settlement by the answer of the API *)

Section AnsweredSettlement.
Context {currencyConversionService : CurrencyConversionService}.
Variable createDebitMatchingPrompt : repaymentData → list movement → string.
Variable callGoogleAIStudioAPI : string → option apiResponse.

Lemma settlement_references_debit
    (matchDebitRepayment : repaymentData → list movement → option Z)
    (s : store) (k j : nat)
    (repaymentMovement repaymentRow debit : movement) :
  unique_ids s → s !! k = Some repaymentRow → s !! j = Some debit →
  pending_debit debit → ID debit ≠ 0%Z →
  matchDebitRepayment (repaymentDataOf repaymentMovement)
    (getMovementsPendingDirectSettlement s) = Some (ID debit) →
  ∃ s',
    processDebitRepaymentSettlement matchDebitRepayment (ID repaymentRow)
      repaymentMovement s
    = Return [mkMatcherCall (ID repaymentRow) repaymentMovement
                (getMovementsPendingDirectSettlement s)] s'
    ∧ (SETTLED_MOVEMENT_ID <$> s' !! k) = Some (Some (ID debit)).
Proof.
  intros Hu Hk Hj Hpending Hne Hmatch.
  set (pendingDebits := getMovementsPendingDirectSettlement s) in *.
  assert (debit ∈ pendingDebits) as Hin.
  { apply pending_debit_filter. split; [done |].
    by eapply list_elem_of_lookup_2. }
  assert (List.find (λ d, (ID d =? ID debit)%Z) pendingDebits = Some debit)
    as Hfind.
  { destruct (List.find _ pendingDebits) as [d|] eqn:E.
    - apply find_some in E as [Hd%list_elem_of_In Hid%Z.eqb_eq].
      f_equal. apply (unique_ids_eq s); try done.
      + by apply pending_debit_filter in Hd as [_ ?].
      + by eapply list_elem_of_lookup_2.
    - apply list_elem_of_In in Hin.
      pose proof (find_none _ _ E debit Hin) as Hf. simpl in Hf.
      by rewrite Z.eqb_refl in Hf. }
  unfold processDebitRepaymentSettlement. run.
  fold pendingDebits. fold (repaymentDataOf repaymentMovement).
  destruct pendingDebits as [|d0 ds] eqn:Hpd; [by inversion Hin |].
  cbn [length Nat.eqb]. rewrite <- Hpd in *. rewrite Hmatch.
  destruct (Z.eqb_spec (ID debit) 0) as [? | _]; [done |].
  rewrite Hfind, (updateMovementSettledId_found s k repaymentRow) by done.
  set (referenced := alter (set_SETTLED_MOVEMENT_ID (Some (ID debit))) k s).
  assert (SETTLED_MOVEMENT_ID <$> referenced !! k = Some (Some (ID debit)))
    as Hk'.
  { unfold referenced. by rewrite list_lookup_alter_eq, Hk. }
  destruct (js_ge _ 95).
  - destruct (updateMovementStatus_cases (ID debit) STATUS_SETTLED referenced)
      as (s2 & -> & [-> | (i & r & Hi & _ & ->)]).
    + by eexists.
    + eexists. split; [reflexivity |].
      destruct (decide (i = k)) as [-> | Hik].
      * rewrite list_lookup_insert_eq by (by eapply lookup_lt_Some).
        rewrite Hi in Hk'. exact Hk'.
      * by rewrite list_lookup_insert_ne.
  - exists referenced. split; [by destruct (js_ge _ 50) | done].
Qed.

Lemma settlement_no_answer
    (matchDebitRepayment : repaymentData → list movement → option Z)
    (repaymentMovementId : Z) (repaymentMovement : movement) (s : store) :
  getMovementsPendingDirectSettlement s ≠ [] →
  matchDebitRepayment (repaymentDataOf repaymentMovement)
    (getMovementsPendingDirectSettlement s) = None →
  processDebitRepaymentSettlement matchDebitRepayment repaymentMovementId
    repaymentMovement s
  = Return [mkMatcherCall repaymentMovementId repaymentMovement
              (getMovementsPendingDirectSettlement s)] s.
Proof.
  intros Hne Hnone. unfold processDebitRepaymentSettlement. run.
  fold (repaymentDataOf repaymentMovement). rewrite Hnone.
  by destruct (getMovementsPendingDirectSettlement s).
Qed.

(** X15.  A settlement run with the matcher of the service.  When the
    API fails, or its answer has no text or no digit, the sheet stays as
    it was.  When the text of the answer prints the id of a debit
    awaiting direct settlement, not zero or negative, with no digit
    before it and none directly after it, on a sheet with unique ids,
    the matcher answers that id and the run records it in the settled
    movement id of the row of the repayment. *)
Theorem matchDebitRepayment_settles (s : store) (k j : nat)
    (repaymentMovement repaymentRow debit : movement)
    (text pre post : string) (parts : list (option string))
    (candidates : apiResponse) :
  let pendingDebits := getMovementsPendingDirectSettlement s in
  let matcher :=
    GoogleAIStudioService.matchDebitRepayment createDebitMatchingPrompt
      callGoogleAIStudioAPI in
  let answer :=
    callGoogleAIStudioAPI
      (createDebitMatchingPrompt (repaymentDataOf repaymentMovement)
         pendingDebits) in
  unique_ids s → s !! k = Some repaymentRow → s !! j = Some debit →
  pending_debit debit → (0 < ID debit)%Z →
  (answer = None
   ∨ (∃ response, answer = Some response
        ∧ ∀ text',
            textContentOf response = Some text' → no_digit text') →
   processDebitRepaymentSettlement matcher (ID repaymentRow)
     repaymentMovement s
   = Return [mkMatcherCall (ID repaymentRow) repaymentMovement pendingDebits]
       s)
  ∧ (answer = Some ((Some text :: parts) :: candidates) →
     text = pre +:+ pretty (ID debit) +:+ post →
     no_digit pre → no_leading_digit post →
     matcher (repaymentDataOf repaymentMovement) pendingDebits
       = Some (ID debit)
     ∧ ∃ s',
         processDebitRepaymentSettlement matcher (ID repaymentRow)
           repaymentMovement s
         = Return [mkMatcherCall (ID repaymentRow) repaymentMovement
                     pendingDebits] s'
         ∧ (SETTLED_MOVEMENT_ID <$> s' !! k) = Some (Some (ID debit))).
Proof.
  intros pendingDebits matcher answer Hu Hk Hj Hpending Hpos.
  assert (debit ∈ pendingDebits) as Hin.
  { apply pending_debit_filter. split; [done |].
    by eapply list_elem_of_lookup_2. }
  assert (matcher (repaymentDataOf repaymentMovement) pendingDebits
          = match answer with
            | Some response =>
                match textContentOf response with
                | Some textContent => firstNumber textContent
                | None => None
                end
            | None => None
            end) as Hmatcher.
  { subst matcher answer.
    unfold GoogleAIStudioService.matchDebitRepayment.
    destruct pendingDebits as [|d0 ds] eqn:Hpd; [by inversion Hin |].
    cbn [length Nat.eqb]. rewrite <- Hpd.
    destruct (callGoogleAIStudioAPI _) as [response|]; [| done].
    rewrite parseDebitMatchingResponse_eq.
    by destruct response. }
  split.
  - intros Hnone.
    assert (matcher (repaymentDataOf repaymentMovement) pendingDebits = None)
      as Hanswer.
    { rewrite Hmatcher.
      destruct Hnone as [-> | (response & -> & Htext)]; [done |].
      destruct (textContentOf response) as [text'|]; [| done].
      specialize (Htext text' eq_refl). unfold no_digit in Htext.
      unfold firstNumber. by rewrite Htext. }
    apply settlement_no_answer; [| done].
    fold pendingDebits. intros Hnil. rewrite Hnil in Hin.
    by apply elem_of_nil in Hin.
  - intros Hanswer -> Hpre Hpost.
    assert (matcher (repaymentDataOf repaymentMovement) pendingDebits
            = Some (ID debit)) as Hid.
    { rewrite Hmatcher, Hanswer. cbn [textContentOf].
      rewrite firstNumber_trim, firstNumber_no_digit by done.
      apply firstNumber_pretty; [lia | done]. }
    split; [done |].
    apply (settlement_references_debit matcher s k j); try done. lia.
Qed.
End AnsweredSettlement.

Lemma matchDebitRepayment_settles_witness :
  ∃ s',
    processDebitRepaymentSettlement
      (GoogleAIStudioService.matchDebitRepayment samplePrompt sampleAPI)
      2 (sampleRepayment 2 100) [sampleDebit 1; sampleRepayment 2 100]
    = Return [mkMatcherCall 2 (sampleRepayment 2 100) [sampleDebit 1]] s'
    ∧ (SETTLED_MOVEMENT_ID <$> s' !! 1%nat) = Some (Some 1%Z).
Proof.
  destruct (matchDebitRepayment_settles samplePrompt sampleAPI
              [sampleDebit 1; sampleRepayment 2 100] 1 0
              (sampleRepayment 2 100) (sampleRepayment 2 100) (sampleDebit 1)
              "The best match is ID 1." "The best match is ID " "." [] [])
    as [_ Hsettles].
  - unfold unique_ids. simpl. apply NoDup_cons. split.
    + intros [=]%list_elem_of_singleton.
    + apply NoDup_singleton.
  - reflexivity.
  - reflexivity.
  - by split.
  - reflexivity.
  - destruct Hsettles as [_ Hrun];
      [reflexivity | reflexivity | reflexivity | reflexivity |].
    exact Hrun.
Defined.

(** ** The answer of the classifier *)

Lemma includes_elem_of (names : list string) (v : jsvalue) :
  includes names v = true → ∃ name, v = JString name ∧ name ∈ names.
Proof.
  destruct v; try done. cbn. intros H%bool_decide_eq_true. eauto.
Qed.

Lemma is_text_eq (v : jsvalue) (text : string) :
  is_text v text = true → v = JString text.
Proof. destruct v; try done. cbn. by intros ->%String.eqb_eq. Qed.

Lemma js_or_null (v : jsvalue) :
  js_or v JNull = (if js_truthy v then v else JNull).
Proof. done. Qed.

Section Classifier.
Variable JSON_parse : string → option ParsedData.t.
Variable validCategories : list string.
Variable createCategoryAnalysisPrompt : string → movementData → string.
Variable callGoogleAIStudioAPI : string → option apiResponse.

Lemma parseCategoryAnalysisResponse_validated (response : apiResponse)
    (result : Analysis.t) :
  GoogleAIStudioService.parseCategoryAnalysisResponse JSON_parse
    validCategories response = Some result →
  validated validCategories result.
Proof.
  unfold GoogleAIStudioService.parseCategoryAnalysisResponse.
  destruct (length response =? 0)%nat; [done |].
  destruct (textContentOf response) as [textContent|]; [| done].
  destruct (matchJson textContent) as [jsonMatch|]; [| done].
  destruct (JSON_parse jsonMatch) as [[c ns st sa sd sc cd]|]; [| done].
  cbn [ParsedData.category ParsedData.needs_split ParsedData.split_type
       ParsedData.split_amount ParsedData.split_description
       ParsedData.split_category ParsedData.clean_description].
  destruct (negb (js_truthy ns && is_text st "EXPENSE")
            && negb (js_truthy c)) eqn:H1; [done |].
  destruct (js_truthy c && negb (includes validCategories c)) eqn:H2;
    [done |].
  set (needsSplit := match ns with JBool true => true | _ => false end).
  set (isNumber := match sa with JNumber _ => true | _ => false end).
  destruct (needsSplit && (negb isNumber || negb (js_truthy st))) eqn:H3;
    [done |].
  destruct (needsSplit && is_text st "DEBIT"
            && (negb (js_truthy sc) || negb (includes validCategories sc)))
    eqn:H4; [done |].
  intros [= <-]. unfold validated.
  cbn [Analysis.category Analysis.needs_split Analysis.split_type
       Analysis.split_amount Analysis.split_category].
  rewrite !js_or_null. split.
  - destruct (js_truthy c) eqn:Hc.
    + right. cbn [andb] in H2. apply negb_false_iff in H2.
      destruct (includes_elem_of _ _ H2) as (name & -> & Hin).
      exists name. split_and!; [done | done |].
      intros ->. by cbn in Hc.
    + left. split; [done |]. rewrite andb_true_r in H1.
      apply negb_false_iff, andb_true_iff in H1 as [Hns Hst].
      rewrite (is_text_eq _ _ Hst). done.
  - intros Hsplit. rewrite Hsplit in H3, H4. cbn [andb] in H3, H4.
    apply orb_false_iff in H3 as [Hnum%negb_false_iff Hst%negb_false_iff].
    rewrite Hst. split_and!; [| done |].
    + subst isNumber. destruct sa as [| | |q| |]; try done.
      cbn [js_truthy]. destruct (Qeq_bool q 0) eqn:Hq; cbn [negb];
        [by left | right].
      exists q. split; [done |]. intros Hzero.
      apply Qeq_bool_iff in Hzero. congruence.
    + intros ->. cbn in H4.
      apply orb_false_iff in H4 as [Hsc%negb_false_iff Hin%negb_false_iff].
      rewrite Hsc. by apply includes_elem_of.
Qed.

(** X16.  A result that [parseCategoryAnalysisResponse] or
    [analyzeCategory] returns has passed the validation: its category is
    a name of the vocabulary, or it is [null] and the split type is
    [EXPENSE]; and when the result asks for a split, its split amount is
    a number that is not zero, or [null], its split type is set, and a
    split of type [DEBIT] has a category of the vocabulary.  A response
    without a text, or whose text has no pair of braces, gives
    [null]. *)
Theorem analyzeCategory_validated (userDescription : string)
    (movementData : movementData) (result : Analysis.t) :
  GoogleAIStudioService.analyzeCategory JSON_parse validCategories
    createCategoryAnalysisPrompt callGoogleAIStudioAPI userDescription
    movementData = Some result →
  validated validCategories result
  ∧ ∃ response text,
      callGoogleAIStudioAPI
        (createCategoryAnalysisPrompt userDescription movementData)
      = Some response
      ∧ GoogleAIStudioService.parseCategoryAnalysisResponse JSON_parse
          validCategories response = Some result
      ∧ textContentOf response = Some text
      ∧ is_Some (matchJson text).
Proof.
  unfold GoogleAIStudioService.analyzeCategory.
  destruct (callGoogleAIStudioAPI _) as [response|]; [| done].
  destruct (0 <? length response)%nat; [| done].
  intros Hparse. split.
  - by eapply parseCategoryAnalysisResponse_validated.
  - exists response.
    unfold GoogleAIStudioService.parseCategoryAnalysisResponse in Hparse |- *.
    destruct (length response =? 0)%nat; [done |].
    destruct (textContentOf response) as [text|]; [| done].
    exists text. split_and!; try done.
    by destruct (matchJson text).
Qed.
End Classifier.

Lemma analyzeCategory_validated_witness :
  ∃ result,
    GoogleAIStudioService.analyzeCategory sampleJSON_parse ["restaurants"]
      (λ _ _, "") (λ _, Some [[Some "{ }"]]) "Dinner"
      (movementDataOf (sampleMovement 1 50)) = Some result
    ∧ validated ["restaurants"] result.
Proof.
  eexists. split; [reflexivity |].
  eapply (analyzeCategory_validated sampleJSON_parse ["restaurants"]
            (λ _ _, "") (λ _, Some [[Some "{ }"]]) "Dinner"
            (movementDataOf (sampleMovement 1 50))).
  reflexivity.
Defined.

(** ** Upload and ingestion together *)

(** X17.  Once a movement of the sheet is marked as uploaded under a
    Splitwise id that is not empty, that id is among the accounting
    system ids of the sheet, and a run over the Splitwise feed appends
    no row under it: the movement does not come back as a second
    row. *)
Theorem uploaded_expense_not_read_back `{CurrencyConversionService}
    (movementId : Z) (key : string) (s s1 : store)
    (creditMovements debitMovements : list splitwiseMovement) :
  idExists movementId s = true →
  truthy key = true →
  let s' := final_store (updateMovementWithSplitwiseInfo movementId key s) in
  processSplitwiseMovements true creditMovements debitMovements s'
    = Return tt s1 →
  key ∈ getExistingAccountingSystemIds s'
  ∧ movementsWithAccountingSystemId key s1
    = movementsWithAccountingSystemId key s'.
Proof.
  intros Hexists Hkey s' Hrun.
  assert (key ∈ getExistingAccountingSystemIds s') as Hin.
  { subst s'. rewrite updateMovementWithSplitwiseInfo_cases.
    cbn [final_store].
    apply idExists_elem_of, list_elem_of_fmap in Hexists
      as (m & Hid & Hm).
    destruct (findIndex movementId s) as [[k r]|] eqn:Hfind.
    - destruct (findIndex_Some _ _ _ _ Hfind) as (Hk & _ & _).
      apply getExistingAccountingSystemIds_elem. split; [done |].
      exists (set_STATUS STATUS_IN_SPLITWISE
                (set_ACCOUNTING_SYSTEM_ID key r)).
      split; [| reflexivity].
      apply list_elem_of_lookup. exists k.
      apply list_lookup_insert_eq. by eapply lookup_lt_Some.
    - apply list_find_None in Hfind.
      eapply Forall_forall in Hfind; [| exact Hm]. by destruct Hfind. }
  split; [done |].
  apply processSplitwiseMovements_returns in Hrun
    as (batch & -> & Hkeys).
  unfold movementsWithAccountingSystemId.
  rewrite filter_app, (filter_none _ (row <$> batch)), app_nil_r; [done |].
  intros r (item & -> & Hitem)%list_elem_of_fmap Hr.
  assert (key ∈ (λ item, ACCOUNTING_SYSTEM_ID (row item)) <$> batch) as Hk.
  { rewrite <- Hr.
    by apply (list_elem_of_fmap_2 (λ item, ACCOUNTING_SYSTEM_ID (row item))). }
  rewrite Hkeys in Hk.
  apply list_elem_of_fmap in Hk as (movement & -> & Hnew).
  by apply list_elem_of_filter in Hnew as [Hnew _].
Qed.

Lemma uploaded_expense_not_read_back_witness :
  let s' := final_store
              (updateMovementWithSplitwiseInfo 2 "9001" [sampleAwaiting 2]) in
  "9001" ∈ getExistingAccountingSystemIds s'
  ∧ movementsWithAccountingSystemId "9001"
      (final_store
         (processSplitwiseMovements (currencyConversionService := sampleService)
            true [sampleSplitwiseMovement "9001"] [] s'))
    = movementsWithAccountingSystemId "9001" s'.
Proof.
  apply (@uploaded_expense_not_read_back sampleService 2 "9001"
           [sampleAwaiting 2] _ [sampleSplitwiseMovement "9001"] []);
    [reflexivity | reflexivity |].
  by vm_compute.
Defined.

(** ** Keys of the sheet *)

(** X18.  The source ids read for a source are the source ids, not
    empty, of the rows of that source; read without a source, or for the
    empty source, they are the source ids, not empty, of all rows, and
    contain those of every source.  The Gmail ids are those read for the
    source [gmail]. *)
Theorem getExistingSourceIds_keys (s : store) (key : string) :
  (∀ source, truthy source = true →
     key ∈ getExistingSourceIds (Some source) s
     ↔ truthy key = true
       ∧ ∃ m, m ∈ s ∧ SOURCE m = source ∧ SOURCE_ID m = key)
  ∧ (key ∈ getExistingSourceIds None s
     ↔ truthy key = true ∧ ∃ m, m ∈ s ∧ SOURCE_ID m = key)
  ∧ getExistingSourceIds (Some "") s = getExistingSourceIds None s
  ∧ (∀ source,
       getExistingSourceIds source s ⊆ getExistingSourceIds None s)
  ∧ (key ∈ getExistingGmailIds s
     ↔ truthy key = true
       ∧ ∃ m, m ∈ s ∧ SOURCE m = SOURCES_GMAIL ∧ SOURCE_ID m = key).
Proof.
  assert (∀ k, k ∈ getExistingSourceIds None s
               ↔ truthy k = true ∧ ∃ m, m ∈ s ∧ SOURCE_ID m = k)
    as Hall.
  { intros k. unfold getExistingSourceIds.
    destruct s as [|m0 s']; cbn [length Nat.eqb].
    - split; [by intros ?%not_elem_of_empty |].
      by intros (_ & m & ?%elem_of_nil & _).
    - rewrite elem_of_list_to_set, list_elem_of_filter, list_elem_of_fmap.
      split.
      + intros (Ht & m & -> & Hin). eauto.
      + intros (Ht & m & Hin & <-). eauto. }
  split_and!.
  - intros source Hsource. by apply getExistingSourceIds_elem.
  - apply Hall.
  - done.
  - intros [source|]; [| done]. destruct (truthy source) eqn:Hsource.
    + intros k (Ht & m & Hm & _ & Hk)%getExistingSourceIds_elem; [| done].
      apply Hall. eauto.
    + unfold getExistingSourceIds. by rewrite Hsource.
  - unfold getExistingGmailIds. by apply getExistingSourceIds_elem.
Qed.

(** ** What a classification run keeps *)

Lemma getNextId_seqZ (s s' : store) (k : nat) :
  ID <$> s' = (ID <$> s) ++ seqZ (getNextId s) (Z.of_nat k) →
  getNextId s' = (getNextId s + Z.of_nat k)%Z.
Proof.
  intros Hids. rewrite !getNextId_max_id. unfold max_id at 1.
  rewrite Hids, foldr_max_app. fold (max_id s). rewrite getNextId_max_id.
  pose proof (foldr_max_seqZ (max_id s) k (max_id_nonneg s)). lia.
Qed.

Lemma extends_refl (n : nat) (s : store) : extends n s s.
Proof. exists 0%nat. split; [lia | by rewrite app_nil_r]. Qed.

Lemma extends_trans (n m : nat) (s s1 s2 : store) :
  extends n s s1 → extends m s1 s2 → extends (n + m) s s2.
Proof.
  intros (k & Hk & Hids) (k' & Hk' & Hids').
  exists (k + k')%nat. split; [lia |].
  rewrite Hids', Hids, (getNextId_seqZ s s1 k Hids), <- app_assoc.
  f_equal. rewrite Nat2Z.inj_add. by rewrite seqZ_app by lia.
Qed.

Lemma extends_weaken (n m : nat) (s s' : store) :
  (n ≤ m)%nat → extends n s s' → extends m s s'.
Proof.
  intros Hle (k & Hk & Hrest). exists k. split; [lia | done].
Qed.

Lemma extends_unique_ids (n : nat) (s s' : store) :
  extends n s s' → unique_ids s → unique_ids s'.
Proof.
  intros (k & _ & Hids) Hu. unfold unique_ids. rewrite Hids.
  apply NoDup_app. split_and!; [done | | apply NoDup_seqZ].
  intros x Hx [Hge _]%elem_of_seqZ.
  apply list_elem_of_fmap in Hx as (m & -> & Hm).
  pose proof (getNextId_above s m Hm). lia.
Qed.

Lemma appends_ret {A : Type} (a : A) : appends_at_most 0 (mret a).
Proof. intros s. exists a, s. split; [done | apply extends_refl]. Qed.

Lemma appends_bind {A B : Type} (n m : nat) (c : M A) (k : A → M B) :
  appends_at_most n c → (∀ a, appends_at_most m (k a)) →
  appends_at_most (n + m) (c ≫= k).
Proof.
  intros Hc Hk s. destruct (Hc s) as (a & s1 & Hs1 & H1).
  destruct (Hk a s1) as (b & s2 & Hs2 & H2).
  exists b, s2. unfold mbind, M_bind. rewrite Hs1, Hs2.
  split; [done | by eapply extends_trans].
Qed.

Lemma appends_weaken {A : Type} (n m : nat) (c : M A) :
  (n ≤ m)%nat → appends_at_most n c → appends_at_most m c.
Proof.
  intros Hle Hc s. destruct (Hc s) as (a & s' & Hs' & H').
  exists a, s'. split; [done | by eapply extends_weaken].
Qed.

Lemma appends_gets {A B : Type} (n : nat) (f : store → A) (k : A → M B) :
  (∀ a, appends_at_most n (k a)) → appends_at_most n (gets f ≫= k).
Proof.
  intros Hk. apply (appends_bind 0 n); [| done].
  intros s. exists (f s), s. split; [done | apply extends_refl].
Qed.

Lemma appends_try_catch {A : Type} (n : nat) (c : M A) (h : error → M A) :
  appends_at_most n c → appends_at_most n (try_catch c h).
Proof.
  intros Hc s. destruct (Hc s) as (a & s' & Hs' & H').
  exists a, s'. unfold try_catch. by rewrite Hs'.
Qed.

Lemma appends_keeps {A : Type} (c : M A) :
  keeps_columns c → appends_at_most 0 c.
Proof.
  intros Hc s. destruct (Hc s) as (a & s' & Hs' & Hid & _).
  exists a, s'. split; [done |]. exists 0%nat.
  split; [lia | by rewrite app_nil_r].
Qed.

Section ClassificationRuns.
Context {currencyConversionService : CurrencyConversionService}.
Variable analyzeCategory : string → movementData → option analysisResult.
Variable matchDebitRepayment : repaymentData → list movement → option Z.

Lemma appends_splitMovement (originalMovementId : Z)
    (splitInfo : SplitInfo.t) :
  appends_at_most 1 (splitMovement originalMovementId splitInfo).
Proof.
  intros s. destruct (findIndex originalMovementId s) as [[i m]|] eqn:Hfind.
  - destruct (splitMovement_found originalMovementId splitInfo s i m Hfind)
      as (personal & shared & -> & Hp & Hs).
    destruct (findIndex_Some _ _ _ _ Hfind) as (Hi & _ & _).
    destruct Hp as (Hpid & _). destruct Hs as (Hsid & _).
    eexists _, _. split; [reflexivity |]. exists 1%nat. split; [lia |].
    rewrite fmap_app, (ID_insert i m personal s Hi Hpid). csimpl.
    by rewrite Hsid.
  - rewrite splitMovement_not_found by done.
    eexists _, _. split; [reflexivity |].
    apply (extends_weaken 0); [lia | apply extends_refl].
Qed.

Lemma appends_splitExpense (originalMovementId : Z)
    (splitInfo : SplitInfo.t) :
  appends_at_most 1
    (splitExpenseForRecategorization originalMovementId splitInfo).
Proof.
  intros s. destruct (findIndex originalMovementId s) as [[i m]|] eqn:Hfind.
  - destruct (Qle_bool (AMOUNT m) (SplitInfo.split_amount splitInfo)
              || Qle_bool (SplitInfo.split_amount splitInfo) 0) eqn:Hok.
    + rewrite (splitExpense_invalid _ _ _ i m) by done.
      eexists _, _. split; [reflexivity |].
      apply (extends_weaken 0); [lia | apply extends_refl].
    + destruct (splitExpense_found originalMovementId splitInfo s i m
                  Hfind Hok) as (remaining & split & -> & Hr & Hs).
      destruct (findIndex_Some _ _ _ _ Hfind) as (Hi & _ & _).
      destruct Hr as (Hrid & _). destruct Hs as (Hsid & _).
      eexists _, _. split; [reflexivity |]. exists 1%nat. split; [lia |].
      rewrite fmap_app, (ID_insert i m remaining s Hi Hrid). csimpl.
      by rewrite Hsid.
  - rewrite splitExpense_not_found by done.
    eexists _, _. split; [reflexivity |].
    apply (extends_weaken 0); [lia | apply extends_refl].
Qed.

Lemma keeps_try_catch {A : Type} (c : M A) (h : error → M A) :
  keeps_columns c → keeps_columns (try_catch c h).
Proof.
  intros Hc s. destruct (Hc s) as (a & s' & Hs' & H').
  exists a, s'. unfold try_catch. by rewrite Hs'.
Qed.

Lemma keeps_processDebitRepaymentSettlement (repaymentMovementId : Z)
    (repaymentMovement : movement) :
  keeps_columns
    (processDebitRepaymentSettlement matchDebitRepayment repaymentMovementId
       repaymentMovement).
Proof.
  unfold processDebitRepaymentSettlement. apply keeps_try_catch.
  apply keeps_columns_gets. intros pendingDebits.
  destruct (length pendingDebits =? 0)%nat; [apply keeps_columns_ret |].
  apply keeps_columns_bind; [| intros; apply keeps_columns_ret].
  destruct (matchDebitRepayment _ pendingDebits) as [d|];
    [| apply keeps_columns_ret].
  destruct (d =? 0)%Z; [apply keeps_columns_ret |].
  destruct (find _ pendingDebits) as [debit|]; [| apply keeps_columns_ret].
  apply keeps_columns_bind; [apply keeps_updateMovementSettledId |].
  intros _. destruct (js_ge _ 95); [apply keeps_updateMovementStatus |].
  destruct (js_ge _ 50); apply keeps_columns_ret.
Qed.

Lemma appends_analyzeMovement (movement : movement) :
  appends_at_most 1
    (analyzeMovement analyzeCategory matchDebitRepayment movement).
Proof.
  unfold analyzeMovement. apply appends_try_catch.
  destruct (analyzeCategory _ _) as [a|];
    [| apply (appends_weaken 0); [lia | apply appends_ret]].
  apply (appends_bind 1 0).
  - destruct (needs_split a && String.eqb (split_type a) "EXPENSE").
    + apply (appends_bind 1 0); [apply appends_splitExpense |].
      intros; apply appends_ret.
    + apply (appends_bind 0 1);
        [apply appends_keeps, keeps_updateMovementWithAnalysis |].
      intros _. destruct (needs_split a);
        [| apply (appends_weaken 0); [lia | apply appends_ret]].
      apply (appends_bind 1 0); [apply appends_splitMovement |].
      intros; apply appends_ret.
  - intros _. destruct (String.eqb _ _); [| apply appends_ret].
    apply appends_keeps, keeps_processDebitRepaymentSettlement.
Qed.

Lemma appends_analyzeEach (uncategorizedMovements : list movement) :
  appends_at_most (length uncategorizedMovements)
    (analyzeEach analyzeCategory matchDebitRepayment uncategorizedMovements).
Proof.
  induction uncategorizedMovements as [|m l IH]; [apply appends_ret |].
  cbn [analyzeEach length]. apply (appends_bind 1 (length l));
    [apply appends_analyzeMovement |].
  intros calls. replace (length l) with (length l + 0)%nat by lia.
  apply appends_bind; [done |]. intros; apply appends_ret.
Qed.

Lemma analyzeMovement_no_answer (movement : movement) (s : store) :
  analyzeCategory
    (fullDescription (USER_DESCRIPTION movement) (COMMENT movement))
    (movementDataOf movement) = None →
  analyzeMovement analyzeCategory matchDebitRepayment movement s
  = Return [] s.
Proof.
  intros Hnone. unfold analyzeMovement, try_catch.
  fold (movementDataOf movement). by rewrite Hnone.
Qed.

Lemma analyzeEach_no_answer (uncategorizedMovements : list movement)
    (s : store) :
  (∀ movement, movement ∈ uncategorizedMovements →
     analyzeCategory
       (fullDescription (USER_DESCRIPTION movement) (COMMENT movement))
       (movementDataOf movement) = None) →
  analyzeEach analyzeCategory matchDebitRepayment uncategorizedMovements s
  = Return [] s.
Proof.
  induction uncategorizedMovements as [|m l IH]; intros Hnone; [done |].
  cbn [analyzeEach]. unfold mbind, M_bind.
  rewrite analyzeMovement_no_answer by (apply Hnone, elem_of_cons; by left).
  rewrite IH; [done |]. intros m' Hm'. apply Hnone, elem_of_cons. by right.
Qed.

(** X19.  A classification run never removes or renumbers a row: the
    ids of the sheet it leaves, however it ends, are the ids before, in
    order, followed by the next ids in order, one for each row a split
    appended, and at most one for each movement that awaited analysis.
    So the next id only moves forward and unique ids stay unique.  When
    the classifier gives no answer for any of the movements that await
    analysis, the sheet stays as it was. *)
Theorem processUncategorizedMovements_ids (s : store) :
  let s' :=
    final_store
      (processUncategorizedMovements analyzeCategory matchDebitRepayment s) in
  ∃ k : nat,
    (k ≤ length (getMovementsNeedingCategoryAnalysis s))%nat
    ∧ ID <$> s' = (ID <$> s) ++ seqZ (getNextId s) (Z.of_nat k)
    ∧ length s' = (length s + k)%nat
    ∧ getNextId s' = (getNextId s + Z.of_nat k)%Z
    ∧ (unique_ids s → unique_ids s')
    ∧ ((∀ movement, movement ∈ getMovementsNeedingCategoryAnalysis s →
          analyzeCategory
            (fullDescription (USER_DESCRIPTION movement) (COMMENT movement))
            (movementDataOf movement) = None) →
       s' = s).
Proof.
  set (queue := getMovementsNeedingCategoryAnalysis s).
  assert (∃ calls s',
    processUncategorizedMovements analyzeCategory matchDebitRepayment s
      = Return calls s'
    ∧ extends (length queue) s s'
    ∧ ((∀ movement, movement ∈ queue →
          analyzeCategory
            (fullDescription (USER_DESCRIPTION movement) (COMMENT movement))
            (movementDataOf movement) = None) →
       s' = s)) as (calls & s' & Hrun & Hext & Hnone).
  { unfold processUncategorizedMovements, mbind, M_bind, gets.
    fold queue. destruct (length queue =? 0)%nat.
    - exists [], s. split_and!; [done | apply extends_refl | done].
    - destruct (appends_analyzeEach queue s) as (calls & s' & Hrun & Hext).
      exists calls, s'. split_and!; [done | done |].
      intros Hnone. rewrite analyzeEach_no_answer in Hrun by done.
      by injection Hrun as _ <-. }
  cbv zeta. rewrite Hrun. cbn [final_store].
  pose proof (extends_unique_ids _ _ _ Hext) as Hunique.
  destruct Hext as (k & Hk & Hids).
  exists k. split_and!; try done.
  - rewrite <- (length_fmap ID s'), Hids, length_app, length_fmap,
      length_seqZ. lia.
  - by apply getNextId_seqZ.
Qed.
End ClassificationRuns.

(** ** A repair run *)

Section RepairRuns.
Context {currencyConversionService : CurrencyConversionService}.

Lemma fixMovementCurrencyConversion_repairable (s : store) (i : nat)
    (m : movement) :
  unique_ids s → s !! i = Some m →
  fixMovementCurrencyConversion (ID m) s
  = if repairable m then Throw (ReferenceError "sheetRowIndex") s
    else Return false s.
Proof.
  intros Hu Hi. unfold fixMovementCurrencyConversion, repairable. run.
  unfold getAllMovements. rewrite (findIndex_unique s i m Hu Hi).
  destruct (Qeq_bool (AMOUNT m) 0); [done |].
  destruct (truthy (CURRENCY m)); [| done]. cbn [negb orb andb].
  destruct (fixCurrencyConversion (AMOUNT m) (CURRENCY m)) as [cv|];
    [| done].
  by destruct (truthy_cvalue (clpValue cv)), (truthy_cvalue (usdValue cv)),
    (truthy_cvalue (gbpValue cv)).
Qed.

Lemma fixEach_repairable (failedMovements : list movement) (s : store)
    (counts : fixCounts) :
  unique_ids s → failedMovements ⊆ s →
  fixEach failedMovements counts s
  = if existsb repairable failedMovements
    then Throw (ReferenceError "sheetRowIndex") s
    else Return (mkFixCounts (successCount counts)
                   (failureCount counts + length failedMovements)) s.
Proof.
  intros Hu. revert counts.
  induction failedMovements as [|m l IH]; intros counts Hsub.
  - destruct counts as [a b]. cbn. by rewrite Nat.add_0_r.
  - assert (m ∈ s) as [i Hi]%list_elem_of_lookup_1
      by (apply Hsub, elem_of_cons; by left).
    assert (l ⊆ s) as Hl by (intros x Hx; apply Hsub, elem_of_cons; by right).
    cbn [fixEach existsb]. unfold mbind, M_bind.
    rewrite (fixMovementCurrencyConversion_repairable s i m Hu Hi).
    destruct (repairable m); [done |]. cbn [orb].
    rewrite IH by done. destruct (existsb repairable l); [done |].
    cbn. do 2 f_equal. lia.
Qed.

(** X21.  A repair run never changes the sheet: it returns, or it is
    stopped by the error of the undeclared row index, and in both cases
    the sheet is as it was.  On a sheet with unique ids it is stopped
    exactly when the conversion service can repair one of the movements
    with a failed value; it returns when there is none. *)
Theorem fixFailedCurrencyConversions_never_writes (s : store) :
  final_store (fixFailedCurrencyConversions s) = s
  ∧ (fixFailedCurrencyConversions s = Return tt s
     ∨ fixFailedCurrencyConversions s
       = Throw (ReferenceError "sheetRowIndex") s)
  ∧ (unique_ids s →
     fixFailedCurrencyConversions s
     = if existsb repairable (getMovementsWithFailedCurrencyConversion s)
       then Throw (ReferenceError "sheetRowIndex") s
       else Return tt s).
Proof.
  assert (fixFailedCurrencyConversions s = Return tt s
          ∨ fixFailedCurrencyConversions s
            = Throw (ReferenceError "sheetRowIndex") s) as Hcases.
  { unfold fixFailedCurrencyConversions, try_catch, mbind, M_bind.
    destruct (fixAllFailedCurrencyConversions_outcomes s) as [-> | ->];
      [by left | by right]. }
  split_and!; [| done |].
  - by destruct Hcases as [-> | ->].
  - intros Hu.
    unfold fixFailedCurrencyConversions, fixAllFailedCurrencyConversions,
      try_catch, mbind, M_bind, gets.
    rewrite fixEach_repairable; [| done |].
    + by destruct (existsb repairable _).
    + intros m Hm. unfold getMovementsWithFailedCurrencyConversion in Hm.
      by apply list_elem_of_filter in Hm as [_ ?].
Qed.
End RepairRuns.

(** ** Ingestion only appends *)

Section Appends.
Context {currencyConversionService : CurrencyConversionService}.
Variable convertTransactionToMovement :
  monzoTransaction → Z → option movement.

Lemma addMovementsBatch_appends (movements : list batchItem) (s : store) :
  ∃ rows, final_store (addMovementsBatch movements s) = s ++ rows
    ∧ rows ⊆ row <$> movements.
Proof.
  unfold addMovementsBatch.
  destruct (forEach_addMovement_prefix (Array_sort compareFn movements) s)
    as (n & Hfinal & _).
  eexists. split; [exact Hfinal |].
  intros r (item & -> & Hitem)%list_elem_of_fmap.
  apply list_elem_of_fmap_2.
  rewrite <- (Array_sort_Permutation compareFn movements).
  by eapply subseteq_take.
Qed.

Lemma monzoBatch_source (newTransactions : list monzoTransaction)
    (nextId : Z) :
  Forall (λ item, SOURCE (row item) = SOURCES_MONZO)
    (monzoBatch convertTransactionToMovement newTransactions nextId).
Proof.
  revert nextId. induction newTransactions as [|t l IH]; intros nextId;
    [constructor |].
  cbn [monzoBatch]. unfold createMonzoMovementRow.
  destruct (convertTransactionToMovement t nextId); [| apply IH].
  constructor; [done | apply IH].
Qed.

(** X22.  A run over the Monzo feed and a run over the Splitwise feed
    only append: whatever the feed, and whether the run returns or
    throws, the sheet afterwards is the sheet before, followed by rows
    of the source of the run.  A run over the Splitwise feed that throws
    has written nothing. *)
Theorem ingestion_only_appends (connectionTest : bool) (s : store) :
  (∀ transactions, ∃ rows,
     final_store
       (processMonzoTransactions convertTransactionToMovement connectionTest
          transactions s) = s ++ rows
     ∧ Forall (λ movementRow, SOURCE movementRow = SOURCES_MONZO) rows)
  ∧ (∀ creditMovements debitMovements, ∃ rows,
       final_store
         (processSplitwiseMovements connectionTest creditMovements
            debitMovements s) = s ++ rows
       ∧ Forall (λ movementRow, SOURCE movementRow = SOURCES_SPLITWISE) rows
       ∧ ∀ e s', processSplitwiseMovements connectionTest creditMovements
                   debitMovements s = Throw e s' → s' = s).
Proof.
  split.
  - intros transactions.
    assert (∀ o : outcome unit, o = Return tt s →
      ∃ rows, final_store o = s ++ rows
        ∧ Forall (λ movementRow, SOURCE movementRow = SOURCES_MONZO) rows)
      as Hsame.
    { intros o ->. exists []. by rewrite app_nil_r. }
    unfold processMonzoTransactions, try_catch, mbind, M_bind, gets.
    destruct connectionTest; cbn [negb]; [| by apply Hsame].
    destruct (length transactions =? 0)%nat; [by apply Hsame |].
    set (new := filter _ transactions).
    destruct (length new =? 0)%nat; [by apply Hsame |].
    set (batch := monzoBatch _ new (getNextId s)).
    destruct (0 <? length batch)%nat; [| by apply Hsame].
    destruct (addMovementsBatch_appends batch s) as (rows & Hfinal & Hsub).
    exists rows. split.
    + by destruct (addMovementsBatch batch s).
    + apply Forall_forall. intros r Hr. apply Hsub in Hr.
      apply list_elem_of_fmap in Hr as (item & -> & Hitem).
      pose proof (monzoBatch_source new (getNextId s)) as Hsource.
      by eapply Forall_forall in Hsource.
  - intros creditMovements debitMovements.
    assert (∀ o : outcome unit, o = Return tt s →
      ∃ rows, final_store o = s ++ rows
        ∧ Forall (λ movementRow, SOURCE movementRow = SOURCES_SPLITWISE) rows
        ∧ ∀ e s', o = Throw e s' → s' = s) as Hsame.
    { intros o ->. exists []. by rewrite app_nil_r. }
    unfold processSplitwiseMovements, try_catch, mbind, M_bind, gets.
    destruct connectionTest; cbn [negb]; [| by apply Hsame].
    destruct (length (creditMovements ++ debitMovements) =? 0)%nat;
      [by apply Hsame |].
    set (new := filter _ (creditMovements ++ debitMovements)).
    destruct (length new =? 0)%nat; [by apply Hsame |].
    destruct (splitwiseBatch new (getNextId s) s) as [batch s0 | e s0] eqn:Hb.
    + destruct (splitwiseBatch_rows _ _ _ _ _ Hb)
        as (-> & Hlen & Hids & Hrows).
      destruct (seqZ_ids_fresh s _ _ Hids) as [Hnd Hge].
      destruct (0 <? length batch)%nat; [| by apply Hsame].
      rewrite addMovementsBatch_fresh by done.
      eexists. split; [reflexivity |]. split; [| done].
      apply Forall_forall. intros r (item & -> & Hitem)%list_elem_of_fmap.
      rewrite Array_sort_Permutation in Hitem.
      eapply Forall_forall in Hrows; [| exact Hitem]. tauto.
    + destruct (splitwiseBatch_outcome new (getNextId s) s)
        as [(batch & Hbatch & _) | (e' & Hthrow)]; [congruence |].
      rewrite Hb in Hthrow. injection Hthrow as -> ->.
      exists []. rewrite app_nil_r. split_and!; [done | done |].
      by intros e0 s' [= _ <-].
Qed.
End Appends.

(** ** The split a classification asks for *)

Section ChosenSplit.
Context {currencyConversionService : CurrencyConversionService}.
Variable analyzeCategory : string → movementData → option analysisResult.
Variable matchDebitRepayment : repaymentData → list movement → option Z.

End ChosenSplit.

